(** * ledctl: WS281x / LPD8806 drivers and Raspberry Pi hardware detection

    A shallow embedding of the Go package [ledctl] (the WS281x and LPD8806
    strip drivers, the colour-order table) and of [rpi.detectHardware],
    followed by the properties of the design document that concern them.

    Conventions.
    - A Go [int]/[uint] is a [Z]; where a computation is made on caller
      supplied magnitudes ([pwmByteCount]) the wrap-around of the machine
      word is written out, for both word sizes Go has on a Raspberry Pi.
      Slice indices are computed on [Z]: under the driver invariant
      (buffer length = numPixels * numColors) they are bounded by the
      length of an allocated slice.
    - A [byte] and a [uint32] are [Z]s of the corresponding range, bit
      operations are [Z.land], [Z.lor], [Z.lxor], [Z.shiftl].
    - A slice is a [list]; an index expression checks its bounds and
      panics outside of them, as the Go runtime does.
    - A method with a pointer receiver is a state transformer over the
      receiver that may end in a panic; the receiver's state at the moment
      of the panic is kept. *)

From Stdlib Require Import ZArith Lia String Ascii Bool Sorted.
From stdpp Require Import base tactics list.

Local Open Scope Z_scope.

(** ** Machine integers *)

Module GoInt.

(** [GOARCH=arm] (Pi 1, Zero, 32-bit OS) or [GOARCH=arm64]. *)
Inductive WordSize := W32 | W64.

Definition bits (sz : WordSize) : Z :=
  match sz with W32 => 32 | W64 => 64 end.

Definition modulus (sz : WordSize) : Z := 2 ^ bits sz.

(** Conversion of a mathematical integer to [uint]: two's complement
    reinterpretation, which is also what [uint(x)] does to an [int]. *)
Definition to_uint (sz : WordSize) (x : Z) : Z := x mod modulus sz.

(** Conversion to the signed [int] of the same width. *)
Definition to_int (sz : WordSize) (x : Z) : Z :=
  (x + modulus sz / 2) mod modulus sz - modulus sz / 2.

Definition imul sz (a b : Z) : Z := to_int sz (a * b).
Definition uadd sz (a b : Z) : Z := to_uint sz (a + b).
Definition usub sz (a b : Z) : Z := to_uint sz (a - b).
Definition umul sz (a b : Z) : Z := to_uint sz (a * b).

(** [uint32] and [uint8] values. *)
Definition u32 (x : Z) : Z := x mod 2 ^ 32.
Definition u8 (x : Z) : Z := x mod 2 ^ 8.

(** [^x] on a [uint32]. *)
Definition not32 (x : Z) : Z := Z.lxor x 0xFFFFFFFF.

End GoInt.

Import GoInt.

(** ** Errors, panics and the receiver monad *)

(** An [error] value: either produced outside of the package (the
    operating system, the mailbox, ...) or built by [fmt.Errorf] with one
    [%v] or [%q] verb at the end of the format. *)
Inductive error : Type :=
| ExternalError (msg : string)
| Errorf_v (format_prefix : string) (cause : error)
| Errorf_q (format_prefix : string) (quoted : string).

(** What a [panic] carries: the run-time error of an index expression, of
    [make], or the string given to an explicit [panic(...)]. *)
Inductive Panic : Type :=
| IndexOutOfRange (index len : Z)
| MakeSliceLenOutOfRange
| PanicString (msg : string).

Inductive Outcome (A : Type) : Type :=
| Returned (a : A)
| Panicked (p : Panic).
Arguments Returned {A} a.
Arguments Panicked {A} p.

(** A computation over a mutable state [S]; a panic keeps the state
    reached so far. *)
Definition Go (S A : Type) : Type := S -> S * Outcome A.

Definition ret {S A} (a : A) : Go S A := fun s => (s, Returned a).

Definition bind {S A B} (m : Go S A) (k : A -> Go S B) : Go S B :=
  fun s => match m s with
           | (s', Returned a) => k a s'
           | (s', Panicked p) => (s', Panicked p)
           end.

Definition panic {S A} (p : Panic) : Go S A := fun s => (s, Panicked p).

Definition get {S} : Go S S := fun s => (s, Returned s).

Definition modify {S} (f : S -> S) : Go S unit := fun s => (f s, Returned tt).

Notation "'let*' x ':=' m 'in' k" := (bind m (fun x => k))
  (at level 10, x name, m at level 100, k at level 200).
Notation "m '>>>' k" := (bind m (fun _ => k))
  (at level 65, right associativity).

(** [for _, x := range l { body x }]. *)
Fixpoint forM_ {S A} (l : list A) (body : A -> Go S unit) : Go S unit :=
  match l with
  | [] => ret tt
  | x :: l' => body x >>> forM_ l' body
  end.

(** A loop that carries local variables [acc] from one iteration to the
    next. *)
Fixpoint foldM {S A B} (body : B -> A -> Go S B) (acc : B) (l : list A)
  : Go S B :=
  match l with
  | [] => ret acc
  | x :: l' => let* acc' := body acc x in foldM body acc' l'
  end.

(** The values taken by [i] in [for i := lo; i < hi; i += step], for a
    positive [step] and a bound that the body does not change. *)
Definition count_up (lo hi step : Z) : list Z :=
  map (fun n => lo + Z.of_nat n * step)
      (seq 0 (Z.to_nat ((hi - lo + step - 1) / step))).

(** The values taken by [k] in [for k := hi; k >= lo; k--]. *)
Definition count_down (hi lo : Z) : list Z :=
  map (fun n => hi - Z.of_nat n) (seq 0 (Z.to_nat (hi - lo + 1))).

(** [len(s)]. *)
Definition len {A} (s : list A) : Z := Z.of_nat (length s).

(** The index expression [s[i]] as an operand. *)
Definition index_get {S A} (s : list A) (i : Z) : Go S A :=
  if (0 <=? i) && (i <? len s)
  then match s !! Z.to_nat i with
       | Some v => ret v
       | None => panic (IndexOutOfRange i (len s))
       end
  else panic (IndexOutOfRange i (len s)).

(** The slice after [s[i] = v], or the panic of the index expression. *)
Definition index_set {A} (s : list A) (i : Z) (v : A) : Outcome (list A) :=
  if (0 <=? i) && (i <? len s)
  then Returned (<[Z.to_nat i := v]> s)
  else Panicked (IndexOutOfRange i (len s)).

(** ** ledctl.go: colours, colour orders and colour models *)

Inductive ColorOrder : Type :=
| GRBOrder | BRGOrder | BGROrder | GBROrder | RGBOrder | RBGOrder | GRBWOrder.

(** The map [offsets]; each entry is the position of G, R, B, W in a
    pixel. *)
Definition offsets (o : ColorOrder) : list Z :=
  match o with
  | GRBOrder => [0; 1; 2; -1]
  | BRGOrder => [2; 1; 0; -1]
  | BGROrder => [1; 2; 0; -1]
  | GBROrder => [0; 2; 1; -1]
  | RGBOrder => [1; 0; 2; -1]
  | RBGOrder => [2; 0; 1; -1]
  | GRBWOrder => [0; 1; 2; 3]
  end.

Inductive ColorModel : Type := RGBWModel | RGBModel.

Definition NumColors (m : ColorModel) : Z :=
  match m with
  | RGBWModel => 4
  | RGBModel => 3
  end.

Record RGBW : Type := mkRGBW { rgbw_R : Z; rgbw_G : Z; rgbw_B : Z; rgbw_W : Z }.

Record RGB : Type := mkRGB { rgb_R : Z; rgb_G : Z; rgb_B : Z }.

(** The components are [uint8]s. *)
Definition is_byte (x : Z) : Prop := 0 <= x < 256.

Definition RGB_ok (c : RGB) : Prop :=
  is_byte (rgb_R c) /\ is_byte (rgb_G c) /\ is_byte (rgb_B c).

Definition RGBW_ok (c : RGBW) : Prop :=
  is_byte (rgbw_R c) /\ is_byte (rgbw_G c) /\ is_byte (rgbw_B c) /\
  is_byte (rgbw_W c).

(** ** rpi/rpi.go: hardware detection *)

Module rpi.

Record hw : Type := mkHw {
  hwType : Z;
  periphBase : Z;
  vcBase : Z;
  name : string
}.

Definition RPI_HWVER_TYPE_UNKNOWN : Z := 0.
Definition RPI_HWVER_TYPE_PI1 : Z := 1.
Definition RPI_HWVER_TYPE_PI2 : Z := 2.
Definition RPI_HWVER_TYPE_PI4 : Z := 3.

Definition PERIPH_BASE_RPI : Z := 0x20000000.
Definition PERIPH_BASE_RPI2 : Z := 0x3f000000.
Definition PERIPH_BASE_RPI4 : Z := 0xfe000000.

Definition VIDEOCORE_BASE_RPI : Z := 0x40000000.
Definition VIDEOCORE_BASE_RPI2 : Z := 0xc0000000.

(** The catalog, in the order of the source text. *)
Definition rasPiVariants : list hw := [
  mkHw RPI_HWVER_TYPE_PI1 PERIPH_BASE_RPI VIDEOCORE_BASE_RPI
       "Raspberry Pi Model B";
  mkHw RPI_HWVER_TYPE_PI1 PERIPH_BASE_RPI VIDEOCORE_BASE_RPI
       "Raspberry Pi Compute Module";
  mkHw RPI_HWVER_TYPE_PI1 PERIPH_BASE_RPI VIDEOCORE_BASE_RPI
       "Raspberry Pi Zero W";
  mkHw RPI_HWVER_TYPE_PI2 PERIPH_BASE_RPI2 VIDEOCORE_BASE_RPI2
       "Raspberry Pi 2 Model B";
  mkHw RPI_HWVER_TYPE_PI2 PERIPH_BASE_RPI2 VIDEOCORE_BASE_RPI2
       "Raspberry Pi Compute Module 3";
  mkHw RPI_HWVER_TYPE_PI2 PERIPH_BASE_RPI2 VIDEOCORE_BASE_RPI2
       "Raspberry Pi Compute Module 3 Plus";
  mkHw RPI_HWVER_TYPE_PI2 PERIPH_BASE_RPI2 VIDEOCORE_BASE_RPI2
       "Raspberry Pi 3 Model B";
  mkHw RPI_HWVER_TYPE_PI2 PERIPH_BASE_RPI2 VIDEOCORE_BASE_RPI2
       "Raspberry Pi 3 Model B Plus";
  mkHw RPI_HWVER_TYPE_PI4 PERIPH_BASE_RPI4 VIDEOCORE_BASE_RPI2
       "Raspberry Pi 4 Model B"
]%string.

Definition strlen (s : string) : Z := Z.of_nat (String.length s).

(** The [less] function handed to [sort.Slice]. *)
Definition less (x y : hw) : bool :=
  if strlen (name x) =? strlen (name y)
  then vcBase x <? vcBase y
  else strlen (name x) >? strlen (name y).

(** [sort.Slice] on a slice of at most 12 elements is the insertion sort
    of the Go library: element [i] is swapped towards the front while it
    is [less] than its left neighbour.  [insert_back x sorted_rev] takes
    the already sorted prefix with its last element first. *)
Fixpoint insert_back (x : hw) (sorted_rev : list hw) : list hw :=
  match sorted_rev with
  | [] => [x]
  | y :: rest => if less x y then y :: insert_back x rest
                 else x :: y :: rest
  end.

Definition sortSlice (l : list hw) : list hw :=
  rev (fold_left (fun sorted_rev x => insert_back x sorted_rev) l []).

(** [strings.HasPrefix(s, p)]. *)
Definition HasPrefix (s p : string) : bool := String.prefix p s.

(** The loop [for _, rp := range rasPiVariants] with its early return. *)
Fixpoint firstMatch (model : string) (variants : list hw) : option hw :=
  match variants with
  | [] => None
  | rp :: rest => if HasPrefix model (name rp) then Some rp
                  else firstMatch model rest
  end.

(** [detectHardware], given what [os.ReadFile("/proc/device-tree/model")]
    returned. *)
Definition detectHardware (modelFile : string + error) : hw + error :=
  let variants := sortSlice rasPiVariants in
  match modelFile with
  | inr err => inr (Errorf_v "couldn't open model file: " err)
  | inl model =>
      match firstMatch model variants with
      | Some rp => inl rp
      | None => inr (Errorf_q "couldn't identify Pi model " model)
      end
  end.

(** Modelled from the spec: the constant [RPI_PWM_CHANNELS] of package
    [rpi], whose declaration is not in the sources at hand; the design
    document says both PWM channels are driven from one buffer, and
    [Flush] fills two channels. *)
Definition RPI_PWM_CHANNELS : Z := 2.

End rpi.

(** Running a computation on one component of a pair of states. *)
Definition on_fst {S1 S2 A} (m : Go S1 A) : Go (S1 * S2) A :=
  fun st => match m (fst st) with (s1, o) => ((s1, snd st), o) end.

Definition on_snd {S1 S2 A} (m : Go S2 A) : Go (S1 * S2) A :=
  fun st => match m (snd st) with (s2, o) => ((fst st, s2), o) end.

(** [make([]T, n)] with elements set to [zero]. *)
Definition make {S A} (zero : A) (n : Z) : Go S (list A) :=
  if n <? 0 then panic MakeSliceLenOutOfRange
  else ret (replicate (Z.to_nat n) zero).

(** ** The hardware behind package rpi

    The methods of [rpi.RPi] that touch the mailbox, the DMA engine, the
    PWM and GPIO blocks are not part of the sources at hand.  The drivers
    are therefore written against an environment: every call made to the
    hardware is appended to a log, and its result is what the environment
    answers after the calls made so far. *)

Record DMABuf : Type := mkDMABuf {
  dma_handle : Z;
  (** the words of the buffer as [Uint32Slice] exposes them *)
  dma_words : list Z
}.

Inductive HwCall : Type :=
| ReadModelFile
| MboxOpen
| GetDMABuf (bytes : Z)
| InitDMA (channel : Z)
| InitGPIO
| InitPWM (freq : Z) (buf : Z) (bytes : Z) (pins : list Z)
| FreeDMABuf (buf : Z)
| StopPWM
| WaitForDMAEnd
| StartDMA (buf : Z) (symbols : list Z).

Definition HwLog : Type := list HwCall.

Record Hardware : Type := mkHardware {
  (** the error returned by a call, if any *)
  hw_error : HwLog -> HwCall -> option error;
  (** contents of /proc/device-tree/model when reading it succeeds *)
  hw_model : HwLog -> string;
  (** the buffer handed out by a successful [GetDMABuf] *)
  hw_dmabuf : HwLog -> Z -> DMABuf
}.

(** A call to the hardware: logged, answered by the environment. *)
Definition hwcall (env : Hardware) (c : HwCall) : Go HwLog (option error) :=
  fun log => (log ++ [c], Returned (hw_error env log c)).

(** [rpi.RPi], as far as the drivers look into it. *)
Record RPi : Type := mkRPi { rpi_hw : rpi.hw }.

(** [rpi.NewRPi]. *)
Definition NewRPi (env : Hardware) : Go HwLog (RPi + error) :=
  let* model := get in
  let* rerr := hwcall env ReadModelFile in
  let modelFile := match rerr with
                   | Some e => inr e
                   | None => inl (hw_model env model)
                   end in
  match rpi.detectHardware modelFile with
  | inr err => ret (inr (Errorf_v "couldn't detect RPi hardware: " err))
  | inl hw =>
      let rp := mkRPi hw in
      let* oerr := hwcall env MboxOpen in
      match oerr with
      | Some err => ret (inr (Errorf_v "couldn't open mailbox: " err))
      | None => ret (inl rp)
      end
  end.

(** ** led_ws281x.go *)

Module WS281x.

Record t : Type := mk {
  pixDMAUint : list Z;
  pixDMA : Z;
  rp : RPi;
  pixels : list Z;
  numPixels : Z;
  numColors : Z;
  g : Z;
  r : Z;
  b : Z;
  w : Z
}.

Definition ledReset_us : Z := 55.

Record Config : Type := mkConfig {
  NumPixels : Z;
  ColorOrder_ : ColorOrder;
  ColorModel_ : ColorModel;
  PWMFrequency : Z;
  DMAChannel : Z;
  GPIOPins : list Z
}.

Definition set_pixels (ws : t) (px : list Z) : t :=
  mk (pixDMAUint ws) (pixDMA ws) (rp ws) px (numPixels ws) (numColors ws)
     (g ws) (r ws) (b ws) (w ws).

Definition set_pixDMAUint (ws : t) (words : list Z) : t :=
  mk words (pixDMA ws) (rp ws) (pixels ws) (numPixels ws) (numColors ws)
     (g ws) (r ws) (b ws) (w ws).

(** [ws.pixels[i] = v]. *)
Definition pixels_store (i : Z) (v : Z) : Go t unit :=
  fun ws => match index_set (pixels ws) i v with
            | Returned px => (set_pixels ws px, Returned tt)
            | Panicked p => (ws, Panicked p)
            end.

(** [ws.pixels[i]] as an operand. *)
Definition pixels_load (i : Z) : Go t Z :=
  fun ws => index_get (pixels ws) i ws.

(** [ws.pixDMAUint[i]] as an operand, and [ws.pixDMAUint[i] = v]. *)
Definition dma_load (i : Z) : Go t Z :=
  fun ws => index_get (pixDMAUint ws) i ws.

Definition dma_store (i : Z) (v : Z) : Go t unit :=
  fun ws => match index_set (pixDMAUint ws) i v with
            | Returned words => (set_pixDMAUint ws words, Returned tt)
            | Panicked p => (ws, Panicked p)
            end.

(** [pwmByteCount]: [freq] is a [uint], the fields of [ws] are [int]s;
    [sz] is the width of both. *)
Definition pwmByteCount (sz : WordSize) (ws : t) (freq : Z) : Z :=
  let bits :=
    to_uint sz (imul sz (imul sz (imul sz 3 (numColors ws)) (numPixels ws)) 8) in
  let bits :=
    uadd sz bits (umul sz ledReset_us (umul sz freq 3) / 1000000) in
  let bytes := bits / 8 in
  let bytes := usub sz bytes (bytes mod 4) in
  let bytes := uadd sz bytes 4 in
  let bytes := umul sz bytes rpi.RPI_PWM_CHANNELS in
  bytes.

Definition MaxLEDsPerChannel (ws : t) : Z := 255.

Definition RGBWAt (i : Z) : Go t RGBW :=
  let* ws := get in
  let o := i * numColors ws in
  let* vr := pixels_load (o + r ws) in
  let* vg := pixels_load (o + g ws) in
  let* vb := pixels_load (o + b ws) in
  let* vw := pixels_load (o + w ws) in
  ret (mkRGBW vr vg vb vw).

Definition SetRGBWAt (i : Z) (rgbw : RGBW) : Go t unit :=
  let* ws := get in
  let o := i * numColors ws in
  pixels_store (o + r ws) (rgbw_R rgbw) >>>
  pixels_store (o + g ws) (rgbw_G rgbw) >>>
  pixels_store (o + b ws) (rgbw_B rgbw) >>>
  pixels_store (o + w ws) (rgbw_W rgbw).

(** The local variable [a] is carried from one iteration to the next. *)
Definition SetRGBWs (input : list RGBW) : Go t unit :=
  let* ws := get in
  if negb (numColors ws =? 4)
  then panic (PanicString "SetRGBWs called on WS281x with numColors != 4")
  else if negb (len input =? numPixels ws)
  then panic (PanicString "SetRGBWs called with wrong number of pixels")
  else
    let* _ := foldM (fun a i =>
        let* p := index_get input i in
        pixels_store (a + r ws) (rgbw_R p) >>>
        let* p := index_get input i in
        pixels_store (a + g ws) (rgbw_G p) >>>
        let* p := index_get input i in
        pixels_store (a + b ws) (rgbw_B p) >>>
        let* p := index_get input i in
        pixels_store (a + w ws) (rgbw_W p) >>>
        ret (a + 1))
      0 (count_up 0 (len (pixels ws)) 4) in
    ret tt.

Definition RGBAt (i : Z) : Go t RGB :=
  let* ws := get in
  let o := i * numColors ws in
  let* vr := pixels_load (o + r ws) in
  let* vg := pixels_load (o + g ws) in
  let* vb := pixels_load (o + b ws) in
  ret (mkRGB vr vg vb).

Definition SetRGBAt (i : Z) (rgb : RGB) : Go t unit :=
  let* ws := get in
  let o := i * numColors ws in
  pixels_store (o + r ws) (rgb_R rgb) >>>
  pixels_store (o + g ws) (rgb_G rgb) >>>
  pixels_store (o + b ws) (rgb_B rgb).

Definition SetRGBs (input : list RGB) : Go t unit :=
  let* ws := get in
  if negb (numColors ws =? 3)
  then panic (PanicString "SetRGBs called on RGBW strip")
  else if negb (len input =? numPixels ws)
  then panic (PanicString "SetRGBs called with wrong number of pixels")
  else
    let* _ := foldM (fun a i =>
        let* p := index_get input a in
        pixels_store (i + r ws) (rgb_R p) >>>
        let* p := index_get input a in
        pixels_store (i + g ws) (rgb_G p) >>>
        let* p := index_get input a in
        pixels_store (i + b ws) (rgb_B p) >>>
        ret (a + 1))
      0 (count_up 0 (len (pixels ws)) 3) in
    ret tt.

Definition symbolHigh : Z := 0x6.
Definition symbolLow : Z := 0x4.

(** The body of the innermost loop of [Flush] (over [l]): one PWM bit of
    [symbol] is written at ([rpPos], [bitPos]) and the position moves on;
    [cur] holds the local variables [rpPos] and [bitPos]. *)
Definition Flush_bit (symbol : Z) (cur : Z * Z) (l : Z) : Go t (Z * Z) :=
  let rpPos := fst cur in
  let bitPos := snd cur in
  let* word := dma_load rpPos in
  dma_store rpPos (Z.land word (not32 (u32 (Z.shiftl 1 bitPos)))) >>>
  (if negb (Z.land symbol (Z.shiftl 1 l) =? 0)
   then let* word := dma_load rpPos in
        dma_store rpPos (Z.lor word (u32 (Z.shiftl 1 bitPos)))
   else ret tt) >>>
  let bitPos := bitPos - 1 in
  if bitPos <? 0 then ret (rpPos + 2, 31) else ret (rpPos, bitPos).

(** The body of the loop over [k]: the symbol of bit [k] of colour byte
    [j] of pixel [i]. *)
Definition Flush_databit (i j : Z) (cur : Z * Z) (k : Z) : Go t (Z * Z) :=
  let* ws := get in
  let* px := pixels_load (i * numColors ws + j) in
  let symbol := if negb (Z.land px (u8 (Z.shiftl 1 k)) =? 0)
                then symbolHigh else symbolLow in
  foldM (Flush_bit symbol) cur (count_down 2 0).

(** The loops over [i], [j], [k] for channel [c]. *)
Definition Flush_channel (c : Z) : Go t unit :=
  let* ws := get in
  let* _ := foldM (fun cur i =>
      foldM (fun cur j =>
          foldM (Flush_databit i j) cur (count_down 7 0))
        cur (count_up 0 (numColors ws) 1))
    (c, 31) (count_up 0 (numPixels ws) 1) in
  ret tt.

Definition Flush_encode : Go t unit :=
  forM_ (count_up 0 2 1) Flush_channel.

Definition Flush (env : Hardware) : Go (t * HwLog) (option error) :=
  let* err := on_snd (hwcall env WaitForDMAEnd) in
  match err with
  | Some err => ret (Some (Errorf_v "pre-DMA wait failed: " err))
  | None =>
      on_fst Flush_encode >>>
      let* st := get in
      on_snd (hwcall env (StartDMA (pixDMA (fst st)) (pixDMAUint (fst st)))) >>>
      ret None
  end.

Definition Close (env : Hardware) : Go (t * HwLog) (option error) :=
  on_snd (hwcall env StopPWM) >>>
  let* st := get in
  let* err := on_snd (hwcall env (FreeDMABuf (pixDMA (fst st)))) in
  match err with
  | Some err => ret (Some (Errorf_v "couldn't free DMA buffer: " err))
  | None => ret None
  end.

Definition NewWS281x (env : Hardware) (sz : WordSize) (config : Config)
  : Go HwLog (t + error) :=
  let* rp := NewRPi env in
  match rp with
  | inr err => ret (inr (Errorf_v "couldn't init RPi: " err))
  | inl rp =>
      let offsets := offsets (ColorOrder_ config) in
      let nc := NumColors (ColorModel_ config) in
      let* px := make 0 (imul sz (NumPixels config) nc) in
      let* og := index_get offsets 0 in
      let* or := index_get offsets 1 in
      let* ob := index_get offsets 2 in
      let* ow := index_get offsets 3 in
      let wa := mk [] 0 rp px (NumPixels config) nc og or ob ow in
      let bytes := pwmByteCount sz wa (PWMFrequency config) in
      let* before := get in
      let* err := hwcall env (GetDMABuf bytes) in
      match err with
      | Some err => ret (inr (Errorf_v "couldn't get DMA buffer: " err))
      | None =>
          let buf := hw_dmabuf env before bytes in
          let wa := mk (dma_words buf) (dma_handle buf) rp px
                       (NumPixels config) nc og or ob ow in
          let* err := hwcall env (InitDMA (DMAChannel config)) in
          match err with
          | Some err =>
              hwcall env (FreeDMABuf (pixDMA wa)) >>>
              ret (inr (Errorf_v "couldn't init registers: " err))
          | None =>
              let* err := hwcall env InitGPIO in
              match err with
              | Some err =>
                  hwcall env (FreeDMABuf (pixDMA wa)) >>>
                  ret (inr (Errorf_v "couldn't init GPIO: " err))
              | None =>
                  let* err := hwcall env (InitPWM (PWMFrequency config)
                                            (pixDMA wa) bytes
                                            (GPIOPins config)) in
                  match err with
                  | Some err =>
                      hwcall env (FreeDMABuf (pixDMA wa)) >>>
                      ret (inr (Errorf_v "couldn't init PWM: " err))
                  | None => ret (inl wa)
                  end
              end
          end
      end
  end.

End WS281x.

(** ** led_lpd8806.go *)

Module LPD8806.

(** [pixels] is the slice [buffer[:numPixels*numColors]]: both share one
    backing array.  The record keeps that array once, in [buffer], and the
    length of the [pixels] view in [pixelsLen]. *)
Record t : Type := mk {
  rp : RPi;
  pixelsLen : Z;
  buffer : list Z;
  numColors : Z;
  numPixels : Z;
  g : Z;
  r : Z;
  b : Z;
  w : Z
}.

Definition set_buffer (la : t) (buf : list Z) : t :=
  mk (rp la) (pixelsLen la) buf (numColors la) (numPixels la)
     (g la) (r la) (b la) (w la).

(** The slice [la.pixels]. *)
Definition pixels (la : t) : list Z :=
  take (Z.to_nat (pixelsLen la)) (buffer la).

(** [la.pixels[i]] as an operand. *)
Definition pixels_load (i : Z) : Go t Z :=
  fun la => index_get (pixels la) i la.

(** [la.pixels[i] = v]: the store lands in the shared array. *)
Definition pixels_store (i : Z) (v : Z) : Go t unit :=
  fun la => match index_set (pixels la) i v with
            | Returned _ => (set_buffer la (<[Z.to_nat i := v]> (buffer la)),
                             Returned tt)
            | Panicked p => (la, Panicked p)
            end.

Definition MaxLEDsPerChannel (la : t) : Z := 127.

Definition RGBWAt (i : Z) : Go t RGBW :=
  let* la := get in
  let o := i * numColors la in
  let* vr := pixels_load (o + r la) in
  let* vg := pixels_load (o + g la) in
  let* vb := pixels_load (o + b la) in
  let* vw := pixels_load (o + w la) in
  ret (mkRGBW (Z.land vr 0x7F) (Z.land vg 0x7F) (Z.land vb 0x7F)
              (Z.land vw 0x7F)).

Definition SetRGBWAt (i : Z) (rgbw : RGBW) : Go t unit :=
  let* la := get in
  let o := i * numColors la in
  pixels_store (o + r la) (Z.lor 0x80 (rgbw_R rgbw)) >>>
  pixels_store (o + g la) (Z.lor 0x80 (rgbw_G rgbw)) >>>
  pixels_store (o + b la) (Z.lor 0x80 (rgbw_B rgbw)) >>>
  pixels_store (o + w la) (Z.lor 0x80 (rgbw_W rgbw)).

Definition SetRGBWs (input : list RGBW) : Go t unit :=
  let* la := get in
  if negb (numColors la =? 4)
  then panic (PanicString "SetRGBWs called on WS281x with numColors != 4")
  else if negb (len input =? numPixels la)
  then panic (PanicString "SetRGBWs called with wrong number of pixels")
  else
    let* _ := foldM (fun a i =>
        let* p := index_get input i in
        pixels_store (a + r la) (Z.lor 0x80 (rgbw_R p)) >>>
        let* p := index_get input i in
        pixels_store (a + g la) (Z.lor 0x80 (rgbw_G p)) >>>
        let* p := index_get input i in
        pixels_store (a + b la) (Z.lor 0x80 (rgbw_B p)) >>>
        let* p := index_get input i in
        pixels_store (a + w la) (Z.lor 0x80 (rgbw_W p)) >>>
        ret (a + 1))
      0 (count_up 0 (len (pixels la)) 4) in
    ret tt.

Definition RGBAt (i : Z) : Go t RGB :=
  let* la := get in
  let o := i * numColors la in
  let* vr := pixels_load (o + r la) in
  let* vg := pixels_load (o + g la) in
  let* vb := pixels_load (o + b la) in
  ret (mkRGB (Z.land vr 0x7F) (Z.land vg 0x7F) (Z.land vb 0x7F)).

Definition SetRGBAt (i : Z) (rgb : RGB) : Go t unit :=
  let* la := get in
  let o := i * numColors la in
  pixels_store (o + r la) (Z.lor 0x80 (rgb_R rgb)) >>>
  pixels_store (o + g la) (Z.lor 0x80 (rgb_G rgb)) >>>
  pixels_store (o + b la) (Z.lor 0x80 (rgb_B rgb)).

Definition SetRGBs (input : list RGB) : Go t unit :=
  let* la := get in
  if negb (numColors la =? 3)
  then panic (PanicString "SetRGBs called on RGBW strip")
  else if negb (len input =? numPixels la)
  then panic (PanicString "SetRGBs called with wrong number of pixels")
  else
    let* _ := foldM (fun a i =>
        let* p := index_get input a in
        pixels_store (i + r la) (Z.lor 0x80 (rgb_R p)) >>>
        let* p := index_get input a in
        pixels_store (i + g la) (Z.lor 0x80 (rgb_G p)) >>>
        let* p := index_get input a in
        pixels_store (i + b la) (Z.lor 0x80 (rgb_B p)) >>>
        ret (a + 1))
      0 (count_up 0 (len (pixels la)) 3) in
    ret tt.

End LPD8806.

(** ** Driver invariants

    What the constructors establish and every method keeps. *)

(** [NewWS281x]: the pixel buffer has [numPixels * numColors] bytes. *)
Definition WS281x_ok (ws : WS281x.t) : Prop :=
  0 <= WS281x.numPixels ws /\
  0 <= WS281x.numColors ws /\
  len (WS281x.pixels ws) = WS281x.numPixels ws * WS281x.numColors ws /\
  Forall is_byte (WS281x.pixels ws).

(** [NewLPD8806]: [pixels] is the first [numPixels * numColors] bytes of
    [buffer]. *)
Definition LPD8806_ok (la : LPD8806.t) : Prop :=
  0 <= LPD8806.numPixels la /\
  0 <= LPD8806.numColors la /\
  LPD8806.pixelsLen la = LPD8806.numPixels la * LPD8806.numColors la /\
  LPD8806.pixelsLen la <= len (LPD8806.buffer la).

(** The channel offsets are those of colour order [o]. *)
Definition WS281x_order (ws : WS281x.t) (o : ColorOrder) : Prop :=
  offsets o = [WS281x.g ws; WS281x.r ws; WS281x.b ws; WS281x.w ws].

Definition LPD8806_order (la : LPD8806.t) (o : ColorOrder) : Prop :=
  offsets o = [LPD8806.g la; LPD8806.r la; LPD8806.b la; LPD8806.w la].

(** ** The design document's formulas and decoder *)

Module Spec.

Definition ceil_div (a b : Z) : Z := (a + b - 1) / b.

(** "resetBits = ceil(resetMicroseconds x frequency x 3 / 1_000_000)". *)
Definition resetBits (freq : Z) : Z := ceil_div (55 * freq * 3) 1000000.

(** The same quotient, truncated. *)
Definition resetBits_truncated (freq : Z) : Z := (55 * freq * 3) / 1000000.

(** "rounded up to the next multiple of 4 (word-aligned) with one extra
    word of margin": the next multiple of 4 above the byte count, a whole
    word above it when the count is aligned already. *)
Definition word_align (bytes : Z) : Z := bytes - bytes mod 4 + 4.

(** The other reading of the same words: round up, then add a word. *)
Definition word_align_plus (bytes : Z) : Z := ceil_div bytes 4 * 4 + 4.

(** "required PWM bit count = 3 x numColors x numPixels x 8 ... plus a
    trailing reset gap ...  Total bits are converted to bytes, rounded up
    ..., then multiplied by the number of hardware PWM output channels in
    use"; [gap] is the size of the reset gap in PWM bits. *)
Definition byteCount (gap : Z -> Z) (align : Z -> Z)
    (numPixels numColors freq : Z) : Z :=
  let bits := 3 * numColors * numPixels * 8 + gap freq in
  let bytes := bits / 8 in
  align bytes * rpi.RPI_PWM_CHANNELS.

Definition pwmByteCount : Z -> Z -> Z -> Z := byteCount resetBits word_align.

(** No product or sum of [pwmByteCount] exceeds the machine word. *)
Definition no_overflow (sz : WordSize) (numPixels numColors freq : Z) : Prop :=
  24 * numColors * numPixels + 165 * freq < modulus sz.

(** The bits of a 32-bit word, bit 31 first. *)
Definition word_bits (w : Z) : list bool :=
  map (Z.testbit w) (count_down 31 0).

(** Every second word: the words of channel 0 of an interleaved buffer. *)
Fixpoint even_words (words : list Z) : list Z :=
  match words with
  | [] => []
  | [x] => [x]
  | x :: _ :: rest => x :: even_words rest
  end.

(** The words of channel [c] (0 or 1) of the symbol buffer. *)
Definition channel_words (c : nat) (words : list Z) : list Z :=
  even_words (drop c words).

Definition channel_stream (c : nat) (words : list Z) : list bool :=
  flat_map word_bits (channel_words c words).

(** "0b110 high-high-low for a set bit, 0b100 high-low-low for a clear
    bit"; any other group is not a symbol. *)
Definition decode_symbol (b2 b1 b0 : bool) : option bool :=
  match b2, b1, b0 with
  | true, true, false => Some true
  | true, false, false => Some false
  | _, _, _ => None
  end.

(** The first [n] 3-bit groups of a stream, decoded. *)
Fixpoint decode_symbols (n : nat) (stream : list bool) : option (list bool) :=
  match n with
  | O => Some []
  | S n' =>
      match stream with
      | b2 :: b1 :: b0 :: rest =>
          match decode_symbol b2 b1 b0, decode_symbols n' rest with
          | Some d, Some ds => Some (d :: ds)
          | _, _ => None
          end
      | _ => None
      end
  end.

(** Data bits to a byte, most significant first. *)
Definition byte_of_bits (bs : list bool) : Z :=
  fold_left (fun acc b => 2 * acc + Z.b2z b) bs 0.

Fixpoint bytes_of_bits (n : nat) (bs : list bool) : list Z :=
  match n with
  | O => []
  | S n' => byte_of_bits (take 8 bs) :: bytes_of_bits n' (drop 8 bs)
  end.

(** The first [n] bytes carried by a PWM bit stream. *)
Definition decode (n : nat) (stream : list bool) : option (list Z) :=
  match decode_symbols (8 * n) stream with
  | Some ds => Some (bytes_of_bits n ds)
  | None => None
  end.

End Spec.

(** ** The encoding as a bit list

    What [Flush] is shown to write, bit by bit. *)

Definition byte_bits (px : Z) : list bool :=
  map (Z.testbit px) (count_down 7 0).

Definition symbol_bits (d : bool) : list bool := [true; d; false].

Definition byte_symbols (px : Z) : list bool :=
  flat_map symbol_bits (byte_bits px).

Definition encode (pixels : list Z) : list bool :=
  flat_map byte_symbols pixels.

(** Index of the word, and of the bit in that word, of PWM bit [n] of
    channel [c]: the values of [rpPos] and [bitPos] in [Flush]. *)
Definition cursor (c n : Z) : Z * Z := (c + 2 * (n / 32), 31 - n mod 32).

(** A word with bit [p] set to [v], as the two assignments of [Flush] do
    it. *)
Definition set_bit (word p : Z) (v : bool) : Z :=
  let cleared := Z.land word (not32 (u32 (Z.shiftl 1 p))) in
  if v then Z.lor cleared (u32 (Z.shiftl 1 p)) else cleared.

Definition write_bit (words : list Z) (c n : Z) (v : bool) : list Z :=
  let i := Z.to_nat (fst (cursor c n)) in
  <[i := set_bit (words !!! i) (snd (cursor c n)) v]> words.

Fixpoint write_bits (words : list Z) (c n : Z) (bs : list bool) : list Z :=
  match bs with
  | [] => words
  | v :: bs' => write_bits (write_bit words c n v) c (n + 1) bs'
  end.

(** PWM bit [n] of channel [c]. *)
Definition stream_bit (words : list Z) (c n : Z) : bool :=
  Z.testbit (words !!! Z.to_nat (fst (cursor c n))) (snd (cursor c n)).

(** [m] PWM bits of channel [c] fit in a buffer of [L] words. *)
Definition fits (c m L : Z) : Prop := c + 2 * ((m + 31) / 32 - 1) < L.

(** ** Example drivers *)

Definition example_rp : RPi :=
  mkRPi (rpi.mkHw rpi.RPI_HWVER_TYPE_PI2 rpi.PERIPH_BASE_RPI2
           rpi.VIDEOCORE_BASE_RPI2 "Raspberry Pi 3 Model B").

(** The driver [NewWS281x] builds for [np] pixels of model [m] in order
    [o], over a DMA buffer holding [words]. *)
Definition example_ws (np : Z) (m : ColorModel) (o : ColorOrder)
    (words : list Z) : WS281x.t :=
  WS281x.mk words 1 example_rp
    (replicate (Z.to_nat (np * NumColors m)) 0) np (NumColors m)
    (nth 0 (offsets o) 0) (nth 1 (offsets o) 0) (nth 2 (offsets o) 0)
    (nth 3 (offsets o) 0).

(** ** The bulk setters as one family of calls *)

Inductive BulkCall : Type :=
| CallSetRGBs (input : list RGB)
| CallSetRGBWs (input : list RGBW).

(** The channel count a bulk setter is written for. *)
Definition bulk_channels (call : BulkCall) : Z :=
  match call with CallSetRGBs _ => 3 | CallSetRGBWs _ => 4 end.

Definition bulk_len (call : BulkCall) : Z :=
  match call with CallSetRGBs l => len l | CallSetRGBWs l => len l end.

Definition WS281x_bulk (call : BulkCall) : Go WS281x.t unit :=
  match call with
  | CallSetRGBs l => WS281x.SetRGBs l
  | CallSetRGBWs l => WS281x.SetRGBWs l
  end.

Definition LPD8806_bulk (call : BulkCall) : Go LPD8806.t unit :=
  match call with
  | CallSetRGBs l => LPD8806.SetRGBs l
  | CallSetRGBWs l => LPD8806.SetRGBWs l
  end.

(** The caller broke the contract of a bulk setter. *)
Definition contract_violated (numColors numPixels : Z) (call : BulkCall)
  : Prop :=
  numColors <> bulk_channels call \/ bulk_len call <> numPixels.

(** The driver [NewLPD8806] builds: [buffer] holds the pixel bytes and
    [(np + 31) / 32] reset bytes, all zero. *)
Definition example_la (np : Z) (m : ColorModel) (o : ColorOrder)
  : LPD8806.t :=
  LPD8806.mk example_rp (np * NumColors m)
    (replicate (Z.to_nat (np * NumColors m + (np + 31) / 32)) 0)
    (NumColors m) np
    (nth 0 (offsets o) 0) (nth 1 (offsets o) 0) (nth 2 (offsets o) 0)
    (nth 3 (offsets o) 0).

(** The low seven bits of a colour component: what an LPD8806 strip
    stores. *)
Definition low7 (v : Z) : Z := v mod 128.

Definition RGB_low7 (c : RGB) : RGB :=
  mkRGB (low7 (rgb_R c)) (low7 (rgb_G c)) (low7 (rgb_B c)).

Definition RGBW_low7 (c : RGBW) : RGBW :=
  mkRGBW (low7 (rgbw_R c)) (low7 (rgbw_G c)) (low7 (rgbw_B c))
         (low7 (rgbw_W c)).

(** ** Construction: what an initialisation step is *)

(** The three calls of [NewWS281x] that follow the allocation of the DMA
    buffer, with the prefix [NewWS281x] puts before their error. *)
Definition init_step (c : HwCall) (format_prefix : string) : Prop :=
  match c with
  | InitDMA _ => format_prefix = "couldn't init registers: "%string
  | InitGPIO => format_prefix = "couldn't init GPIO: "%string
  | InitPWM _ _ _ _ => format_prefix = "couldn't init PWM: "%string
  | _ => False
  end.

Definition is_FreeDMABuf (c : HwCall) : bool :=
  match c with FreeDMABuf _ => true | _ => false end.

(** What [NewWS281x] did to a buffer it was given, according to the calls
    [post] made after the allocation and to its result [res]. *)
Definition buffer_accounted (env : Hardware) (before : HwLog) (buf : Z)
    (post : list HwCall) (res : Outcome (WS281x.t + error)) : Prop :=
  match res with
  | Returned (inl ws) =>
      (* success: the driver owns the buffer, nothing was released, and
         the three steps that followed the allocation all succeeded *)
      WS281x.pixDMA ws = buf /\ filter is_FreeDMABuf post = [] /\
      exists c1 c2 c3,
        post = [c1; c2; c3] /\
        hw_error env before c1 = None /\
        hw_error env (before ++ [c1]) c2 = None /\
        hw_error env (before ++ [c1; c2]) c3 = None
  | Returned (inr err) =>
      (* failure: the last two calls are the failed step and the release *)
      exists inits failing format_prefix e,
        post = inits ++ [failing; FreeDMABuf buf] /\
        filter is_FreeDMABuf inits = [] /\
        init_step failing format_prefix /\
        hw_error env (before ++ inits) failing = Some e /\
        err = Errorf_v format_prefix e
  | Panicked _ => False
  end.

(** An environment in which the calls selected by [failing] return an
    error and every other call succeeds. *)
Definition example_env (failing : HwCall -> bool) : Hardware :=
  mkHardware
    (fun _ c => if failing c then Some (ExternalError "EIO") else None)
    (fun _ => "Raspberry Pi 3 Model B Rev 1.2"%string)
    (fun _ bytes => mkDMABuf 1 (replicate (Z.to_nat (bytes / 4)) 0)).

Definition example_config : WS281x.Config :=
  WS281x.mkConfig 10 GRBOrder RGBModel 800000 10 [18].

(** [InitGPIO] and the release of the DMA buffer both fail. *)
Definition gpio_and_free_fail (c : HwCall) : bool :=
  match c with InitGPIO | FreeDMABuf _ => true | _ => false end.

(** ** What a piece of [Flush] writes

    [m], started at PWM bit [n] of channel [c] of a symbol buffer of [L]
    words, writes the bits [bs] from [n] on and ends at the position
    after them; it panics if they do not fit. *)
Definition emits (c L : Z) (ws0 : WS281x.t)
    (m : Z * Z -> Go WS281x.t (Z * Z)) (bs : list bool) : Prop :=
  forall words n,
    len words = L -> 0 <= n -> fits c n L ->
    (fits c (n + len bs) L ->
     m (cursor c n) (WS281x.set_pixDMAUint ws0 words) =
     (WS281x.set_pixDMAUint ws0 (write_bits words c n bs),
      Returned (cursor c (n + len bs)))) /\
    (~ fits c (n + len bs) L ->
     exists s p,
       m (cursor c n) (WS281x.set_pixDMAUint ws0 words) = (s, Panicked p)).

(** The symbol buffer after a [Flush] that went through. *)
Definition flushed (ws : WS281x.t) : list Z :=
  write_bits (write_bits (WS281x.pixDMAUint ws) 0 0 (encode (WS281x.pixels ws)))
             1 0 (encode (WS281x.pixels ws)).

(** Only the wait for the end of the previous DMA transfer fails. *)
Definition wait_fails (c : HwCall) : bool :=
  match c with WaitForDMAEnd => true | _ => false end.

(** Nothing fails. *)
Definition all_succeed (c : HwCall) : bool := false.

(** A two-pixel RGB driver with six different bytes in its pixel buffer
    and a symbol buffer of ten words, all bits set. *)
Definition example_flush_ws : WS281x.t :=
  WS281x.set_pixels
    (example_ws 2 RGBModel GRBOrder (replicate 10 0xFFFFFFFF))
    [0x00; 0xFF; 0x80; 0x01; 0xAA; 0x55].

(** The scenario of the design document, run in an environment where
    every hardware call succeeds and the DMA buffer comes zeroed. *)
Definition scenario_log : HwLog :=
  [ReadModelFile; MboxOpen; GetDMABuf 216; InitDMA 10; InitGPIO;
   InitPWM 800000 1 216 [18]].

Definition scenario_ws : WS281x.t :=
  example_ws 10 RGBModel GRBOrder (replicate 54 0).

Definition scenario_ws_set : WS281x.t :=
  WS281x.set_pixels scenario_ws ([0; 255; 0] ++ replicate 27 0).

Definition scenario_flushed : WS281x.t * HwLog :=
  (WS281x.set_pixDMAUint scenario_ws_set (flushed scenario_ws_set),
   scenario_log ++ [WaitForDMAEnd; StartDMA 1 (flushed scenario_ws_set)]).

(** ** ledctl.go: the remaining helpers *)

(** Signed addition and negation of the machine [int]. *)
Definition iadd (sz : WordSize) (a b : Z) : Z := to_int sz (a + b).
Definition ineg (sz : WordSize) (a : Z) : Z := to_int sz (- a).

Definition min_int (sz : WordSize) : Z := - (modulus sz / 2).
Definition max_int (sz : WordSize) : Z := modulus sz / 2 - 1.

(** [abs]. *)
Definition abs (sz : WordSize) (i : Z) : Z :=
  if i <? 0 then ineg sz i else i.

(** The map [StringToOrder], entry by entry. *)
Definition StringToOrder : list (string * ColorOrder) :=
  [ ("GRB", GRBOrder); ("BRG", BRGOrder); ("BGR", BGROrder);
    ("GBR", GBROrder); ("RGB", RGBOrder); ("RBG", RBGOrder);
    ("GRBW", GRBWOrder) ]%string.

(** [v, ok := m[key]] on a map given by its entries. *)
Fixpoint map_lookup {V} (m : list (string * V)) (key : string) : option V :=
  match m with
  | [] => None
  | (k, v) :: rest => if String.eqb k key then Some v else map_lookup rest key
  end.

(** [RGBW.ToUint32]: [uint32(p.R)<<24 | uint32(p.G)<<16 | uint32(p.B)<<8 |
    uint32(p.W)]. *)
Definition RGBW_ToUint32 (p : RGBW) : Z :=
  Z.lor (Z.lor (Z.lor (u32 (Z.shiftl (rgbw_R p) 24))
                      (u32 (Z.shiftl (rgbw_G p) 16)))
               (u32 (Z.shiftl (rgbw_B p) 8)))
        (rgbw_W p).

(** [RGB.ToUint32]. *)
Definition RGB_ToUint32 (p : RGB) : Z :=
  Z.lor (Z.lor (u32 (Z.shiftl (rgb_R p) 16))
               (u32 (Z.shiftl (rgb_G p) 8)))
        (rgb_B p).

(** One hexadecimal digit in lower case, as the verb [%x] prints it. *)
Definition hex_digit (n : Z) : ascii :=
  match n with
  | 0 => "0" | 1 => "1" | 2 => "2" | 3 => "3" | 4 => "4" | 5 => "5"
  | 6 => "6" | 7 => "7" | 8 => "8" | 9 => "9" | 10 => "a" | 11 => "b"
  | 12 => "c" | 13 => "d" | 14 => "e" | _ => "f"
  end%char.

(** [%02x] applied to a [uint8]. *)
Definition hex2 (v : Z) : string :=
  String (hex_digit (v / 16)) (String (hex_digit (v mod 16)) EmptyString).

(** [RGBW.String]: [fmt.Sprintf("#%02x%02x%02x%02x", ...)]. *)
Definition RGBW_String (p : RGBW) : string :=
  ("#" ++ hex2 (rgbw_R p) ++ hex2 (rgbw_G p) ++ hex2 (rgbw_B p)
       ++ hex2 (rgbw_W p))%string.

(** [RGB.String]. *)
Definition RGB_String (p : RGB) : string :=
  ("#" ++ hex2 (rgb_R p) ++ hex2 (rgb_G p) ++ hex2 (rgb_B p))%string.

(** ** led_lpd8806.go: construction and output

    The SPI device ([Device]: [Write] and [Fd]) and [rpi.SetSPISpeed] are
    outside of the sources at hand; as for the DMA path, the calls are
    logged and answered by an environment.  The calls [NewRPi] makes are
    logged among them. *)

Inductive SpiCall : Type :=
| RPiCall (c : HwCall)
| SetSPISpeed (fd : Z) (speed : Z)
| DeviceWrite (data : list Z).

Definition SpiLog : Type := list SpiCall.

Record SpiHardware : Type := mkSpiHardware {
  spi_error : SpiLog -> SpiCall -> option error;
  spi_model : SpiLog -> string;
  (** what [Device.Fd] returns *)
  spi_fd : Z
}.

Definition spicall (env : SpiHardware) (c : SpiCall)
  : Go SpiLog (option error) :=
  fun log => (log ++ [c], Returned (spi_error env log c)).

(** The environment [NewRPi] sees when it starts after the calls [log];
    no DMA buffer is ever handed out on this path. *)
Definition rpi_view (env : SpiHardware) (log : SpiLog) : Hardware :=
  mkHardware
    (fun l c => spi_error env (log ++ map RPiCall l) (RPiCall c))
    (fun l => spi_model env (log ++ map RPiCall l))
    (fun _ _ => mkDMABuf 0 []).

Definition on_rpi {A} (env : SpiHardware) (m : Hardware -> Go HwLog A)
  : Go SpiLog A :=
  fun log => match m (rpi_view env log) [] with
             | (l, o) => (log ++ map RPiCall l, o)
             end.

(** The slice expression [s[:n]]: its length, or the panic of the bounds
    check. *)
Definition slice_to {S A} (s : list A) (n : Z) : Go S Z :=
  if (0 <=? n) && (n <=? len s) then ret n
  else panic (IndexOutOfRange n (len s)).

Record LPD8806Config : Type := mkLPD8806Config {
  lpd_NumPixels : Z;
  lpd_SPISpeed : Z;
  lpd_ColorOrder : ColorOrder;
  lpd_ColorModel : ColorModel
}.

Definition NewLPD8806 (env : SpiHardware) (sz : WordSize)
    (config : LPD8806Config) : Go SpiLog (LPD8806.t + error) :=
  let np := lpd_NumPixels config in
  let nc := NumColors (lpd_ColorModel config) in
  let numReset := Z.quot (iadd sz np 31) 32 in
  let* val := make 0 (iadd sz (imul sz np nc) numReset) in
  let offsets := offsets (lpd_ColorOrder config) in
  let* rp := on_rpi env NewRPi in
  match rp with
  | inr err => ret (inr (Errorf_v "couldn't make RPi: " err))
  | inl rp =>
      let* plen := slice_to val (imul sz np nc) in
      let* og := index_get offsets 0 in
      let* or := index_get offsets 1 in
      let* ob := index_get offsets 2 in
      let* ow := index_get offsets 3 in
      let la := LPD8806.mk rp plen val nc np og or ob ow in
      let* serr :=
        (if negb (lpd_SPISpeed config =? 0)
         then spicall env (SetSPISpeed (spi_fd env) (lpd_SPISpeed config))
         else ret None) in
      match serr with
      | Some err => ret (inr (Errorf_v "couldn't set SPI speed: " err))
      | None =>
          let* firstReset := make 0 numReset in
          let* werr := spicall env (DeviceWrite firstReset) in
          match werr with
          | Some err => ret (inr (Errorf_v "couldn't reset: " err))
          | None => ret (inl la)
          end
      end
  end.

(** [LPD8806.Close]. *)
Definition LPD8806_Close : Go (LPD8806.t * SpiLog) (option error) :=
  ret None.

(** [LPD8806.Flush]: the whole buffer, pixel bytes and reset bytes, in one
    [Write]. *)
Definition LPD8806_Flush (env : SpiHardware)
  : Go (LPD8806.t * SpiLog) (option error) :=
  let* st := get in
  on_snd (spicall env (DeviceWrite (LPD8806.buffer (fst st)))).

(** The example driver after its [Flush]. *)
Definition example_flush_ws_flushed : WS281x.t :=
  WS281x.set_pixDMAUint example_flush_ws (flushed example_flush_ws).

(** The pixel buffer after the three stores of one pixel at byte [base],
    with the channel offsets [r], [g], [b]. *)
Definition store_RGB (r g b : Z) (px : list Z) (base : Z) (c : RGB) : list Z :=
  <[Z.to_nat (base + b) := rgb_B c]>
    (<[Z.to_nat (base + g) := rgb_G c]>
       (<[Z.to_nat (base + r) := rgb_R c]> px)).

(** Any call but the request of a DMA buffer. *)
Definition not_GetDMABuf (c : HwCall) : Prop :=
  match c with GetDMABuf _ => False | _ => True end.

(** ** What the LPD8806 setters keep *)

(** [la'] differs from [la] in its buffer only; the buffer has kept its
    length and the bytes behind the [pixels] view, and every byte that
    changed has bit 7 set. *)
Definition LPD8806_kept (la la' : LPD8806.t) : Prop :=
  LPD8806.set_buffer la' (LPD8806.buffer la) = la /\
  length (LPD8806.buffer la') = length (LPD8806.buffer la) /\
  drop (Z.to_nat (LPD8806.pixelsLen la)) (LPD8806.buffer la') =
  drop (Z.to_nat (LPD8806.pixelsLen la)) (LPD8806.buffer la) /\
  forall j v, LPD8806.buffer la' !! j = Some v ->
    LPD8806.buffer la !! j = Some v \/ Z.testbit v 7 = true.

(** A call of one of the four setters. *)
Inductive PixelWrite : Type :=
| WriteRGBAt (i : Z) (c : RGB)
| WriteRGBWAt (i : Z) (c : RGBW)
| WriteRGBs (pixels : list RGB)
| WriteRGBWs (pixels : list RGBW).

Definition LPD8806_write (op : PixelWrite) : Go LPD8806.t unit :=
  match op with
  | WriteRGBAt i c => LPD8806.SetRGBAt i c
  | WriteRGBWAt i c => LPD8806.SetRGBWAt i c
  | WriteRGBs l => LPD8806.SetRGBs l
  | WriteRGBWs l => LPD8806.SetRGBWs l
  end.

(** The driver after a sequence of setter calls made by a caller that
    recovers from their panics: a call that panics leaves the stores it
    made before. *)
Definition LPD8806_writes (ops : list PixelWrite) (la : LPD8806.t)
  : LPD8806.t :=
  fold_left (fun la op => fst (LPD8806_write op la)) ops la.

(** A configuration whose buffer size is computed without overflow. *)
Definition LPD8806_no_overflow (sz : WordSize) (config : LPD8806Config)
  : Prop :=
  0 <= lpd_NumPixels config /\
  lpd_NumPixels config * NumColors (lpd_ColorModel config)
    + (lpd_NumPixels config + 31) / 32 <= max_int sz.

(** An SPI environment in which every call succeeds, on a Pi 3. *)
Definition example_spi_env : SpiHardware :=
  mkSpiHardware (fun _ _ => None)
                (fun _ => "Raspberry Pi 3 Model B Rev 1.2"%string) 3.

Definition example_lpd_config : LPD8806Config :=
  mkLPD8806Config 40 12000000 GRBOrder RGBModel.

(** What [NewLPD8806] returns for the example configuration. *)
Definition example_lpd : LPD8806.t :=
  LPD8806.mk
    (mkRPi (rpi.mkHw rpi.RPI_HWVER_TYPE_PI2 rpi.PERIPH_BASE_RPI2
              rpi.VIDEOCORE_BASE_RPI2 "Raspberry Pi 3 Model B"))
    120 (replicate 122 0) 3 40 0 1 2 (-1).

Definition example_lpd_log : SpiLog :=
  [RPiCall ReadModelFile; RPiCall MboxOpen; SetSPISpeed 3 12000000;
   DeviceWrite [0; 0]].

(** A colour as the LPD8806 setters store it: bit 7 set in every byte. *)
Definition RGB_stored (c : RGB) : RGB :=
  mkRGB (Z.lor 0x80 (rgb_R c)) (Z.lor 0x80 (rgb_G c)) (Z.lor 0x80 (rgb_B c)).

(** ** What the WS281x setters keep *)

(** [ws'] differs from [ws] in its pixel buffer only; the buffer has kept
    its length, and holds bytes if it did. *)
Definition WS281x_kept (ws ws' : WS281x.t) : Prop :=
  ws' = WS281x.set_pixels ws (WS281x.pixels ws') /\
  len (WS281x.pixels ws') = len (WS281x.pixels ws) /\
  (Forall is_byte (WS281x.pixels ws) -> Forall is_byte (WS281x.pixels ws')).

(** [m] keeps the driver in that sense, whether it returns or panics,
    and what it returns satisfies [Q]. *)
Definition WS281x_keeps {A} (m : Go WS281x.t A) (Q : A -> Prop) : Prop :=
  forall s, WS281x_kept s (fst (m s)) /\
            forall a, snd (m s) = Returned a -> Q a.

Definition WS281x_write (op : PixelWrite) : Go WS281x.t unit :=
  match op with
  | WriteRGBAt i c => WS281x.SetRGBAt i c
  | WriteRGBWAt i c => WS281x.SetRGBWAt i c
  | WriteRGBs l => WS281x.SetRGBs l
  | WriteRGBWs l => WS281x.SetRGBWs l
  end.


(** The colours handed to a setter are made of [uint8]s. *)
Definition PixelWrite_ok (op : PixelWrite) : Prop :=
  match op with
  | WriteRGBAt _ c => RGB_ok c
  | WriteRGBWAt _ c => RGBW_ok c
  | WriteRGBs l => Forall RGB_ok l
  | WriteRGBWs l => Forall RGBW_ok l
  end.


(** * Properties *)

(** Closed arithmetic facts are settled by evaluation. *)
Ltac evaluate :=
  vm_compute; first [reflexivity | discriminate | intuition discriminate].

(** ** Machine integers *)

Lemma modulus_pos sz : 0 < modulus sz.
Proof. destruct sz; reflexivity. Qed.

Lemma modulus_ge sz : 2 ^ 32 <= modulus sz.
Proof. destruct sz; unfold modulus; simpl bits; lia. Qed.

Lemma to_uint_small sz x : 0 <= x < modulus sz -> to_uint sz x = x.
Proof. intros H. unfold to_uint. apply Z.mod_small. exact H. Qed.

(** [uint(int(x))] is [x] reduced modulo the word. *)
Lemma to_uint_to_int sz x : to_uint sz (to_int sz x) = to_uint sz x.
Proof.
  unfold to_uint, to_int.
  assert (Hm : modulus sz = 2 * (modulus sz / 2)) by (destruct sz; reflexivity).
  pose proof (modulus_pos sz) as Hp.
  pose proof (Z.div_mod (x + modulus sz / 2) (modulus sz) ltac:(lia)) as Hd.
  set (q := (x + modulus sz / 2) / modulus sz) in *.
  replace ((x + modulus sz / 2) mod modulus sz - modulus sz / 2)
    with (x + (- q) * modulus sz) by lia.
  apply Z.mod_add. lia.
Qed.

(** A signed product that is converted to [uint] afterwards may be
    computed on the integers. *)
Lemma to_uint_imul_l sz a b :
  to_uint sz (imul sz (imul sz a b) 8) = to_uint sz (a * b * 8).
Proof.
  unfold imul. rewrite to_uint_to_int. unfold to_uint.
  pose proof (modulus_pos sz).
  rewrite Z.mul_mod by lia.
  fold (to_uint sz (to_int sz (a * b))). rewrite to_uint_to_int.
  unfold to_uint. rewrite <- Z.mul_mod by lia. reflexivity.
Qed.

Lemma to_uint_data_bits sz nc np :
  to_uint sz (imul sz (imul sz (imul sz 3 nc) np) 8) =
  to_uint sz (3 * nc * np * 8).
Proof.
  rewrite to_uint_imul_l. unfold imul, to_uint.
  pose proof (modulus_pos sz).
  rewrite (Z.mul_mod (_ * np)) by lia.
  rewrite (Z.mul_mod (to_int _ _)) by lia.
  fold (to_uint sz (to_int sz (3 * nc))). rewrite to_uint_to_int.
  unfold to_uint.
  rewrite <- (Z.mul_mod (3 * nc)) by lia.
  rewrite <- Z.mul_mod by lia. reflexivity.
Qed.

(** ** Buffer sizing *)

(** The machine computation without overflow is the integer formula with
    a truncated reset gap. *)
Lemma pwmByteCount_no_overflow sz ws freq :
  0 <= WS281x.numPixels ws -> 0 <= WS281x.numColors ws -> 0 <= freq ->
  Spec.no_overflow sz (WS281x.numPixels ws) (WS281x.numColors ws) freq ->
  WS281x.pwmByteCount sz ws freq =
  Spec.byteCount Spec.resetBits_truncated Spec.word_align
    (WS281x.numPixels ws) (WS281x.numColors ws) freq.
Proof.
  intros Hp Hc Hf Hov. unfold Spec.no_overflow in Hov.
  unfold WS281x.pwmByteCount, Spec.byteCount, Spec.resetBits_truncated,
    Spec.word_align, WS281x.ledReset_us, rpi.RPI_PWM_CHANNELS.
  set (np := WS281x.numPixels ws) in *. set (nc := WS281x.numColors ws) in *.
  pose proof (modulus_ge sz) as HM.
  assert (Hd : 0 <= nc * np) by nia.
  rewrite to_uint_data_bits.
  unfold uadd, usub, umul.
  rewrite (to_uint_small sz (freq * 3)) by lia.
  rewrite (to_uint_small sz (55 * _)) by lia.
  replace (55 * (freq * 3)) with (55 * freq * 3) by lia.
  assert (Hg : 0 <= 55 * freq * 3 / 1000000 <= 165 * freq).
  { split; [apply Z.div_pos; lia|].
    apply Z.div_le_upper_bound; lia. }
  assert (Hdb : 0 <= 3 * nc * np * 8 /\
                3 * nc * np * 8 + 165 * freq < modulus sz).
  { replace (3 * nc * np * 8) with (24 * nc * np) by ring. nia. }
  rewrite (to_uint_small sz (3 * nc * np * 8)) by lia.
  set (bits := 3 * nc * np * 8 + 55 * freq * 3 / 1000000) in *.
  assert (Hb : 0 <= bits < modulus sz) by (unfold bits; lia).
  rewrite (to_uint_small sz bits) by lia.
  assert (Hby : 0 <= bits / 8 <= bits).
  { split; [apply Z.div_pos; lia|]. apply Z.div_le_upper_bound; lia. }
  pose proof (Z.mod_pos_bound (bits / 8) 4 ltac:(lia)) as Hm4.
  pose proof (Z.mod_le (bits / 8) 4 ltac:(lia) ltac:(lia)) as Hm4'.
  assert (Hby8 : 8 * (bits / 8) <= bits) by (apply Z.mul_div_le; lia).
  rewrite (to_uint_small sz (_ - _)) by lia.
  rewrite (to_uint_small sz (_ + 4)) by lia.
  rewrite (to_uint_small sz (_ * 2)) by lia.
  reflexivity.
Qed.

(** Closed form of the machine computation. *)
Lemma pwmByteCount_closed_form sz ws freq :
  0 <= WS281x.numPixels ws -> 0 <= WS281x.numColors ws -> 0 <= freq ->
  Spec.no_overflow sz (WS281x.numPixels ws) (WS281x.numColors ws) freq ->
  WS281x.pwmByteCount sz ws freq =
    8 * ((3 * WS281x.numColors ws * WS281x.numPixels ws * 8
          + 55 * freq * 3 / 1000000) / 32 + 1).
Proof.
  intros Hp Hc Hf Hov.
  rewrite (pwmByteCount_no_overflow sz ws freq Hp Hc Hf Hov).
  unfold Spec.byteCount, Spec.resetBits_truncated, Spec.word_align,
    rpi.RPI_PWM_CHANNELS.
  set (bits := 3 * WS281x.numColors ws * WS281x.numPixels ws * 8
               + 55 * freq * 3 / 1000000).
  clearbody bits. cbv zeta.
  pose proof (Z.div_mod bits 8 ltac:(lia)) as H8.
  pose proof (Z.mod_pos_bound bits 8 ltac:(lia)) as H8'.
  pose proof (Z.div_mod (bits / 8) 4 ltac:(lia)) as H4.
  pose proof (Z.mod_pos_bound (bits / 8) 4 ltac:(lia)) as H4'.
  pose proof (Z.div_mod bits 32 ltac:(lia)) as H32.
  pose proof (Z.mod_pos_bound bits 32 ltac:(lia)) as H32'.
  lia.
Qed.

(** C3 (as amended): when no intermediate value overflows the machine
    word, [pwmByteCount] is the byte count of the design document with the
    reset gap truncated to whole PWM bits,
    [3 x numColors x numPixels x 8 + floor(55 x freq x 3 / 1000000)] bits,
    converted to bytes, aligned to the next multiple of 4 above and
    multiplied by the number of PWM channels; in closed form
    [8 x (bits / 32 + 1)]. *)
Theorem pwmByteCount_sizing sz ws freq :
  0 <= WS281x.numPixels ws -> 0 <= WS281x.numColors ws -> 0 <= freq ->
  Spec.no_overflow sz (WS281x.numPixels ws) (WS281x.numColors ws) freq ->
  WS281x.pwmByteCount sz ws freq =
    Spec.byteCount Spec.resetBits_truncated Spec.word_align
      (WS281x.numPixels ws) (WS281x.numColors ws) freq /\
  WS281x.pwmByteCount sz ws freq =
    8 * ((3 * WS281x.numColors ws * WS281x.numPixels ws * 8
          + 55 * freq * 3 / 1000000) / 32 + 1).
Proof.
  intros Hp Hc Hf Hov. split.
  - apply pwmByteCount_no_overflow; assumption.
  - apply pwmByteCount_closed_form; assumption.
Qed.

Lemma pwmByteCount_sizing_witness :
  WS281x.pwmByteCount W32 (example_ws 10 RGBModel GRBOrder []) 800000 = 216.
Proof.
  destruct (pwmByteCount_sizing W32 (example_ws 10 RGBModel GRBOrder [])
              800000) as [_ H].
  - evaluate.
  - evaluate.
  - evaluate.
  - evaluate.
  - rewrite H. reflexivity.
Defined.

(** The reset gap is not rounded up: at 918182 Hz one pixel of three
    colours gets 56 bytes where the formula with [ceil] gives 64 (under
    both readings of the alignment sentence). *)
Lemma pwmByteCount_ceil_counterexample :
  WS281x.pwmByteCount W32 (example_ws 1 RGBModel GRBOrder []) 918182
    <> Spec.pwmByteCount 1 3 918182 /\
  WS281x.pwmByteCount W64 (example_ws 1 RGBModel GRBOrder []) 918182
    <> Spec.pwmByteCount 1 3 918182 /\
  Spec.byteCount Spec.resetBits Spec.word_align_plus 1 3 918182
    = Spec.pwmByteCount 1 3 918182.
Proof. repeat split; vm_compute; congruence. Qed.

(** C10 (as amended): among configurations whose bit count does not
    overflow the machine word, [pwmByteCount] is non-decreasing in
    [numPixels], [numColors] and [freq]. *)
Theorem pwmByteCount_monotone sz ws ws' freq freq' :
  0 <= WS281x.numPixels ws <= WS281x.numPixels ws' ->
  0 <= WS281x.numColors ws <= WS281x.numColors ws' ->
  0 <= freq <= freq' ->
  Spec.no_overflow sz (WS281x.numPixels ws') (WS281x.numColors ws') freq' ->
  WS281x.pwmByteCount sz ws freq <= WS281x.pwmByteCount sz ws' freq'.
Proof.
  intros Hp Hc Hf Hov.
  assert (Hmono : 3 * WS281x.numColors ws * WS281x.numPixels ws * 8 <=
                  3 * WS281x.numColors ws' * WS281x.numPixels ws' * 8) by nia.
  assert (Hov0 : Spec.no_overflow sz (WS281x.numPixels ws)
                   (WS281x.numColors ws) freq).
  { unfold Spec.no_overflow in *. nia. }
  rewrite (pwmByteCount_closed_form sz ws freq) by (lia || assumption).
  rewrite (pwmByteCount_closed_form sz ws' freq') by (lia || assumption).
  apply Z.mul_le_mono_nonneg_l; [lia|].
  apply Z.add_le_mono_r, Z.div_le_mono; [lia|].
  apply Z.add_le_mono; [exact Hmono|].
  apply Z.div_le_mono; lia.
Qed.

Lemma pwmByteCount_monotone_witness :
  WS281x.pwmByteCount W32 (example_ws 10 RGBModel GRBOrder []) 400000 <=
  WS281x.pwmByteCount W32 (example_ws 60 RGBWModel GRBWOrder []) 800000.
Proof.
  apply pwmByteCount_monotone; evaluate.
Defined.

(** Past the machine word the count falls back: on a 32-bit [uint] from
    1096 bytes at 26030104 Hz to 24 bytes at 26030105 Hz, on a 64-bit one
    at 111798448931573041 Hz. *)
Lemma pwmByteCount_overflow_counterexample :
  WS281x.pwmByteCount W32 (example_ws 1 RGBModel GRBOrder []) 26030105 <
  WS281x.pwmByteCount W32 (example_ws 1 RGBModel GRBOrder []) 26030104 /\
  WS281x.pwmByteCount W64 (example_ws 1 RGBModel GRBOrder [])
    111798448931573041 <
  WS281x.pwmByteCount W64 (example_ws 1 RGBModel GRBOrder [])
    111798448931573040.
Proof. split; vm_compute; reflexivity. Qed.

(** ** Bulk setters: contract violations *)

(** C5: a bulk setter called with a slice of the wrong length, or on a
    driver of the wrong channel count, panics with its explicit message
    (no error is returned) before it writes anything: the driver, and so
    every byte of its pixel buffer, is as before the call. *)
Theorem bulk_setter_contract_violation (ws : WS281x.t) (call : BulkCall) :
  contract_violated (WS281x.numColors ws) (WS281x.numPixels ws) call ->
  exists msg, WS281x_bulk call ws = (ws, Panicked (PanicString msg)).
Proof.
  intros Hv. destruct call as [input|input]; simpl in *;
    unfold contract_violated in Hv; simpl in Hv;
    unfold WS281x.SetRGBs, WS281x.SetRGBWs, bind, get, panic.
  - destruct (Z.eqb_spec (WS281x.numColors ws) 3) as [Hc|Hc]; simpl;
      [|eexists; reflexivity].
    destruct (Z.eqb_spec (len input) (WS281x.numPixels ws)) as [Hl|Hl]; simpl;
      [|eexists; reflexivity].
    exfalso. destruct Hv; congruence.
  - destruct (Z.eqb_spec (WS281x.numColors ws) 4) as [Hc|Hc]; simpl;
      [|eexists; reflexivity].
    destruct (Z.eqb_spec (len input) (WS281x.numPixels ws)) as [Hl|Hl]; simpl;
      [|eexists; reflexivity].
    exfalso. destruct Hv; congruence.
Qed.

Lemma bulk_setter_contract_violation_witness :
  exists msg,
    WS281x.SetRGBs [mkRGB 1 2 3]
      (example_ws 2 RGBModel GRBOrder []) =
    (example_ws 2 RGBModel GRBOrder [], Panicked (PanicString msg)).
Proof.
  apply (bulk_setter_contract_violation
           (example_ws 2 RGBModel GRBOrder []) (CallSetRGBs [mkRGB 1 2 3])).
  right. evaluate.
Defined.

(** The LPD8806 driver guards its bulk setters the same way. *)
Lemma LPD8806_bulk_setter_contract_violation (la : LPD8806.t) call :
  contract_violated (LPD8806.numColors la) (LPD8806.numPixels la) call ->
  exists msg, LPD8806_bulk call la = (la, Panicked (PanicString msg)).
Proof.
  intros Hv. destruct call as [input|input]; simpl in *;
    unfold contract_violated in Hv; simpl in Hv;
    unfold LPD8806.SetRGBs, LPD8806.SetRGBWs, bind, get, panic.
  - destruct (Z.eqb_spec (LPD8806.numColors la) 3) as [Hc|Hc]; simpl;
      [|eexists; reflexivity].
    destruct (Z.eqb_spec (len input) (LPD8806.numPixels la)) as [Hl|Hl]; simpl;
      [|eexists; reflexivity].
    exfalso. destruct Hv; congruence.
  - destruct (Z.eqb_spec (LPD8806.numColors la) 4) as [Hc|Hc]; simpl;
      [|eexists; reflexivity].
    destruct (Z.eqb_spec (len input) (LPD8806.numPixels la)) as [Hl|Hl]; simpl;
      [|eexists; reflexivity].
    exfalso. destruct Hv; congruence.
Qed.

(** ** Bulk RGBW setter *)

(** C4 fails on the code: in [SetRGBWs] the loop variable [i], which
    steps through the pixel buffer four bytes at a time, indexes the input
    slice, and the pixel counter [a] indexes the pixel buffer.  On a
    two-pixel RGBW strip the first pixel is stored, then [pixels[4]] is
    read from an input of length 2: the call panics and the second pixel
    is never written. *)
Theorem SetRGBWs_two_pixels_out_of_range :
  WS281x.SetRGBWs [mkRGBW 1 2 3 4; mkRGBW 5 6 7 8]
    (example_ws 2 RGBWModel GRBWOrder []) =
  (WS281x.set_pixels (example_ws 2 RGBWModel GRBWOrder [])
     [2; 1; 3; 4; 0; 0; 0; 0],
   Panicked (IndexOutOfRange 4 2)).
Proof. vm_compute. reflexivity. Qed.

(** With five pixels the second iteration reads [pixels[4]] and stores it
    over bytes 1 to 4, that is over the first pixel and into the second;
    the third iteration reads out of range. *)
Lemma SetRGBWs_five_pixels_overwrites :
  WS281x.SetRGBWs
    [mkRGBW 1 2 3 4; mkRGBW 5 6 7 8; mkRGBW 9 10 11 12;
     mkRGBW 13 14 15 16; mkRGBW 17 18 19 20]
    (example_ws 5 RGBWModel GRBWOrder []) =
  (WS281x.set_pixels (example_ws 5 RGBWModel GRBWOrder [])
     ([2; 18; 17; 19; 20] ++ replicate 15 0),
   Panicked (IndexOutOfRange 8 5)).
Proof. vm_compute. reflexivity. Qed.

(** The LPD8806 driver has the same loop. *)
Lemma LPD8806_SetRGBWs_two_pixels_out_of_range :
  LPD8806.SetRGBWs [mkRGBW 1 2 3 4; mkRGBW 5 6 7 8]
    (example_la 2 RGBWModel GRBWOrder) =
  (LPD8806.set_buffer (example_la 2 RGBWModel GRBWOrder)
     [130; 129; 131; 132; 0; 0; 0; 0; 0],
   Panicked (IndexOutOfRange 4 2)).
Proof. vm_compute. reflexivity. Qed.

(** The sibling [SetRGBs] indexes the input with [a] and the buffer with
    [i], and stores every pixel. *)
Lemma SetRGBs_two_pixels :
  WS281x.SetRGBs [mkRGB 1 2 3; mkRGB 5 6 7]
    (example_ws 2 RGBModel GRBOrder []) =
  (WS281x.set_pixels (example_ws 2 RGBModel GRBOrder [])
     [2; 1; 3; 6; 5; 7],
   Returned tt).
Proof. vm_compute. reflexivity. Qed.

(** On a single pixel the two indices coincide and [SetRGBWs] works. *)
Lemma SetRGBWs_one_pixel :
  WS281x.SetRGBWs [mkRGBW 1 2 3 4] (example_ws 1 RGBWModel GRBWOrder []) =
  (WS281x.set_pixels (example_ws 1 RGBWModel GRBWOrder []) [2; 1; 3; 4],
   Returned tt).
Proof. vm_compute. reflexivity. Qed.

(** ** Index expressions *)

Lemma index_get_ok {S A} (l : list A) (i : Z) (v : A) (s : S) :
  0 <= i -> l !! Z.to_nat i = Some v ->
  index_get l i s = (s, Returned v).
Proof.
  intros Hi Hl. unfold index_get.
  apply lookup_lt_Some in Hl as Hlt.
  replace ((0 <=? i) && (i <? len l)) with true.
  - rewrite Hl. reflexivity.
  - symmetry. apply andb_true_iff. unfold len. split; lia.
Qed.

Lemma index_set_ok {A} (l : list A) (i : Z) (v : A) :
  0 <= i < len l ->
  index_set l i v = Returned (<[Z.to_nat i := v]> l).
Proof.
  intros Hi. unfold index_set.
  replace ((0 <=? i) && (i <? len l)) with true; [reflexivity|].
  symmetry. apply andb_true_iff. split; lia.
Qed.

Lemma len_insert {A} (l : list A) (i : nat) (v : A) :
  len (<[i := v]> l) = len l.
Proof. unfold len. rewrite length_insert. reflexivity. Qed.

(** Reading slot [j] after a store to slot [i]. *)
Lemma lookup_insert_Z {A} (l : list A) (i j : Z) (v : A) :
  0 <= i < len l -> 0 <= j ->
  <[Z.to_nat i := v]> l !! Z.to_nat j =
  if i =? j then Some v else l !! Z.to_nat j.
Proof.
  intros Hi Hj. unfold len in Hi. destruct (Z.eqb_spec i j) as [->|Hne].
  - apply list_lookup_insert_eq. lia.
  - apply list_lookup_insert_ne. lia.
Qed.

Lemma WS281x_pixels_store_ok ws i v :
  0 <= i < len (WS281x.pixels ws) ->
  WS281x.pixels_store i v ws =
  (WS281x.set_pixels ws (<[Z.to_nat i := v]> (WS281x.pixels ws)), Returned tt).
Proof.
  intros Hi. unfold WS281x.pixels_store. rewrite index_set_ok by exact Hi.
  reflexivity.
Qed.

Lemma WS281x_pixels_load_ok ws i v :
  0 <= i -> WS281x.pixels ws !! Z.to_nat i = Some v ->
  WS281x.pixels_load i ws = (ws, Returned v).
Proof. intros. unfold WS281x.pixels_load. apply index_get_ok; assumption. Qed.

Lemma LPD8806_len_pixels la :
  0 <= LPD8806.pixelsLen la <= len (LPD8806.buffer la) ->
  len (LPD8806.pixels la) = LPD8806.pixelsLen la.
Proof.
  intros H. unfold LPD8806.pixels, len in *. rewrite length_take. lia.
Qed.

Lemma LPD8806_pixels_store_ok la i v :
  0 <= i < len (LPD8806.pixels la) ->
  LPD8806.pixels_store i v la =
  (LPD8806.set_buffer la (<[Z.to_nat i := v]> (LPD8806.buffer la)),
   Returned tt) /\
  LPD8806.pixels
    (LPD8806.set_buffer la (<[Z.to_nat i := v]> (LPD8806.buffer la))) =
  <[Z.to_nat i := v]> (LPD8806.pixels la).
Proof.
  intros Hi. split.
  - unfold LPD8806.pixels_store. rewrite index_set_ok by exact Hi.
    reflexivity.
  - unfold LPD8806.pixels, len in *. simpl.
    rewrite length_take in Hi.
    apply take_insert_lt. lia.
Qed.

Lemma LPD8806_pixels_load_ok la i v :
  0 <= i -> LPD8806.pixels la !! Z.to_nat i = Some v ->
  LPD8806.pixels_load i la = (la, Returned v).
Proof. intros. unfold LPD8806.pixels_load. apply index_get_ok; assumption. Qed.

(** What the LPD8806 accessors return for what its setters store. *)
Lemma low7_stored v : Z.land (Z.lor 0x80 v) 0x7F = low7 v.
Proof.
  unfold low7. change 0x7F with (Z.ones 7). rewrite Z.land_ones by lia.
  change 128 with (2 ^ 7).
  apply Z.bits_inj'. intros n Hn.
  destruct (Z.ltb_spec n 7).
  - rewrite !Z.mod_pow2_bits_low by lia. rewrite Z.lor_spec.
    change 0x80 with (2 ^ 7). rewrite Z.pow2_bits_false by lia. reflexivity.
  - rewrite !Z.mod_pow2_bits_high by lia. reflexivity.
Qed.

Lemma low7_small v : 0 <= v < 128 -> low7 v = v.
Proof. intros H. unfold low7. apply Z.mod_small. exact H. Qed.

(** ** Colour orders: set, then get *)

(** A pixel index within range addresses [numColors] bytes of the
    buffer. *)
Lemma pixel_slot_bounds np nc i :
  0 <= i < np -> 0 <= nc -> 0 <= i * nc /\ i * nc + nc <= np * nc.
Proof. intros Hi Hc. nia. Qed.

Ltac in_bounds :=
  simpl; unfold len in *; rewrite ?length_insert; lia.

Ltac lookup_after_stores :=
  repeat (rewrite lookup_insert_Z by in_bounds);
  repeat match goal with
         | |- context [?a =? ?b] =>
             first [ replace (a =? b) with true
                       by (symmetry; apply Z.eqb_eq; lia)
                   | replace (a =? b) with false
                       by (symmetry; apply Z.eqb_neq; lia) ]
         end;
  try reflexivity.

Ltac ws_store :=
  rewrite WS281x_pixels_store_ok by in_bounds; simpl.

Ltac ws_load :=
  erewrite WS281x_pixels_load_ok;
  [ | simpl; lia | simpl; lookup_after_stores ]; simpl.

Lemma WS281x_RGB_roundtrip o ws i c :
  WS281x_ok ws -> WS281x_order ws o -> 3 <= WS281x.numColors ws ->
  0 <= i < WS281x.numPixels ws ->
  exists ws', WS281x.SetRGBAt i c ws = (ws', Returned tt) /\
              WS281x.RGBAt i ws' = (ws', Returned c).
Proof.
  intros (Hnp & Hnc & Hlen & _) Hord Hc3 Hi.
  destruct ws as [words buf rp px np nc og or ob ow]; simpl in *.
  destruct c as [vr vg vb].
  pose proof (pixel_slot_bounds np nc i Hi Hnc) as [Hlo Hhi].
  unfold WS281x.SetRGBAt, WS281x.RGBAt, bind, get; simpl.
  destruct o; injection Hord as <- <- <- <-;
    (do 3 ws_store); eexists; (split; [reflexivity|]);
    (do 3 ws_load); reflexivity.
Qed.

Lemma WS281x_RGBW_roundtrip ws i c :
  WS281x_ok ws -> WS281x_order ws GRBWOrder -> WS281x.numColors ws = 4 ->
  0 <= i < WS281x.numPixels ws ->
  exists ws', WS281x.SetRGBWAt i c ws = (ws', Returned tt) /\
              WS281x.RGBWAt i ws' = (ws', Returned c).
Proof.
  intros (Hnp & Hnc & Hlen & _) Hord Hc4 Hi.
  destruct ws as [words buf rp px np nc og or ob ow]; simpl in *.
  destruct c as [vr vg vb vw].
  pose proof (pixel_slot_bounds np nc i Hi Hnc) as [Hlo Hhi].
  unfold WS281x.SetRGBWAt, WS281x.RGBWAt, bind, get; simpl.
  injection Hord as <- <- <- <-.
  (do 4 ws_store); eexists; (split; [reflexivity|]).
  (do 4 ws_load); reflexivity.
Qed.

Ltac la_bounds :=
  simpl; unfold LPD8806.pixels, len in *; simpl;
  rewrite ?length_take, ?length_insert; lia.

Ltac la_store :=
  match goal with
  | |- context [LPD8806.pixels_store ?i ?v ?la] =>
      destruct (LPD8806_pixels_store_ok la i v) as [-> _];
      [ la_bounds | simpl ]
  end.

Ltac la_load :=
  erewrite LPD8806_pixels_load_ok;
  [ | simpl; lia
    | unfold LPD8806.pixels; simpl; rewrite lookup_take_lt by lia;
      lookup_after_stores ]; simpl.

Lemma LPD8806_RGB_roundtrip o la i c :
  LPD8806_ok la -> LPD8806_order la o -> 3 <= LPD8806.numColors la ->
  0 <= i < LPD8806.numPixels la ->
  exists la', LPD8806.SetRGBAt i c la = (la', Returned tt) /\
              LPD8806.RGBAt i la' = (la', Returned (RGB_low7 c)).
Proof.
  intros (Hnp & Hnc & Hlen & Hbuf) Hord Hc3 Hi.
  destruct la as [rp plen buf nc np og or ob ow]; simpl in *.
  destruct c as [vr vg vb].
  pose proof (pixel_slot_bounds np nc i Hi Hnc) as [Hlo Hhi].
  unfold LPD8806.SetRGBAt, LPD8806.RGBAt, bind, get; simpl.
  destruct o; injection Hord as <- <- <- <-;
    (do 3 la_store); eexists; (split; [reflexivity|]);
    (do 3 la_load); unfold ret, RGB_low7; simpl;
    rewrite !low7_stored; reflexivity.
Qed.

Lemma LPD8806_RGBW_roundtrip la i c :
  LPD8806_ok la -> LPD8806_order la GRBWOrder -> LPD8806.numColors la = 4 ->
  0 <= i < LPD8806.numPixels la ->
  exists la', LPD8806.SetRGBWAt i c la = (la', Returned tt) /\
              LPD8806.RGBWAt i la' = (la', Returned (RGBW_low7 c)).
Proof.
  intros (Hnp & Hnc & Hlen & Hbuf) Hord Hc4 Hi.
  destruct la as [rp plen buf nc np og or ob ow]; simpl in *.
  destruct c as [vr vg vb vw].
  pose proof (pixel_slot_bounds np nc i Hi Hnc) as [Hlo Hhi].
  unfold LPD8806.SetRGBWAt, LPD8806.RGBWAt, bind, get; simpl.
  injection Hord as <- <- <- <-.
  (do 4 la_store); eexists; (split; [reflexivity|]).
  (do 4 la_load); unfold ret, RGBW_low7; simpl.
  rewrite !low7_stored; reflexivity.
Qed.

(** C7 (as amended): for every colour order and every pixel index in
    range, [SetRGBAt] followed by [RGBAt] returns the components that were
    set on the WS281x driver, and their low seven bits on the LPD8806
    driver (the value itself when it is below 128); the same holds for
    [SetRGBWAt] and [RGBWAt] with the order that has a white offset
    (GRBW) on a four-channel driver. *)
Theorem color_order_roundtrip o ws la i (c : RGB) (cw : RGBW) :
  WS281x_ok ws -> WS281x_order ws o -> 3 <= WS281x.numColors ws ->
  LPD8806_ok la -> LPD8806_order la o -> 3 <= LPD8806.numColors la ->
  0 <= i < WS281x.numPixels ws -> 0 <= i < LPD8806.numPixels la ->
  (exists ws', WS281x.SetRGBAt i c ws = (ws', Returned tt) /\
               WS281x.RGBAt i ws' = (ws', Returned c)) /\
  (exists la', LPD8806.SetRGBAt i c la = (la', Returned tt) /\
               LPD8806.RGBAt i la' = (la', Returned (RGB_low7 c))) /\
  (o = GRBWOrder -> WS281x.numColors ws = 4 ->
   exists ws', WS281x.SetRGBWAt i cw ws = (ws', Returned tt) /\
               WS281x.RGBWAt i ws' = (ws', Returned cw)) /\
  (o = GRBWOrder -> LPD8806.numColors la = 4 ->
   exists la', LPD8806.SetRGBWAt i cw la = (la', Returned tt) /\
               LPD8806.RGBWAt i la' = (la', Returned (RGBW_low7 cw))) /\
  ((0 <= rgb_R c < 128 /\ 0 <= rgb_G c < 128 /\ 0 <= rgb_B c < 128) ->
   RGB_low7 c = c).
Proof.
  intros Hws Hwo Hw3 Hla Hlo Hl3 Hiw Hil.
  split; [eapply WS281x_RGB_roundtrip; eassumption|].
  split; [eapply LPD8806_RGB_roundtrip; eassumption|].
  split; [intros -> H4; apply WS281x_RGBW_roundtrip; assumption|].
  split; [intros -> H4; apply LPD8806_RGBW_roundtrip; assumption|].
  intros (Hr & Hg & Hb). destruct c as [vr vg vb]; simpl in *.
  unfold RGB_low7; simpl. rewrite !low7_small by assumption. reflexivity.
Qed.

Lemma example_ws_ok np m o words : 0 <= np -> WS281x_ok (example_ws np m o words).
Proof.
  intros Hnp. unfold WS281x_ok, example_ws; simpl.
  assert (0 <= NumColors m) by (destruct m; simpl; lia).
  repeat split; try lia.
  - unfold len. rewrite length_replicate. nia.
  - apply Forall_replicate. unfold is_byte. lia.
Qed.

Lemma example_la_ok np m o : 0 <= np -> LPD8806_ok (example_la np m o).
Proof.
  intros Hnp. unfold LPD8806_ok, example_la; simpl.
  assert (0 <= NumColors m) by (destruct m; simpl; lia).
  assert (0 <= (np + 31) / 32) by (apply Z.div_pos; lia).
  repeat split; try lia.
  unfold len. rewrite length_replicate. nia.
Qed.

Lemma color_order_roundtrip_witness :
  exists ws', WS281x.SetRGBAt 1 (mkRGB 255 128 7)
                (example_ws 2 RGBModel BGROrder []) = (ws', Returned tt) /\
              WS281x.RGBAt 1 ws' = (ws', Returned (mkRGB 255 128 7)).
Proof.
  apply (color_order_roundtrip BGROrder (example_ws 2 RGBModel BGROrder [])
           (example_la 2 RGBModel BGROrder) 1 (mkRGB 255 128 7)
           (mkRGBW 0 0 0 0)).
  - apply example_ws_ok. lia.
  - reflexivity.
  - evaluate.
  - apply example_la_ok. lia.
  - reflexivity.
  - evaluate.
  - evaluate.
  - evaluate.
Defined.

(** An LPD8806 strip keeps seven bits per component: red 255 is read back
    as 127. *)
Lemma LPD8806_roundtrip_counterexample :
  LPD8806.RGBAt 0
    (fst (LPD8806.SetRGBAt 0 (mkRGB 255 0 0)
            (example_la 1 RGBModel GRBOrder))) =
  (fst (LPD8806.SetRGBAt 0 (mkRGB 255 0 0) (example_la 1 RGBModel GRBOrder)),
   Returned (mkRGB 127 0 0)) /\
  snd (LPD8806.SetRGBAt 0 (mkRGB 255 0 0) (example_la 1 RGBModel GRBOrder)) =
  Returned tt /\
  mkRGB 127 0 0 <> mkRGB 255 0 0.
Proof.
  split; [vm_compute; reflexivity|].
  split; [vm_compute; reflexivity|discriminate].
Qed.

(** ** Hardware detection *)

(** The catalog as [sort.Slice] leaves it. *)
Lemma sorted_rasPiVariants :
  map rpi.name (rpi.sortSlice rpi.rasPiVariants) =
  [ "Raspberry Pi Compute Module 3 Plus";
    "Raspberry Pi Compute Module 3";
    "Raspberry Pi Compute Module";
    "Raspberry Pi 3 Model B Plus";
    "Raspberry Pi 2 Model B";
    "Raspberry Pi 3 Model B";
    "Raspberry Pi 4 Model B";
    "Raspberry Pi Model B";
    "Raspberry Pi Zero W" ]%string.
Proof. vm_compute. reflexivity. Qed.

Ltac compute_catalog :=
  let l := eval vm_compute in (rpi.sortSlice rpi.rasPiVariants) in
  change (rpi.sortSlice rpi.rasPiVariants) with l.

(** Sorting permutes the catalog. *)
Lemma sortSlice_rasPiVariants_In rp :
  In rp (rpi.sortSlice rpi.rasPiVariants) <-> In rp rpi.rasPiVariants.
Proof.
  compute_catalog.
  unfold rpi.rasPiVariants. simpl. tauto.
Qed.

(** No later entry of the sorted catalog is [less] than an earlier one:
    names come longest first, and among names of one length the videocore
    bases do not decrease. *)
Lemma sortSlice_rasPiVariants_sorted :
  StronglySorted (fun x y => rpi.less y x = false)
    (rpi.sortSlice rpi.rasPiVariants).
Proof.
  compute_catalog.
  repeat (apply SSorted_cons; [|repeat constructor]).
  apply SSorted_nil.
Qed.

Lemma HasPrefix_app (s t : string) : rpi.HasPrefix (s ++ t)%string s = true.
Proof.
  unfold rpi.HasPrefix. induction s as [|a s IH]; simpl.
  - destruct t; reflexivity.
  - destruct (ascii_dec a a) as [_|Hne]; [exact IH|congruence].
Qed.

Lemma HasPrefix_self (s : string) : rpi.HasPrefix s s = true.
Proof.
  unfold rpi.HasPrefix. induction s as [|a s IH]; simpl.
  - reflexivity.
  - destruct (ascii_dec a a) as [_|Hne]; [exact IH|congruence].
Qed.

Lemma firstMatch_skip model x rest :
  rpi.HasPrefix model (rpi.name x) = false ->
  rpi.firstMatch model (x :: rest) = rpi.firstMatch model rest.
Proof. intros H. simpl. rewrite H. reflexivity. Qed.

Lemma firstMatch_hit model x rest :
  rpi.HasPrefix model (rpi.name x) = true ->
  rpi.firstMatch model (x :: rest) = Some x.
Proof. intros H. simpl. rewrite H. reflexivity. Qed.

Lemma firstMatch_none model l :
  (forall x, In x l -> rpi.HasPrefix model (rpi.name x) = false) ->
  rpi.firstMatch model l = None.
Proof.
  induction l as [|x l IH]; intros H; [reflexivity|].
  rewrite firstMatch_skip by (apply H; left; reflexivity).
  apply IH. intros y Hy. apply H. right. exact Hy.
Qed.

(** A match returned by the loop is a prefix of the model string, and no
    earlier entry is. *)
Lemma firstMatch_Some model l rp :
  rpi.firstMatch model l = Some rp ->
  In rp l /\ rpi.HasPrefix model (rpi.name rp) = true.
Proof.
  induction l as [|x l IH]; simpl; [discriminate|].
  destruct (rpi.HasPrefix model (rpi.name x)) eqn:Hx.
  - intros [= <-]. split; [left; reflexivity|exact Hx].
  - intros H. destruct (IH H) as [Hin Hp]. split; [right; exact Hin|exact Hp].
Qed.

(** The model string [N ++ suffix] resolves to the entry named [N] when no
    longer catalog name is a prefix of it. *)
Lemma detectHardware_name_suffix rp suffix :
  In rp rpi.rasPiVariants ->
  (forall rp', In rp' rpi.rasPiVariants ->
               rpi.strlen (rpi.name rp) < rpi.strlen (rpi.name rp') ->
               rpi.HasPrefix (rpi.name rp ++ suffix)%string (rpi.name rp') = false) ->
  rpi.detectHardware (inl (rpi.name rp ++ suffix)%string) = inl rp.
Proof.
  intros Hin Hlonger. unfold rpi.detectHardware.
  compute_catalog.
  unfold rpi.rasPiVariants in Hin, Hlonger. simpl in Hin.
  repeat (destruct Hin as [<-|Hin]; [|]); [..|contradiction];
    repeat first
      [ rewrite firstMatch_hit by apply HasPrefix_app
      | rewrite firstMatch_skip
          by first [ vm_compute; reflexivity
                   | apply Hlonger; [simpl; tauto | vm_compute; reflexivity] ] ];
    reflexivity.
Qed.

Lemma detectHardware_name rp :
  In rp rpi.rasPiVariants -> rpi.detectHardware (inl (rpi.name rp)) = inl rp.
Proof.
  unfold rpi.rasPiVariants. simpl.
  intros Hin.
  repeat (destruct Hin as [<-|Hin]; [vm_compute; reflexivity|]).
  contradiction.
Qed.

Lemma detectHardware_unmatched model :
  (forall rp, In rp rpi.rasPiVariants ->
              rpi.HasPrefix model (rpi.name rp) = false) ->
  rpi.detectHardware (inl model) =
  inr (Errorf_q "couldn't identify Pi model " model).
Proof.
  intros H. unfold rpi.detectHardware.
  rewrite firstMatch_none; [reflexivity|].
  intros x Hx. apply H. exact (proj1 (sortSlice_rasPiVariants_In x) Hx).
Qed.

(** C6 (as amended): for every record of the catalog with name [N], a
    model string equal to [N] resolves to that record, and so does [N]
    followed by a suffix unless a longer catalog name is also a prefix of
    the string (the longest name wins: the catalog is searched longest
    names first, equal lengths by non-decreasing videocore base); a model
    string of which no catalog name is a prefix yields the error
    "couldn't identify Pi model", and so does every other failure: a
    result is always a catalog record whose name is a prefix of the
    string. *)
Theorem detectHardware_matching rp suffix model :
  In rp rpi.rasPiVariants ->
  rpi.detectHardware (inl (rpi.name rp)) = inl rp /\
  ((forall rp', In rp' rpi.rasPiVariants ->
                rpi.strlen (rpi.name rp) < rpi.strlen (rpi.name rp') ->
                rpi.HasPrefix (rpi.name rp ++ suffix)%string (rpi.name rp')
                = false) ->
   rpi.detectHardware (inl (rpi.name rp ++ suffix)%string) = inl rp) /\
  ((forall rp', In rp' rpi.rasPiVariants ->
                rpi.HasPrefix model (rpi.name rp') = false) ->
   rpi.detectHardware (inl model) =
   inr (Errorf_q "couldn't identify Pi model " model)) /\
  (forall found, rpi.detectHardware (inl model) = inl found ->
     In found rpi.rasPiVariants /\
     rpi.HasPrefix model (rpi.name found) = true) /\
  StronglySorted (fun x y => rpi.less y x = false)
    (rpi.sortSlice rpi.rasPiVariants).
Proof.
  intros Hin.
  split; [apply detectHardware_name, Hin|].
  split; [apply detectHardware_name_suffix, Hin|].
  split; [apply detectHardware_unmatched|].
  split; [|apply sortSlice_rasPiVariants_sorted].
  intros found. unfold rpi.detectHardware.
  destruct (rpi.firstMatch model (rpi.sortSlice rpi.rasPiVariants)) eqn:Hm;
    [|discriminate].
  intros [= <-]. apply firstMatch_Some in Hm as [Hi Hp].
  split; [exact (proj1 (sortSlice_rasPiVariants_In _) Hi)|exact Hp].
Qed.

Lemma detectHardware_matching_witness :
  rpi.detectHardware (inl "Raspberry Pi 3 Model B"%string) =
  inl (rpi.mkHw rpi.RPI_HWVER_TYPE_PI2 rpi.PERIPH_BASE_RPI2
         rpi.VIDEOCORE_BASE_RPI2 "Raspberry Pi 3 Model B").
Proof.
  refine (proj1 (detectHardware_matching
                   (rpi.mkHw rpi.RPI_HWVER_TYPE_PI2 rpi.PERIPH_BASE_RPI2
                      rpi.VIDEOCORE_BASE_RPI2 "Raspberry Pi 3 Model B")
                   " Rev 1.2" "Raspberry Pi 3 Model B Rev 1.2" _)).
  unfold rpi.rasPiVariants. simpl. tauto.
Defined.

(** "Raspberry Pi Compute Module" followed by " 3" is the name of another
    entry, which is longer and so is found first: the record returned is
    that of the Compute Module 3 (a Pi 2 class board), not that of the
    Compute Module. *)
Lemma detectHardware_suffix_counterexample :
  In (rpi.mkHw rpi.RPI_HWVER_TYPE_PI1 rpi.PERIPH_BASE_RPI
        rpi.VIDEOCORE_BASE_RPI "Raspberry Pi Compute Module")
     rpi.rasPiVariants /\
  rpi.detectHardware (inl ("Raspberry Pi Compute Module" ++ " 3")%string) =
  inl (rpi.mkHw rpi.RPI_HWVER_TYPE_PI2 rpi.PERIPH_BASE_RPI2
         rpi.VIDEOCORE_BASE_RPI2 "Raspberry Pi Compute Module 3") /\
  rpi.detectHardware (inl ("Raspberry Pi Compute Module" ++ " 3")%string) <>
  inl (rpi.mkHw rpi.RPI_HWVER_TYPE_PI1 rpi.PERIPH_BASE_RPI
         rpi.VIDEOCORE_BASE_RPI "Raspberry Pi Compute Module").
Proof.
  split; [unfold rpi.rasPiVariants; simpl; tauto|].
  split; [vm_compute; reflexivity|].
  vm_compute. discriminate.
Qed.

(** ** Construction and cleanup *)

Lemma offsets_index {S} (o : ColorOrder) (s : S) :
  index_get (offsets o) 0 s = (s, Returned (nth 0 (offsets o) 0)) /\
  index_get (offsets o) 1 s = (s, Returned (nth 1 (offsets o) 0)) /\
  index_get (offsets o) 2 s = (s, Returned (nth 2 (offsets o) 0)) /\
  index_get (offsets o) 3 s = (s, Returned (nth 3 (offsets o) 0)).
Proof. destruct o; repeat split; reflexivity. Qed.

(** [NewWS281x] asks for one DMA buffer, with its third call. *)
Lemma GetDMABuf_position (pre post rest : list HwCall) (bytes b : Z) :
  [ReadModelFile; MboxOpen; GetDMABuf b] ++ rest =
  pre ++ GetDMABuf bytes :: post ->
  Forall not_GetDMABuf rest ->
  pre = [ReadModelFile; MboxOpen] /\ bytes = b /\ post = rest.
Proof.
  intros Heq Hrest.
  destruct pre as [|c1 pre]; simpl in Heq; [discriminate|].
  injection Heq as <- Heq.
  destruct pre as [|c2 pre]; simpl in Heq; [discriminate|].
  injection Heq as <- Heq.
  destruct pre as [|c3 pre]; simpl in Heq.
  - injection Heq as <- <-. repeat split.
  - injection Heq as <- Heq. exfalso.
    rewrite Heq in Hrest. apply Forall_app in Hrest as [_ Hrest].
    inversion Hrest as [|? ? Hc _]. exact Hc.
Qed.

Lemma no_GetDMABuf_before (pre post : list HwCall) (bytes : Z) l :
  l = pre ++ GetDMABuf bytes :: post -> Forall not_GetDMABuf l -> False.
Proof.
  intros -> H. apply Forall_app in H as [_ H].
  inversion H as [|? ? Hc _]. exact Hc.
Qed.

Ltac case_hw env H :=
  match type of H with
  | context [hw_error env ?l ?c] =>
      let E := fresh "Ecall" in destruct (hw_error env l c) eqn:E
  end.

(** Logs are compared with their appends associated to the right. *)
Ltac norm_log_in H :=
  repeat first [ rewrite <- app_assoc in H
               | rewrite <- app_comm_cons in H
               | rewrite app_nil_l in H
               | rewrite app_nil_r in H ].

Ltac norm_logs :=
  repeat first [ rewrite <- app_assoc
               | rewrite <- app_comm_cons
               | rewrite app_nil_l
               | rewrite app_nil_r ];
  repeat match goal with
         | H : _ |- _ => progress (norm_log_in H)
         end.

Ltac no_alloc Hlog :=
  exfalso; apply app_inv_head in Hlog;
  eapply no_GetDMABuf_before; [exact Hlog|];
  repeat constructor.

(** C9: in every run of [NewWS281x] in which [GetDMABuf] succeeded, the
    buffer is accounted for.  If the constructor returns an error, the run
    ended with a failed [InitDMA], [InitGPIO] or [InitPWM] followed by one
    [FreeDMABuf] of that buffer, and the error is the failed step's own
    error behind that step's message, whatever [FreeDMABuf] returned; the
    constructor succeeds only if the three steps did, and it does not
    panic once the buffer is there. *)
Theorem NewWS281x_cleanup env sz config log log' res pre bytes post :
  WS281x.NewWS281x env sz config log = (log', res) ->
  log' = log ++ pre ++ GetDMABuf bytes :: post ->
  hw_error env (log ++ pre) (GetDMABuf bytes) = None ->
  buffer_accounted env (log ++ pre ++ [GetDMABuf bytes])
    (dma_handle (hw_dmabuf env (log ++ pre) bytes)) post res.
Proof.
  intros Hrun Hlog Halloc.
  unfold WS281x.NewWS281x, NewRPi, hwcall, bind, get, ret in Hrun.
  destruct (rpi.detectHardware _) as [hw|derr] in Hrun.
  2:{ injection Hrun as <- <-. no_alloc Hlog. }
  case_hw env Hrun.
  { injection Hrun as <- <-. norm_logs. no_alloc Hlog. }
  unfold make, panic, ret in Hrun.
  destruct (_ <? 0) in Hrun.
  { injection Hrun as <- <-. norm_logs. no_alloc Hlog. }
  cbv beta iota zeta in Hrun.
  rewrite (proj1 (offsets_index _ _)) in Hrun; cbv beta iota in Hrun.
  rewrite (proj1 (proj2 (offsets_index _ _))) in Hrun; cbv beta iota in Hrun.
  rewrite (proj1 (proj2 (proj2 (offsets_index _ _)))) in Hrun;
    cbv beta iota in Hrun.
  rewrite (proj2 (proj2 (proj2 (offsets_index _ _)))) in Hrun;
    cbv beta iota in Hrun.
  cbn [WS281x.pixDMA] in Hrun.
  norm_logs.
  match type of Hrun with
  | context [GetDMABuf ?b] => set (nbytes := b) in *
  end.
  case_hw env Hrun; cbv beta iota in Hrun.
  { injection Hrun as <- <-. norm_logs.
    apply app_inv_head in Hlog.
    apply (GetDMABuf_position pre post [] bytes nbytes) in Hlog
      as (-> & -> & ->); [|constructor].
    norm_logs. congruence. }
  norm_logs.
  case_hw env Hrun; cbv beta iota in Hrun.
  { injection Hrun as <- <-. norm_logs.
    apply app_inv_head in Hlog.
    apply (GetDMABuf_position pre post [_; _] bytes nbytes) in Hlog
      as (-> & -> & ->); [|repeat constructor].
    simpl. exists [], (InitDMA (WS281x.DMAChannel config)).
    do 2 eexists. split; [reflexivity|]. split; [reflexivity|].
    split; [reflexivity|]. split; [|reflexivity].
    norm_logs. exact Ecall1. }
  norm_logs.
  case_hw env Hrun; cbv beta iota in Hrun.
  { injection Hrun as <- <-. norm_logs.
    apply app_inv_head in Hlog.
    apply (GetDMABuf_position pre post [_; _; _] bytes nbytes) in Hlog
      as (-> & -> & ->); [|repeat constructor].
    simpl. exists [InitDMA (WS281x.DMAChannel config)], InitGPIO.
    do 2 eexists. split; [reflexivity|]. split; [reflexivity|].
    split; [reflexivity|]. split; [|reflexivity].
    norm_logs. exact Ecall2. }
  norm_logs.
  case_hw env Hrun; cbv beta iota in Hrun.
  { injection Hrun as <- <-. norm_logs.
    apply app_inv_head in Hlog.
    apply (GetDMABuf_position pre post [_; _; _; _] bytes nbytes) in Hlog
      as (-> & -> & ->); [|repeat constructor].
    simpl.
    exists [InitDMA (WS281x.DMAChannel config); InitGPIO].
    eexists (InitPWM _ _ _ _).
    do 2 eexists. split; [reflexivity|]. split; [reflexivity|].
    split; [reflexivity|]. split; [|reflexivity].
    norm_logs. exact Ecall3. }
  injection Hrun as <- <-. norm_logs.
  apply app_inv_head in Hlog.
  apply (GetDMABuf_position pre post [_; _; _] bytes nbytes) in Hlog
    as (-> & -> & ->); [|repeat constructor].
  simpl. split; [reflexivity|]. split; [reflexivity|].
  do 3 eexists. split; [reflexivity|].
  norm_logs. repeat split; assumption.
Qed.

Lemma NewWS281x_cleanup_witness :
  buffer_accounted (example_env gpio_and_free_fail)
    [ReadModelFile; MboxOpen; GetDMABuf 216] 1
    [InitDMA 10; InitGPIO; FreeDMABuf 1]
    (Returned (inr (Errorf_v "couldn't init GPIO: " (ExternalError "EIO")))).
Proof.
  apply (NewWS281x_cleanup (example_env gpio_and_free_fail) W32
           example_config []
           [ReadModelFile; MboxOpen; GetDMABuf 216; InitDMA 10; InitGPIO;
            FreeDMABuf 1]
           _ [ReadModelFile; MboxOpen] 216
           [InitDMA 10; InitGPIO; FreeDMABuf 1]).
  - vm_compute. reflexivity.
  - reflexivity.
  - reflexivity.
Defined.

(** ** Bits of the symbol buffer *)

Lemma shiftl_1_u32 p : 0 <= p < 32 -> u32 (Z.shiftl 1 p) = 2 ^ p.
Proof.
  intros Hp. unfold u32. rewrite Z.shiftl_1_l.
  apply Z.mod_small. split; [apply Z.pow_nonneg; lia|].
  apply Z.pow_lt_mono_r; lia.
Qed.

Lemma testbit_not32_pow2 p j :
  0 <= p < 32 -> 0 <= j ->
  Z.testbit (not32 (2 ^ p)) j = negb (j =? p) && (j <? 32).
Proof.
  intros Hp Hj. unfold not32. rewrite Z.lxor_spec.
  rewrite Z.pow2_bits_eqb by lia.
  change 0xFFFFFFFF with (Z.ones 32). rewrite Z.testbit_ones by lia.
  replace (0 <=? j) with true by (symmetry; apply Z.leb_le; lia).
  rewrite (Z.eqb_sym p j).
  destruct (Z.eqb_spec j p), (Z.ltb_spec j 32); try reflexivity; lia.
Qed.

(** The two assignments of [Flush] set bit [p] to [v], keep the other 31
    bits and leave a 32-bit value. *)
Lemma set_bit_testbit word p v j :
  0 <= p < 32 -> 0 <= j ->
  Z.testbit (set_bit word p v) j =
  if j =? p then v else Z.testbit word j && (j <? 32).
Proof.
  intros Hp Hj. unfold set_bit. rewrite shiftl_1_u32 by exact Hp.
  destruct v.
  - rewrite Z.lor_spec, Z.land_spec, testbit_not32_pow2 by lia.
    rewrite Z.pow2_bits_eqb by lia. rewrite (Z.eqb_sym p j).
    destruct (j =? p); simpl; [apply orb_true_r|].
    rewrite orb_false_r. reflexivity.
  - rewrite Z.land_spec, testbit_not32_pow2 by lia.
    destruct (j =? p); simpl; [apply andb_false_r|reflexivity].
Qed.

(** The test [symbol & (1 << l) != 0]. *)
Lemma mask_test x l :
  0 <= l -> negb (Z.land x (Z.shiftl 1 l) =? 0) = Z.testbit x l.
Proof.
  intros Hl. rewrite Z.shiftl_1_l.
  destruct (Z.testbit x l) eqn:Hb.
  - apply negb_true_iff, Z.eqb_neq. intros H0.
    assert (Ht : Z.testbit (Z.land x (2 ^ l)) l = true).
    { rewrite Z.land_spec, Hb, Z.pow2_bits_true by lia. reflexivity. }
    rewrite H0, Z.bits_0 in Ht. discriminate.
  - apply negb_false_iff, Z.eqb_eq. apply Z.bits_inj'. intros n Hn.
    rewrite Z.land_spec, Z.bits_0, Z.pow2_bits_eqb by lia.
    destruct (Z.eqb_spec l n) as [<-|_]; [rewrite Hb; reflexivity|].
    apply andb_false_r.
Qed.

Lemma mask_test_u8 x k :
  0 <= k < 8 -> negb (Z.land x (u8 (Z.shiftl 1 k)) =? 0) = Z.testbit x k.
Proof.
  intros Hk. unfold u8. rewrite Z.mod_small.
  - apply mask_test. lia.
  - rewrite Z.shiftl_1_l. split; [apply Z.pow_nonneg; lia|].
    apply Z.pow_lt_mono_r; lia.
Qed.

(** ** Positions in a channel *)

Lemma cursor_range c n :
  0 <= n -> 0 <= snd (cursor c n) < 32 /\ c <= fst (cursor c n).
Proof.
  intros Hn. unfold cursor; simpl.
  pose proof (Z.mod_pos_bound n 32 ltac:(lia)).
  pose proof (Z.div_pos n 32 Hn ltac:(lia)). lia.
Qed.

(** Two positions of the two channels share a bit only if they are the
    same position of the same channel. *)
Lemma cursor_inj c n c' m :
  0 <= c <= 1 -> 0 <= c' <= 1 -> 0 <= n -> 0 <= m ->
  cursor c n = cursor c' m -> c = c' /\ n = m.
Proof.
  intros Hc Hc' Hn Hm. unfold cursor. intros [= Hw Hb].
  pose proof (Z.div_mod n 32 ltac:(lia)).
  pose proof (Z.div_mod m 32 ltac:(lia)). lia.
Qed.

(** The position after [n], as [Flush] computes it. *)
Lemma cursor_next c n :
  0 <= n ->
  (if snd (cursor c n) - 1 <? 0
   then (fst (cursor c n) + 2, 31)
   else (fst (cursor c n), snd (cursor c n) - 1)) = cursor c (n + 1).
Proof.
  intros Hn. unfold cursor; simpl.
  pose proof (Z.div_mod n 32 ltac:(lia)) as Hd.
  pose proof (Z.mod_pos_bound n 32 ltac:(lia)) as Hr.
  destruct (Z.ltb_spec (31 - n mod 32 - 1) 0) as [Hlast|Hmore].
  - assert (Hq : (n + 1) / 32 = n / 32 + 1).
    { symmetry. apply (Z.div_unique (n + 1) 32 (n / 32 + 1) 0); lia. }
    assert (Hm : (n + 1) mod 32 = 0).
    { symmetry. apply (Z.mod_unique (n + 1) 32 (n / 32 + 1) 0); lia. }
    rewrite Hq, Hm. f_equal; lia.
  - assert (Hq : (n + 1) / 32 = n / 32).
    { symmetry. apply (Z.div_unique (n + 1) 32 (n / 32) (n mod 32 + 1)); lia. }
    assert (Hm : (n + 1) mod 32 = n mod 32 + 1).
    { symmetry. apply (Z.mod_unique (n + 1) 32 (n / 32) (n mod 32 + 1)); lia. }
    rewrite Hq, Hm. f_equal; lia.
Qed.

Lemma fits_mono c m m' L : m <= m' -> fits c m' L -> fits c m L.
Proof.
  unfold fits. intros Hm Hf.
  assert ((m + 31) / 32 <= (m' + 31) / 32) by (apply Z.div_le_mono; lia).
  lia.
Qed.

(** Bit [n] fits exactly when its word exists. *)
Lemma fits_next c n L :
  0 <= n -> fits c (n + 1) L <-> fst (cursor c n) < L.
Proof.
  intros Hn. unfold fits, cursor; simpl.
  replace (n + 1 + 31) with (n + 1 * 32) by lia.
  rewrite Z.div_add by lia. lia.
Qed.

Lemma fits_dec c m L : {fits c m L} + {~ fits c m L}.
Proof. unfold fits. apply Z_lt_dec. Qed.

Lemma len_write_bit words c n v : len (write_bit words c n v) = len words.
Proof. unfold write_bit. apply len_insert. Qed.

Lemma len_write_bits words c n bs : len (write_bits words c n bs) = len words.
Proof.
  revert words n. induction bs as [|v bs IH]; intros words n; simpl.
  - reflexivity.
  - rewrite IH. apply len_write_bit.
Qed.

Lemma write_bits_app words c n bs bs' :
  write_bits words c n (bs ++ bs') =
  write_bits (write_bits words c n bs) c (n + len bs) bs'.
Proof.
  revert words n. induction bs as [|v bs IH]; intros words n; simpl.
  - replace (n + len []) with n by (unfold len; simpl; lia). reflexivity.
  - rewrite IH. f_equal. unfold len. simpl length. lia.
Qed.

(** Reading a bit of either channel after bit [n] of channel [c] was
    written. *)
Lemma stream_bit_write_bit words c n v c' m :
  0 <= c <= 1 -> 0 <= c' <= 1 -> 0 <= n -> 0 <= m ->
  fst (cursor c n) < len words ->
  stream_bit (write_bit words c n v) c' m =
  if (c =? c') && (n =? m) then v else stream_bit words c' m.
Proof.
  intros Hc Hc' Hn Hm Hin. unfold stream_bit, write_bit.
  destruct (cursor_range c n Hn) as [Hbit Hword].
  destruct (cursor_range c' m Hm) as [Hbit' Hword'].
  destruct (Z.eq_dec (fst (cursor c n)) (fst (cursor c' m))) as [Hw|Hw].
  - rewrite <- Hw.
    rewrite list_lookup_total_insert_eq by (unfold len in Hin; lia).
    rewrite set_bit_testbit by lia.
    destruct (Z.eqb_spec (snd (cursor c' m)) (snd (cursor c n))) as [Hb|Hb].
    + destruct (cursor_inj c n c' m) as [-> ->]; try lia.
      { destruct (cursor c n), (cursor c' m); simpl in *; congruence. }
      rewrite !Z.eqb_refl. reflexivity.
    + replace (snd (cursor c' m) <? 32) with true
        by (symmetry; apply Z.ltb_lt; lia).
      rewrite andb_true_r.
      destruct (Z.eqb_spec c c') as [->|]; [|reflexivity].
      destruct (Z.eqb_spec n m) as [->|]; [congruence|reflexivity].
  - rewrite list_lookup_total_insert_ne by lia.
    destruct (Z.eqb_spec c c') as [->|]; [|reflexivity].
    destruct (Z.eqb_spec n m) as [->|]; [congruence|reflexivity].
Qed.

Lemma stream_bit_write_bits words c n bs c' m :
  0 <= c <= 1 -> 0 <= c' <= 1 -> 0 <= n -> 0 <= m ->
  fits c (n + len bs) (len words) ->
  stream_bit (write_bits words c n bs) c' m =
  if (c =? c') && (n <=? m) && (m <? n + len bs)
  then bs !!! Z.to_nat (m - n)
  else stream_bit words c' m.
Proof.
  intros Hc Hc' Hn Hm. revert words n Hn.
  induction bs as [|v bs IH]; intros words n Hn Hfit.
  - simpl. replace (n + len []) with n by (unfold len; simpl; lia).
    destruct (c =? c'), (Z.leb_spec n m), (Z.ltb_spec m n);
      simpl; try reflexivity; lia.
  - simpl write_bits.
    assert (Hl : len (v :: bs) = len bs + 1) by (unfold len; simpl length; lia).
    assert (Hlb : 0 <= len bs) by (unfold len; lia).
    rewrite Hl in *.
    assert (Hfit1 : fst (cursor c n) < len words).
    { apply fits_next; [lia|]. eapply fits_mono; [|exact Hfit]. lia. }
    rewrite IH; [|lia|rewrite len_write_bit;
                       replace (n + 1 + len bs) with (n + (len bs + 1)) by lia;
                       exact Hfit].
    rewrite stream_bit_write_bit by (assumption || lia).
    destruct (Z.eqb_spec c c') as [->|]; simpl; [|reflexivity].
    destruct (Z.leb_spec (n + 1) m), (Z.leb_spec n m), (Z.eqb_spec n m),
      (Z.ltb_spec m (n + 1 + len bs)), (Z.ltb_spec m (n + (len bs + 1)));
      simpl; try lia; try reflexivity.
    + replace (Z.to_nat (m - n)) with (S (Z.to_nat (m - (n + 1)))) by lia.
      reflexivity.
    + subst m. replace (n - n) with 0 by lia. reflexivity.
Qed.

(** ** The loops of Flush *)

Lemma index_get_out {S A} (l : list A) (i : Z) (s : S) :
  len l <= i -> index_get l i s = (s, Panicked (IndexOutOfRange i (len l))).
Proof.
  intros Hi. unfold index_get.
  replace ((0 <=? i) && (i <? len l)) with false; [reflexivity|].
  symmetry. apply andb_false_iff. right. apply Z.ltb_ge. exact Hi.
Qed.

Lemma index_get_total {S} (l : list Z) (i : Z) (s : S) :
  0 <= i < len l -> index_get l i s = (s, Returned (l !!! Z.to_nat i)).
Proof.
  intros Hi. apply index_get_ok; [lia|].
  apply list_lookup_lookup_total_lt. unfold len in Hi. lia.
Qed.

Lemma pixDMAUint_set ws words :
  WS281x.pixDMAUint (WS281x.set_pixDMAUint ws words) = words.
Proof. reflexivity. Qed.

Lemma set_pixDMAUint_twice ws words words' :
  WS281x.set_pixDMAUint (WS281x.set_pixDMAUint ws words) words' =
  WS281x.set_pixDMAUint ws words'.
Proof. reflexivity. Qed.

Lemma if_ret {S A} (b : bool) (x y : A) (s : S) :
  (if b then ret x else ret y) s = (s, Returned (if b then x else y)).
Proof. destruct b; reflexivity. Qed.

Lemma Flush_bit_emits c L ws0 symbol l :
  0 <= c <= 1 -> 0 <= l ->
  emits c L ws0 (fun cur => WS281x.Flush_bit symbol cur l)
    [Z.testbit symbol l].
Proof.
  intros Hc Hl words n Hlen Hn _.
  replace (n + len [Z.testbit symbol l]) with (n + 1)
    by (unfold len; simpl; lia).
  rewrite fits_next by exact Hn.
  destruct (cursor_range c n Hn) as [Hbit Hword].
  unfold WS281x.Flush_bit, bind, WS281x.dma_load, WS281x.dma_store.
  simpl WS281x.pixDMAUint.
  split.
  - intros Hin. rewrite <- Hlen in Hin.
    rewrite index_get_total by lia. cbv beta iota.
    rewrite pixDMAUint_set, index_set_ok by lia. cbv beta iota.
    rewrite set_pixDMAUint_twice.
    rewrite mask_test by exact Hl.
    unfold write_bits, write_bit, set_bit.
    destruct (Z.testbit symbol l); simpl negb; cbv iota.
    + rewrite pixDMAUint_set.
      rewrite index_get_total by (rewrite len_insert; lia). cbv beta iota.
      rewrite pixDMAUint_set.
      rewrite index_set_ok by (rewrite len_insert; lia). cbv beta iota.
      rewrite set_pixDMAUint_twice.
      rewrite list_lookup_total_insert_eq by (unfold len in Hin; lia).
      rewrite list_insert_insert_eq.
      rewrite if_ret, cursor_next by exact Hn. reflexivity.
    + unfold ret at 1. cbv beta iota.
      rewrite if_ret, cursor_next by exact Hn. reflexivity.
  - intros Hout. rewrite <- Hlen in Hout.
    rewrite index_get_out by lia. eauto.
Qed.

Lemma len_app {A} (l1 l2 : list A) : len (l1 ++ l2) = len l1 + len l2.
Proof. unfold len. rewrite length_app. lia. Qed.

Lemma len_nonneg {A} (l : list A) : 0 <= len l.
Proof. unfold len. lia. Qed.

(** A loop writes what its iterations write, one after the other. *)
Lemma emits_foldM {A} c L ws0 (body : Z * Z -> A -> Go WS281x.t (Z * Z))
    (D : A -> list bool) (l : list A) :
  (forall x, In x l -> emits c L ws0 (fun cur => body cur x) (D x)) ->
  emits c L ws0 (fun cur => foldM body cur l) (flat_map D l).
Proof.
  induction l as [|x l IH]; intros Hbody words n Hlen Hn Hfn.
  - simpl. replace (n + len []) with n by (unfold len; simpl; lia).
    split; [reflexivity|]. intros Hno. contradiction.
  - simpl flat_map. rewrite len_app.
    pose proof (len_nonneg (D x)) as Hdx.
    pose proof (len_nonneg (flat_map D l)) as Hdl.
    destruct (Hbody x (or_introl eq_refl) words n Hlen Hn Hfn)
      as [Hok Hpanic].
    simpl foldM. unfold bind.
    destruct (fits_dec c (n + len (D x)) L) as [Hfx|Hnx].
    + rewrite (Hok Hfx).
      destruct (IH (fun y Hy => Hbody y (or_intror Hy))
                  (write_bits words c n (D x)) (n + len (D x)))
        as [IHok IHpanic];
        [rewrite len_write_bits; exact Hlen|lia|exact Hfx|].
      rewrite Z.add_assoc. split.
      * intros Hf. rewrite (IHok Hf), write_bits_app. reflexivity.
      * intros Hf. exact (IHpanic Hf).
    + destruct (Hpanic Hnx) as (s & p & ->). split.
      * intros Hf. exfalso. apply Hnx.
        eapply fits_mono; [|exact Hf]. lia.
      * intros _. eauto.
Qed.

(** The loop over [l]: the three PWM bits of one data bit. *)
Lemma symbol_loop_emits c L ws0 (d : bool) :
  0 <= c <= 1 ->
  emits c L ws0
    (fun cur => foldM (WS281x.Flush_bit
                         (if d then WS281x.symbolHigh else WS281x.symbolLow))
                      cur (count_down 2 0))
    (symbol_bits d).
Proof.
  intros Hc.
  replace (symbol_bits d)
    with (flat_map (fun l => [Z.testbit (if d then WS281x.symbolHigh
                                         else WS281x.symbolLow) l])
                   (count_down 2 0))
    by (destruct d; reflexivity).
  apply emits_foldM. intros l Hl. apply Flush_bit_emits; [exact Hc|].
  simpl in Hl. lia.
Qed.

(** The body of the loop over [k], for a pixel byte that exists. *)
Lemma Flush_databit_emits c L ws0 i j k px :
  0 <= c <= 1 -> 0 <= k < 8 ->
  0 <= i * WS281x.numColors ws0 + j ->
  WS281x.pixels ws0 !! Z.to_nat (i * WS281x.numColors ws0 + j) = Some px ->
  emits c L ws0 (fun cur => WS281x.Flush_databit i j cur k)
    (symbol_bits (Z.testbit px k)).
Proof.
  intros Hc Hk Hidx Hpx words n Hlen Hn Hfn.
  unfold WS281x.Flush_databit, bind, get, WS281x.pixels_load.
  change (WS281x.numColors (WS281x.set_pixDMAUint ws0 words))
    with (WS281x.numColors ws0).
  change (WS281x.pixels (WS281x.set_pixDMAUint ws0 words))
    with (WS281x.pixels ws0).
  rewrite (index_get_ok _ _ px) by assumption.
  rewrite mask_test_u8 by exact Hk.
  exact (symbol_loop_emits c L ws0 (Z.testbit px k) Hc words n Hlen Hn Hfn).
Qed.

(** ** Loop indices *)

Lemma count_up_1 n : count_up 0 n 1 = map Z.of_nat (seq 0 (Z.to_nat n)).
Proof.
  unfold count_up.
  replace ((n - 0 + 1 - 1) / 1) with n by (rewrite Z.div_1_r; lia).
  apply map_ext. intros k. lia.
Qed.

Lemma in_count_up_1 n x : In x (count_up 0 n 1) -> 0 <= x < n.
Proof.
  rewrite count_up_1. intros Hin. apply in_map_iff in Hin as (k & <- & Hk).
  apply in_seq in Hk. lia.
Qed.

Lemma flat_map_map_compose {A B C} (g : B -> list C) (h : A -> B) l :
  flat_map g (map h l) = flat_map (fun x => g (h x)) l.
Proof. induction l as [|x l IH]; simpl; [reflexivity|]. rewrite IH. reflexivity. Qed.

(** Visiting the first [k] slots of a slice by index. *)
Lemma flat_map_by_index {B} (f : Z -> list B) (q : list Z) (k : nat) :
  (k <= length q)%nat ->
  flat_map (fun j => f (q !!! j)) (seq 0 k) = flat_map f (take k q).
Proof.
  induction k as [|k IH]; intros Hk; [reflexivity|].
  rewrite seq_S, flat_map_app, IH by lia. simpl.
  rewrite (take_S_r q k (q !!! k))
    by (apply list_lookup_lookup_total_lt; lia).
  rewrite flat_map_app. simpl. reflexivity.
Qed.

(** Visiting a slice of [N] rows of [C] slots row by row, slot by slot, is
    visiting it in storage order. *)
Lemma flat_map_rows {B} (f : Z -> list B) (px : list Z) (N C : nat) :
  length px = (N * C)%nat ->
  flat_map (fun i => flat_map (fun j => f (px !!! (i * C + j)%nat)) (seq 0 C))
           (seq 0 N)
  = flat_map f px.
Proof.
  revert px. induction N as [|N IH]; intros px Hlen.
  - destruct px; [reflexivity|discriminate].
  - rewrite <- cons_seq, <- seq_shift. simpl flat_map at 1.
    rewrite flat_map_map_compose.
    transitivity (flat_map f (take C px ++ drop C px));
      [|rewrite take_drop; reflexivity].
    rewrite flat_map_app. f_equal.
    + rewrite <- flat_map_by_index by lia. reflexivity.
    + rewrite <- (IH (drop C px)) by (rewrite length_drop; lia).
      apply flat_map_ext. intros i. apply flat_map_ext. intros j.
      rewrite lookup_total_drop. do 2 f_equal. lia.
Qed.

Lemma encode_by_pixel pixels np nc :
  0 <= np -> 0 <= nc -> len pixels = np * nc ->
  flat_map (fun i =>
      flat_map (fun j => byte_symbols (pixels !!! Z.to_nat (i * nc + j)))
               (count_up 0 nc 1))
    (count_up 0 np 1)
  = encode pixels.
Proof.
  intros Hnp Hnc Hlen. rewrite !count_up_1, flat_map_map_compose.
  unfold encode.
  rewrite <- (flat_map_rows byte_symbols pixels (Z.to_nat np) (Z.to_nat nc))
    by (unfold len in Hlen; nia).
  apply flat_map_ext. intros i. rewrite flat_map_map_compose.
  apply flat_map_ext. intros j. do 2 f_equal. nia.
Qed.

(** ** Flush, channel by channel *)

Lemma set_pixDMAUint_same ws :
  WS281x.set_pixDMAUint ws (WS281x.pixDMAUint ws) = ws.
Proof. destruct ws. reflexivity. Qed.

Lemma pixel_loop_emits c L ws0 :
  0 <= c <= 1 -> WS281x_ok ws0 ->
  emits c L ws0
    (fun cur =>
       foldM (fun cur i =>
                foldM (fun cur j =>
                         foldM (WS281x.Flush_databit i j) cur (count_down 7 0))
                      cur (count_up 0 (WS281x.numColors ws0) 1))
             cur (count_up 0 (WS281x.numPixels ws0) 1))
    (encode (WS281x.pixels ws0)).
Proof.
  intros Hc (Hnp & Hnc & Hlen & _).
  rewrite <- (encode_by_pixel _ _ _ Hnp Hnc Hlen).
  apply emits_foldM. intros i Hi. apply in_count_up_1 in Hi.
  apply emits_foldM. intros j Hj. apply in_count_up_1 in Hj.
  assert (Hidx : 0 <= i * WS281x.numColors ws0 + j < len (WS281x.pixels ws0))
    by nia.
  change (byte_symbols
            (WS281x.pixels ws0 !!! Z.to_nat (i * WS281x.numColors ws0 + j)))
    with (flat_map
            (fun k => symbol_bits
               (Z.testbit
                  (WS281x.pixels ws0
                     !!! Z.to_nat (i * WS281x.numColors ws0 + j)) k))
            (count_down 7 0)).
  apply emits_foldM. intros k Hk.
  apply Flush_databit_emits; [exact Hc| |lia|].
  - simpl in Hk. lia.
  - apply list_lookup_lookup_total_lt. unfold len in Hidx. lia.
Qed.

Lemma Flush_channel_spec c ws :
  0 <= c <= 1 -> WS281x_ok ws ->
  (fits c (len (encode (WS281x.pixels ws))) (len (WS281x.pixDMAUint ws)) ->
   WS281x.Flush_channel c ws =
   (WS281x.set_pixDMAUint ws
      (write_bits (WS281x.pixDMAUint ws) c 0 (encode (WS281x.pixels ws))),
    Returned tt)) /\
  (~ fits c (len (encode (WS281x.pixels ws))) (len (WS281x.pixDMAUint ws)) ->
   exists s p, WS281x.Flush_channel c ws = (s, Panicked p)).
Proof.
  intros Hc Hok.
  destruct (pixel_loop_emits c (len (WS281x.pixDMAUint ws)) ws Hc Hok
              (WS281x.pixDMAUint ws) 0 eq_refl ltac:(lia)) as [Hrun Hpanic].
  { unfold fits. pose proof (len_nonneg (WS281x.pixDMAUint ws)).
    change ((0 + 31) / 32) with 0. lia. }
  rewrite set_pixDMAUint_same in Hrun, Hpanic.
  replace (cursor c 0) with (c, 31) in Hrun, Hpanic
    by (unfold cursor; change (0 / 32) with 0; change (0 mod 32) with 0;
        f_equal; lia).
  rewrite Z.add_0_l in Hrun, Hpanic.
  unfold WS281x.Flush_channel, bind, get. split.
  - intros Hf. rewrite (Hrun Hf). reflexivity.
  - intros Hf. destruct (Hpanic Hf) as (s & p & ->). eauto.
Qed.

Lemma WS281x_ok_set_pixDMAUint ws words :
  WS281x_ok ws -> WS281x_ok (WS281x.set_pixDMAUint ws words).
Proof. intros H. exact H. Qed.

Lemma fits_channel m L : fits 1 m L -> fits 0 m L.
Proof. unfold fits. lia. Qed.

(** The symbol buffer after a successful [Flush]: the encoding written to
    channel 0, then to channel 1. *)
Lemma Flush_encode_spec ws :
  WS281x_ok ws ->
  (fits 1 (len (encode (WS281x.pixels ws))) (len (WS281x.pixDMAUint ws)) ->
   WS281x.Flush_encode ws =
   (WS281x.set_pixDMAUint ws
      (write_bits
         (write_bits (WS281x.pixDMAUint ws) 0 0 (encode (WS281x.pixels ws)))
         1 0 (encode (WS281x.pixels ws))),
    Returned tt)) /\
  (~ fits 1 (len (encode (WS281x.pixels ws))) (len (WS281x.pixDMAUint ws)) ->
   exists s p, WS281x.Flush_encode ws = (s, Panicked p)).
Proof.
  intros Hok.
  unfold WS281x.Flush_encode.
  change (count_up 0 2 1) with [0; 1]. simpl forM_. unfold bind.
  destruct (Flush_channel_spec 0 ws ltac:(lia) Hok) as [Hrun0 Hpanic0].
  destruct (fits_dec 0 (len (encode (WS281x.pixels ws)))
              (len (WS281x.pixDMAUint ws))) as [Hf0|Hn0].
  - rewrite (Hrun0 Hf0).
    destruct (Flush_channel_spec 1
                (WS281x.set_pixDMAUint ws
                   (write_bits (WS281x.pixDMAUint ws) 0 0
                      (encode (WS281x.pixels ws))))
                ltac:(lia) (WS281x_ok_set_pixDMAUint _ _ Hok))
      as [Hrun1 Hpanic1].
    rewrite pixDMAUint_set, len_write_bits in Hrun1, Hpanic1.
    change (WS281x.pixels (WS281x.set_pixDMAUint ws _))
      with (WS281x.pixels ws) in Hrun1, Hpanic1.
    split.
    + intros Hf1. rewrite (Hrun1 Hf1). reflexivity.
    + intros Hf1. destruct (Hpanic1 Hf1) as (s & p & ->). eauto.
  - destruct (Hpanic0 Hn0) as (s & p & ->). split.
    + intros Hf1. exfalso. apply Hn0, fits_channel, Hf1.
    + intros _. eauto.
Qed.

(** ** The symbol stream of a channel *)

Lemma even_words_lookup (q : list Z) (k : nat) :
  Spec.even_words q !! k = q !! (2 * k)%nat.
Proof.
  revert q. induction k as [|k IH]; intros q.
  - destruct q as [|x [|y rest]]; reflexivity.
  - replace (2 * S k)%nat with (S (S (2 * k))) by lia.
    destruct q as [|x [|y rest]]; simpl; try reflexivity.
    apply IH.
Qed.

Lemma length_word_bits w : length (Spec.word_bits w) = 32%nat.
Proof. reflexivity. Qed.

Lemma word_bits_lookup w (r : nat) :
  (r < 32)%nat ->
  Spec.word_bits w !! r = Some (Z.testbit w (31 - Z.of_nat r)).
Proof.
  intros Hr.
  do 32 (destruct r as [|r]; [reflexivity|]). lia.
Qed.

(** The stream is made of 32-bit chunks, one per word. *)
Lemma flat_map_word_bits_lookup (ws : list Z) (m : nat) (w : Z) :
  ws !! (m / 32)%nat = Some w ->
  flat_map Spec.word_bits ws !! m = Spec.word_bits w !! (m mod 32)%nat.
Proof.
  revert m. induction ws as [|x ws IH]; intros m Hw; [discriminate|].
  change (flat_map Spec.word_bits (x :: ws))
    with (Spec.word_bits x ++ flat_map Spec.word_bits ws).
  destruct (Nat.lt_ge_cases m 32) as [Hlt|Hge].
  - rewrite Nat.div_small in Hw by exact Hlt. injection Hw as ->.
    rewrite Nat.mod_small by exact Hlt.
    apply lookup_app_l. rewrite length_word_bits. exact Hlt.
  - rewrite lookup_app_r by (rewrite length_word_bits; exact Hge).
    rewrite length_word_bits.
    assert (Hq : (m / 32 = S ((m - 32) / 32))%nat).
    { replace m with ((m - 32) + 1 * 32)%nat at 1 by lia.
      rewrite Nat.div_add by lia. lia. }
    assert (Hr : (m mod 32 = (m - 32) mod 32)%nat).
    { replace m with ((m - 32) + 1 * 32)%nat at 1 by lia.
      apply Nat.Div0.mod_add. }
    rewrite Hr. apply IH. rewrite Hq in Hw. exact Hw.
Qed.

(** Bit [m] of the stream of channel [c] is the bit [Flush] addresses as
    position [m] of that channel. *)
Lemma channel_stream_lookup (c : nat) (words : list Z) (m : nat) :
  Z.of_nat c + 2 * (Z.of_nat m / 32) < len words ->
  Spec.channel_stream c words !! m =
  Some (stream_bit words (Z.of_nat c) (Z.of_nat m)).
Proof.
  intros Hin. unfold Spec.channel_stream, Spec.channel_words, stream_bit, cursor.
  simpl fst. simpl snd.
  assert (Hdiv : Z.of_nat m / 32 = Z.of_nat (m / 32)).
  { rewrite Nat2Z.inj_div. reflexivity. }
  assert (Hmod : Z.of_nat m mod 32 = Z.of_nat (m mod 32)).
  { rewrite Nat2Z.inj_mod. reflexivity. }
  rewrite Hdiv in *. rewrite Hmod.
  set (i := (c + 2 * (m / 32))%nat).
  replace (Z.to_nat (Z.of_nat c + 2 * Z.of_nat (m / 32))) with i by lia.
  assert (Hi : (i < length words)%nat) by (unfold len in Hin; lia).
  rewrite (flat_map_word_bits_lookup _ m (words !!! i)).
  - apply word_bits_lookup. apply Nat.mod_upper_bound. lia.
  - rewrite even_words_lookup, lookup_drop. fold i.
    apply list_lookup_lookup_total_lt. exact Hi.
Qed.

Lemma prefix_from_lookup {A} (l bs : list A) :
  (forall m, (m < length bs)%nat -> l !! m = bs !! m) ->
  exists rest, l = bs ++ rest.
Proof.
  intros H. exists (drop (length bs) l).
  rewrite <- (take_drop (length bs) l) at 1. f_equal.
  apply list_eq. intros m.
  destruct (Nat.lt_ge_cases m (length bs)) as [Hlt|Hge].
  - rewrite lookup_take_lt by exact Hlt. apply H, Hlt.
  - rewrite lookup_take_ge by exact Hge. symmetry.
    apply lookup_ge_None. exact Hge.
Qed.

(** After both channels were written, each carries the encoding from its
    first bit on. *)
Lemma stream_after_Flush (words : list Z) (E : list bool) (c : nat) :
  (c <= 1)%nat ->
  fits 1 (len E) (len words) ->
  exists rest,
    Spec.channel_stream c (write_bits (write_bits words 0 0 E) 1 0 E)
    = E ++ rest.
Proof.
  intros Hc Hfit. apply prefix_from_lookup. intros m Hm.
  assert (Hfit0 : fits 0 (len E) (len words)) by (apply fits_channel, Hfit).
  assert (Hword : Z.of_nat c + 2 * (Z.of_nat m / 32) < len words).
  { unfold fits, len in *.
    assert (Z.of_nat m / 32 <= (Z.of_nat (length E) + 31) / 32 - 1).
    { replace (Z.of_nat (length E) + 31)
        with (Z.of_nat (length E) - 1 + 1 * 32) by lia.
      rewrite Z.div_add by lia.
      assert (Z.of_nat m / 32 <= (Z.of_nat (length E) - 1) / 32)
        by (apply Z.div_le_mono; lia).
      lia. }
    lia. }
  rewrite channel_stream_lookup by (rewrite !len_write_bits; exact Hword).
  rewrite stream_bit_write_bits;
    [|lia|lia|lia|lia|rewrite len_write_bits, Z.add_0_l; exact Hfit].
  rewrite stream_bit_write_bits;
    [|lia|lia|lia|lia|rewrite Z.add_0_l; exact Hfit0].
  rewrite (list_lookup_lookup_total_lt E m) by exact Hm.
  f_equal. unfold len.
  replace (0 <=? Z.of_nat m) with true by (symmetry; apply Z.leb_le; lia).
  replace (Z.of_nat m <? 0 + Z.of_nat (length E)) with true
    by (symmetry; apply Z.ltb_lt; lia).
  replace (Z.to_nat (Z.of_nat m - 0)) with m by lia.
  destruct c as [|[|c]]; [reflexivity|reflexivity|lia].
Qed.

(** ** Decoding an encoded buffer *)

Lemma decode_symbols_app (ds : list bool) (k : nat) (tail : list bool) :
  Spec.decode_symbols (length ds + k) (flat_map symbol_bits ds ++ tail) =
  match Spec.decode_symbols k tail with
  | Some ds' => Some (ds ++ ds')
  | None => None
  end.
Proof.
  induction ds as [|d ds IH]; simpl.
  - destruct (Spec.decode_symbols k tail); reflexivity.
  - rewrite IH. destruct d; simpl;
      destruct (Spec.decode_symbols k tail); reflexivity.
Qed.

Lemma decode_symbols_encode (px : list Z) (rest : list bool) :
  Spec.decode_symbols (8 * length px) (encode px ++ rest) =
  Some (flat_map byte_bits px).
Proof.
  induction px as [|b px IH].
  - reflexivity.
  - replace (8 * length (b :: px))%nat
      with (length (byte_bits b) + 8 * length px)%nat
      by (change (length (byte_bits b)) with 8%nat; simpl length; lia).
    change (encode (b :: px))
      with (flat_map symbol_bits (byte_bits b) ++ encode px).
    rewrite <- app_assoc, decode_symbols_app, IH. reflexivity.
Qed.

(** Every byte value is recovered from its eight bits. *)
Lemma byte_of_bits_all :
  forallb (fun b => Spec.byte_of_bits (byte_bits b) =? b)
          (map Z.of_nat (seq 0 256)) = true.
Proof. vm_compute. reflexivity. Qed.

Lemma byte_of_bits_byte_bits b :
  is_byte b -> Spec.byte_of_bits (byte_bits b) = b.
Proof.
  intros Hb. unfold is_byte in Hb.
  pose proof byte_of_bits_all as Hall.
  rewrite forallb_forall in Hall.
  apply Z.eqb_eq, Hall. apply in_map_iff.
  exists (Z.to_nat b). split; [lia|]. apply in_seq. lia.
Qed.

Lemma bytes_of_bits_byte_bits (px : list Z) :
  Forall is_byte px ->
  Spec.bytes_of_bits (length px) (flat_map byte_bits px) = px.
Proof.
  induction 1 as [|b px Hb _ IH]; [reflexivity|].
  change (Spec.bytes_of_bits (length (b :: px)) (flat_map byte_bits (b :: px)))
    with (Spec.byte_of_bits (byte_bits b)
          :: Spec.bytes_of_bits (length px) (flat_map byte_bits px)).
  rewrite IH, byte_of_bits_byte_bits by exact Hb. reflexivity.
Qed.

(** Decoding inverts the encoding, whatever follows it in the stream. *)
Lemma decode_encode (px : list Z) (rest : list bool) :
  Forall is_byte px ->
  Spec.decode (length px) (encode px ++ rest) = Some px.
Proof.
  intros Hpx. unfold Spec.decode.
  rewrite decode_symbols_encode, bytes_of_bits_byte_bits by exact Hpx.
  reflexivity.
Qed.

(** ** Flush as a whole *)

Lemma len_encode (px : list Z) : len (encode px) = 24 * len px.
Proof.
  unfold len. induction px as [|b px IH]; [reflexivity|].
  change (encode (b :: px)) with (byte_symbols b ++ encode px).
  rewrite length_app. change (length (byte_symbols b)) with 24%nat.
  simpl length. lia.
Qed.

(** The three ways a call of [Flush] can go. *)
Lemma Flush_run env ws log :
  WS281x_ok ws ->
  match hw_error env log WaitForDMAEnd with
  | Some e =>
      WS281x.Flush env (ws, log) =
      ((ws, log ++ [WaitForDMAEnd]),
       Returned (Some (Errorf_v "pre-DMA wait failed: " e)))
  | None =>
      (fits 1 (len (encode (WS281x.pixels ws))) (len (WS281x.pixDMAUint ws)) ->
       WS281x.Flush env (ws, log) =
       ((WS281x.set_pixDMAUint ws (flushed ws),
         (log ++ [WaitForDMAEnd]) ++ [StartDMA (WS281x.pixDMA ws) (flushed ws)]),
        Returned None)) /\
      (~ fits 1 (len (encode (WS281x.pixels ws))) (len (WS281x.pixDMAUint ws)) ->
       exists ws' p,
         WS281x.Flush env (ws, log) =
         ((ws', log ++ [WaitForDMAEnd]), Panicked p))
  end.
Proof.
  intros Hok. unfold WS281x.Flush, bind, on_snd, on_fst, hwcall, get.
  cbn [fst snd].
  destruct (hw_error env log WaitForDMAEnd) as [e|]; [reflexivity|].
  destruct (Flush_encode_spec ws Hok) as [Hrun Hpanic]. split.
  - intros Hf. cbn [fst snd]. rewrite (Hrun Hf). reflexivity.
  - intros Hf. cbn [fst snd]. destruct (Hpanic Hf) as (s & p & ->). eauto.
Qed.

(** A buffer of the size [pwmByteCount] asks for holds both channels: with
    it [Flush] does not run out of words. *)
Lemma pwmByteCount_fits sz ws freq :
  WS281x_ok ws -> 0 <= freq ->
  Spec.no_overflow sz (WS281x.numPixels ws) (WS281x.numColors ws) freq ->
  len (WS281x.pixDMAUint ws) = WS281x.pwmByteCount sz ws freq / 4 ->
  fits 1 (len (encode (WS281x.pixels ws))) (len (WS281x.pixDMAUint ws)).
Proof.
  intros (Hnp & Hnc & Hlen & _) Hf Hov Hwords.
  rewrite Hwords, pwmByteCount_closed_form by assumption.
  rewrite len_encode, Hlen. unfold fits.
  set (data := WS281x.numPixels ws * WS281x.numColors ws).
  assert (Hdata : 0 <= data) by (unfold data; nia).
  replace (3 * WS281x.numColors ws * WS281x.numPixels ws * 8)
    with (24 * data) by (unfold data; ring).
  assert (Hgap : 0 <= 55 * freq * 3 / 1000000) by (apply Z.div_pos; lia).
  set (gap := 55 * freq * 3 / 1000000) in *.
  replace (8 * ((24 * data + gap) / 32 + 1))
    with (2 * ((24 * data + gap) / 32 + 1) * 4) by ring.
  rewrite Z.div_mul by lia.
  assert ((24 * data + 31) / 32 <= (24 * data + gap) / 32 + 1).
  { replace ((24 * data + gap) / 32 + 1) with ((24 * data + gap + 1 * 32) / 32)
      by (rewrite Z.div_add by lia; reflexivity).
    apply Z.div_le_mono; lia. }
  lia.
Qed.

(** X1. After a [Flush] that returned nil, the stream of channel 0 (the
    even-indexed words, bit 31 first), cut in groups of three bits and
    decoded 110 to 1 and 100 to 0, gives back the bytes of the pixel
    buffer, most significant bit first, in storage order; this for every
    pixel buffer, every byte value at every position. *)
Theorem Flush_decode_roundtrip env ws log ws' log' :
  WS281x_ok ws ->
  WS281x.Flush env (ws, log) = ((ws', log'), Returned None) ->
  Spec.decode (length (WS281x.pixels ws))
    (Spec.channel_stream 0 (WS281x.pixDMAUint ws'))
  = Some (WS281x.pixels ws).
Proof.
  intros Hok Hrun. pose proof (Flush_run env ws log Hok) as Hcases.
  destruct (hw_error env log WaitForDMAEnd) as [e|].
  - rewrite Hcases in Hrun. discriminate.
  - destruct Hcases as [Hgood Hpanic].
    destruct (fits_dec 1 (len (encode (WS281x.pixels ws)))
                (len (WS281x.pixDMAUint ws))) as [Hf|Hf].
    + rewrite (Hgood Hf) in Hrun. injection Hrun as <- _.
      rewrite pixDMAUint_set. unfold flushed.
      destruct (stream_after_Flush (WS281x.pixDMAUint ws)
                  (encode (WS281x.pixels ws)) 0 ltac:(lia) Hf) as [rest ->].
      apply decode_encode. apply Hok.
    + destruct (Hpanic Hf) as (s & p & Hp). rewrite Hp in Hrun. discriminate.
Qed.

Lemma Flush_decode_roundtrip_witness :
  Spec.decode (length (WS281x.pixels example_flush_ws))
    (Spec.channel_stream 0
       (WS281x.pixDMAUint
          (WS281x.set_pixDMAUint example_flush_ws (flushed example_flush_ws))))
  = Some (WS281x.pixels example_flush_ws).
Proof.
  apply (Flush_decode_roundtrip (example_env all_succeed) example_flush_ws []
           (WS281x.set_pixDMAUint example_flush_ws (flushed example_flush_ws))
           [WaitForDMAEnd; StartDMA 1 (flushed example_flush_ws)]).
  - repeat split; try (vm_compute; congruence).
    repeat constructor; unfold is_byte; lia.
  - vm_compute. reflexivity.
Defined.

(** X2. [Flush] first calls [WaitForDMAEnd].  If that call fails, [Flush]
    returns its error behind "pre-DMA wait failed: ", the driver (and so
    the symbol buffer) is unchanged and no other call is made: no
    transfer is armed.  If it succeeds, [Flush] never returns an error:
    when it returns, it has written the encoding of the current pixel
    buffer from the first bit of both channels on and then made one call,
    [StartDMA], on the buffer so written; it can only stop before that by
    the panic of an index expression, when the symbol buffer has too few
    words. *)
Theorem Flush_protocol env ws log st out :
  WS281x_ok ws ->
  WS281x.Flush env (ws, log) = (st, out) ->
  exists calls,
    snd st = log ++ WaitForDMAEnd :: calls /\
    match hw_error env log WaitForDMAEnd with
    | Some e =>
        out = Returned (Some (Errorf_v "pre-DMA wait failed: " e)) /\
        fst st = ws /\ calls = []
    | None =>
        match out with
        | Returned None =>
            calls = [StartDMA (WS281x.pixDMA ws) (WS281x.pixDMAUint (fst st))] /\
            WS281x.pixels (fst st) = WS281x.pixels ws /\
            forall c, (c <= 1)%nat ->
              exists rest,
                Spec.channel_stream c (WS281x.pixDMAUint (fst st)) =
                encode (WS281x.pixels ws) ++ rest
        | Returned (Some _) => False
        | Panicked _ =>
            calls = [] /\
            ~ fits 1 (len (encode (WS281x.pixels ws)))
                (len (WS281x.pixDMAUint ws))
        end
    end.
Proof.
  intros Hok Hrun. pose proof (Flush_run env ws log Hok) as Hcases.
  destruct (hw_error env log WaitForDMAEnd) as [e|].
  - rewrite Hcases in Hrun. injection Hrun as <- <-.
    exists []. repeat split; reflexivity.
  - destruct Hcases as [Hgood Hpanic].
    destruct (fits_dec 1 (len (encode (WS281x.pixels ws)))
                (len (WS281x.pixDMAUint ws))) as [Hf|Hf].
    + rewrite (Hgood Hf) in Hrun. injection Hrun as <- <-.
      eexists. split; [simpl; rewrite <- app_assoc; reflexivity|].
      split; [reflexivity|]. split; [reflexivity|].
      intros c Hc. simpl fst. rewrite pixDMAUint_set.
      apply stream_after_Flush; assumption.
    + destruct (Hpanic Hf) as (s & p & Hp). rewrite Hp in Hrun.
      injection Hrun as <- <-. exists []. repeat split; assumption.
Qed.

Lemma Flush_protocol_witness :
  exists calls,
    [WaitForDMAEnd] = [] ++ WaitForDMAEnd :: calls /\
    Returned (Some (Errorf_v "pre-DMA wait failed: " (ExternalError "EIO"))) =
    Returned (Some (Errorf_v "pre-DMA wait failed: " (ExternalError "EIO"))) /\
    example_ws 2 RGBModel GRBOrder [1; 2; 3] =
    example_ws 2 RGBModel GRBOrder [1; 2; 3] /\
    calls = [].
Proof.
  apply (Flush_protocol (example_env wait_fails)
           (example_ws 2 RGBModel GRBOrder [1; 2; 3]) []
           (example_ws 2 RGBModel GRBOrder [1; 2; 3], [WaitForDMAEnd])
           (Returned (Some (Errorf_v "pre-DMA wait failed: "
                              (ExternalError "EIO"))))).
  - apply example_ws_ok. lia.
  - vm_compute. reflexivity.
Defined.

(** With a symbol buffer of the size [pwmByteCount] gives and a wait that
    succeeds, [Flush] returns nil. *)
Lemma Flush_returns env sz freq ws log :
  WS281x_ok ws -> 0 <= freq ->
  Spec.no_overflow sz (WS281x.numPixels ws) (WS281x.numColors ws) freq ->
  len (WS281x.pixDMAUint ws) = WS281x.pwmByteCount sz ws freq / 4 ->
  hw_error env log WaitForDMAEnd = None ->
  WS281x.Flush env (ws, log) =
  ((WS281x.set_pixDMAUint ws (flushed ws),
    (log ++ [WaitForDMAEnd]) ++ [StartDMA (WS281x.pixDMA ws) (flushed ws)]),
   Returned None).
Proof.
  intros Hok Hf Hov Hwords Hwait.
  pose proof (Flush_run env ws log Hok) as Hcases. rewrite Hwait in Hcases.
  apply Hcases. eapply pwmByteCount_fits; eassumption.
Qed.

(** ** The end-to-end scenario *)

(** The driver a successful [NewWS281x] returns. *)
Lemma NewWS281x_success env sz config log log' ws :
  WS281x.NewWS281x env sz config log = (log', Returned (inl ws)) ->
  let n := imul sz (WS281x.NumPixels config)
             (NumColors (WS281x.ColorModel_ config)) in
  0 <= n /\
  WS281x.pixels ws = replicate (Z.to_nat n) 0 /\
  WS281x.numPixels ws = WS281x.NumPixels config /\
  WS281x.numColors ws = NumColors (WS281x.ColorModel_ config) /\
  WS281x_order ws (WS281x.ColorOrder_ config).
Proof.
  intros Hrun.
  unfold WS281x.NewWS281x, NewRPi, hwcall, bind, get, ret in Hrun.
  destruct (rpi.detectHardware _) as [hw|derr] in Hrun; [|discriminate].
  case_hw env Hrun; [discriminate|].
  unfold make, panic, ret in Hrun.
  destruct (Z.ltb_spec (imul sz (WS281x.NumPixels config)
                          (NumColors (WS281x.ColorModel_ config))) 0)
    as [Hneg|Hpos] in Hrun; [discriminate|].
  cbv beta iota zeta in Hrun.
  rewrite (proj1 (offsets_index _ _)) in Hrun; cbv beta iota in Hrun.
  rewrite (proj1 (proj2 (offsets_index _ _))) in Hrun; cbv beta iota in Hrun.
  rewrite (proj1 (proj2 (proj2 (offsets_index _ _)))) in Hrun;
    cbv beta iota in Hrun.
  rewrite (proj2 (proj2 (proj2 (offsets_index _ _)))) in Hrun;
    cbv beta iota in Hrun.
  case_hw env Hrun; cbv beta iota in Hrun; [discriminate|].
  case_hw env Hrun; cbv beta iota in Hrun; [discriminate|].
  case_hw env Hrun; cbv beta iota in Hrun; [discriminate|].
  case_hw env Hrun; cbv beta iota in Hrun; [discriminate|].
  injection Hrun as _ <-. cbv zeta. simpl.
  repeat split; try assumption.
  unfold WS281x_order. simpl. destruct (WS281x.ColorOrder_ config); reflexivity.
Qed.

(** X3. A driver built for 10 pixels, RGB model, GRB order at 800000 Hz;
    pixel 0 set to (255, 0, 0); a [Flush] that returns nil.  The first 72
    PWM bits of channel 0 then decode to the bytes 0x00, 0xFF, 0x00. *)
Theorem end_to_end_scenario env sz log0 log1 ws ws1 st2 :
  WS281x.NewWS281x env sz example_config log0 = (log1, Returned (inl ws)) ->
  WS281x.SetRGBAt 0 (mkRGB 255 0 0) ws = (ws1, Returned tt) ->
  WS281x.Flush env (ws1, log1) = (st2, Returned None) ->
  Spec.decode 3
    (take 72 (Spec.channel_stream 0 (WS281x.pixDMAUint (fst st2))))
  = Some [0x00; 0xFF; 0x00].
Proof.
  intros Hnew Hset Hflush.
  apply NewWS281x_success in Hnew as (_ & Hpx & Hnp & Hnc & Hord).
  assert (H30 : imul sz (WS281x.NumPixels example_config)
                  (NumColors (WS281x.ColorModel_ example_config)) = 30)
    by (destruct sz; reflexivity).
  rewrite H30 in Hpx. clear H30.
  destruct ws as [words buf rp px np nc og or ob ow].
  simpl in Hpx, Hnp, Hnc. unfold WS281x_order in Hord. simpl in Hord.
  injection Hord as <- <- <- <-. subst px np nc.
  assert (Hws1 : ws1 = WS281x.mk words buf rp
                         ([0; 255; 0] ++ replicate 27 0) 10 3 0 1 2 (-1)).
  { vm_compute in Hset. injection Hset as <-. reflexivity. }
  subst ws1.
  assert (Hlen : len ([0; 255; 0] ++ replicate 27 0) = 10 * 3) by reflexivity.
  assert (Hbytes : Forall is_byte ([0; 255; 0] ++ replicate 27 0)).
  { simpl. repeat constructor; unfold is_byte; lia. }
  assert (Henc : encode ([0; 255; 0] ++ replicate 27 0) =
                 encode [0; 255; 0] ++ encode (replicate 27 0)) by reflexivity.
  remember ([0; 255; 0] ++ replicate 27 0) as px1 eqn:Hpx1. clear Hpx1.
  assert (Hok : WS281x_ok (WS281x.mk words buf rp px1 10 3 0 1 2 (-1))).
  { repeat split; try assumption; simpl; lia. }
  pose proof (Flush_run env _ log1 Hok) as Hcases.
  cbn [WS281x.pixDMAUint WS281x.pixels] in Hcases.
  destruct (hw_error env log1 WaitForDMAEnd) as [e|].
  - rewrite Hcases in Hflush. discriminate.
  - destruct Hcases as [Hgood Hpanic].
    destruct (fits_dec 1 (len (encode px1)) (len words)) as [Hf|Hf].
    + rewrite (Hgood Hf) in Hflush. injection Hflush as <-.
      cbn [fst]. rewrite pixDMAUint_set. unfold flushed.
      cbn [WS281x.pixDMAUint WS281x.pixels].
      destruct (stream_after_Flush words (encode px1) 0 ltac:(lia) Hf)
        as [rest ->].
      rewrite Henc, <- app_assoc.
      rewrite take_app_length' by reflexivity.
      rewrite <- (app_nil_r (encode [0; 255; 0])).
      apply (decode_encode [0; 255; 0] []).
      repeat constructor; unfold is_byte; lia.
    + destruct (Hpanic Hf) as (s & p & Hp). rewrite Hp in Hflush.
      discriminate.
Qed.

Lemma end_to_end_scenario_witness :
  Spec.decode 3
    (take 72 (Spec.channel_stream 0 (WS281x.pixDMAUint (fst scenario_flushed))))
  = Some [0x00; 0xFF; 0x00].
Proof.
  apply (end_to_end_scenario (example_env all_succeed) W32 [] scenario_log
           scenario_ws scenario_ws_set scenario_flushed).
  - vm_compute. reflexivity.
  - vm_compute. reflexivity.
  - vm_compute. reflexivity.
Defined.

(** * Further properties of the code *)

Lemma len_write_bits_twice ws :
  len (flushed ws) = len (WS281x.pixDMAUint ws).
Proof. unfold flushed. rewrite !len_write_bits. reflexivity. Qed.

(** ** Flush: what it leaves alone *)

(** X5. A [Flush] that returns nil changes nothing of the driver but the
    symbol buffer, keeps the length of that buffer, leaves every PWM bit
    after the data bits (the reset gap) of both channels as it was, and
    puts the same data bits on channel 1 as on channel 0. *)
Theorem Flush_frame env ws log ws' log' :
  WS281x_ok ws ->
  WS281x.Flush env (ws, log) = ((ws', log'), Returned None) ->
  ws' = WS281x.set_pixDMAUint ws (WS281x.pixDMAUint ws') /\
  len (WS281x.pixDMAUint ws') = len (WS281x.pixDMAUint ws) /\
  (forall c m, 0 <= c <= 1 -> 24 * len (WS281x.pixels ws) <= m ->
     stream_bit (WS281x.pixDMAUint ws') c m =
     stream_bit (WS281x.pixDMAUint ws) c m) /\
  (forall m, 0 <= m < 24 * len (WS281x.pixels ws) ->
     stream_bit (WS281x.pixDMAUint ws') 1 m =
     stream_bit (WS281x.pixDMAUint ws') 0 m).
Proof.
  intros Hok Hrun. pose proof (Flush_run env ws log Hok) as Hcases.
  destruct (hw_error env log WaitForDMAEnd) as [e|].
  { rewrite Hcases in Hrun. discriminate. }
  destruct Hcases as [Hgood Hpanic].
  destruct (fits_dec 1 (len (encode (WS281x.pixels ws)))
              (len (WS281x.pixDMAUint ws))) as [Hf|Hf].
  2:{ destruct (Hpanic Hf) as (s & p & Hp). rewrite Hp in Hrun. discriminate. }
  rewrite (Hgood Hf) in Hrun. injection Hrun as <- _.
  rewrite pixDMAUint_set.
  assert (Hf0 : fits 0 (len (encode (WS281x.pixels ws)))
                  (len (WS281x.pixDMAUint ws))) by (apply fits_channel, Hf).
  pose proof (len_encode (WS281x.pixels ws)) as HlenE.
  pose proof (len_nonneg (WS281x.pixels ws)) as Hpos.
  assert (Hbit : forall c m, 0 <= c <= 1 -> 0 <= m ->
            stream_bit (flushed ws) c m =
            if m <? len (encode (WS281x.pixels ws))
            then encode (WS281x.pixels ws) !!! Z.to_nat m
            else stream_bit (WS281x.pixDMAUint ws) c m).
  { intros c m Hc Hm. unfold flushed.
    rewrite stream_bit_write_bits;
      [|lia|lia|lia|lia|rewrite len_write_bits, Z.add_0_l; exact Hf].
    rewrite stream_bit_write_bits;
      [|lia|lia|lia|lia|rewrite Z.add_0_l; exact Hf0].
    rewrite !Z.add_0_l, Z.sub_0_r.
    replace (0 <=? m) with true by (symmetry; apply Z.leb_le; lia).
    rewrite !andb_true_r.
    destruct (Z.ltb_spec m (len (encode (WS281x.pixels ws))));
      rewrite ?andb_false_r, ?andb_true_r.
    - assert (c = 0 \/ c = 1) as [-> | ->] by lia; reflexivity.
    - reflexivity. }
  split; [reflexivity|]. split; [apply len_write_bits_twice|].
  split.
  - intros c m Hc Hm. rewrite Hbit by lia.
    replace (m <? len (encode (WS281x.pixels ws))) with false
      by (symmetry; apply Z.ltb_ge; lia).
    reflexivity.
  - intros m Hm. rewrite !Hbit by lia.
    replace (m <? len (encode (WS281x.pixels ws))) with true
      by (symmetry; apply Z.ltb_lt; lia).
    reflexivity.
Qed.

Lemma Flush_frame_witness :
  example_flush_ws_flushed =
    WS281x.set_pixDMAUint example_flush_ws
      (WS281x.pixDMAUint example_flush_ws_flushed) /\
  len (WS281x.pixDMAUint example_flush_ws_flushed) =
    len (WS281x.pixDMAUint example_flush_ws) /\
  (forall c m, 0 <= c <= 1 -> 24 * len (WS281x.pixels example_flush_ws) <= m ->
     stream_bit (WS281x.pixDMAUint example_flush_ws_flushed) c m =
     stream_bit (WS281x.pixDMAUint example_flush_ws) c m) /\
  (forall m, 0 <= m < 24 * len (WS281x.pixels example_flush_ws) ->
     stream_bit (WS281x.pixDMAUint example_flush_ws_flushed) 1 m =
     stream_bit (WS281x.pixDMAUint example_flush_ws_flushed) 0 m).
Proof.
  apply (Flush_frame (example_env all_succeed) example_flush_ws []
           example_flush_ws_flushed
           [WaitForDMAEnd; StartDMA 1 (flushed example_flush_ws)]).
  - repeat split; try (vm_compute; congruence).
    repeat constructor; unfold is_byte; lia.
  - vm_compute. reflexivity.
Defined.



(** ** Pixel accessors: bounds and frame *)

Lemma index_get_ext {S A} (l l' : list A) (k : Z) (s : S) :
  len l = len l' -> l !! Z.to_nat k = l' !! Z.to_nat k ->
  index_get l k s = index_get l' k s.
Proof.
  intros Hlen Hk. unfold index_get. rewrite Hlen, Hk. reflexivity.
Qed.

Lemma index_get_neg {S A} (l : list A) (i : Z) (s : S) :
  i < 0 -> index_get l i s = (s, Panicked (IndexOutOfRange i (len l))).
Proof.
  intros Hi. unfold index_get.
  replace (0 <=? i) with false by (symmetry; apply Z.leb_gt; exact Hi).
  reflexivity.
Qed.

Lemma index_set_out {A} (l : list A) (i : Z) (v : A) :
  i < 0 \/ len l <= i ->
  index_set l i v = Panicked (IndexOutOfRange i (len l)).
Proof.
  intros Hi. unfold index_set.
  replace ((0 <=? i) && (i <? len l)) with false; [reflexivity|].
  symmetry. apply andb_false_iff.
  destruct Hi; [left; apply Z.leb_gt|right; apply Z.ltb_ge]; assumption.
Qed.

Lemma WS281x_order_rgb ws o :
  WS281x_order ws o ->
  (0 <= WS281x.r ws <= 2 /\ 0 <= WS281x.g ws <= 2 /\ 0 <= WS281x.b ws <= 2) /\
  WS281x.r ws <> WS281x.g ws /\ WS281x.r ws <> WS281x.b ws /\
  WS281x.g ws <> WS281x.b ws.
Proof.
  unfold WS281x_order. destruct o; intros [= Hg Hr Hb Hw]; lia.
Qed.

(** X6. [SetRGBAt] on a pixel within range returns normally, changes only
    the pixel buffer, and in it only the bytes of that pixel: what [RGBAt]
    returns for any other pixel is as before. *)
Theorem SetRGBAt_frame o ws i c :
  WS281x_ok ws -> WS281x_order ws o -> 3 <= WS281x.numColors ws ->
  0 <= i < WS281x.numPixels ws ->
  exists px',
    WS281x.SetRGBAt i c ws = (WS281x.set_pixels ws px', Returned tt) /\
    len px' = len (WS281x.pixels ws) /\
    (forall k, 0 <= k ->
       k < i * WS281x.numColors ws \/ i * WS281x.numColors ws + 3 <= k ->
       px' !! Z.to_nat k = WS281x.pixels ws !! Z.to_nat k) /\
    (forall j, 0 <= j < WS281x.numPixels ws -> j <> i ->
       snd (WS281x.RGBAt j (WS281x.set_pixels ws px')) =
       snd (WS281x.RGBAt j ws)).
Proof.
  intros (Hnp & Hnc & Hlen & _) Hord Hc3 Hi.
  destruct (WS281x_order_rgb ws o Hord) as ((Hr & Hg & Hb) & _).
  destruct ws as [words buf rp px np nc og or ob ow]; simpl in *.
  destruct c as [vr vg vb].
  pose proof (pixel_slot_bounds np nc i Hi Hnc) as [Hlo Hhi].
  unfold WS281x.SetRGBAt, bind, get; simpl.
  do 3 ws_store.
  set (px' := <[Z.to_nat (i * nc + ob):=vb]>
                (<[Z.to_nat (i * nc + og):=vg]>
                   (<[Z.to_nat (i * nc + or):=vr]> px))).
  assert (Hlen' : len px' = len px)
    by (unfold px'; rewrite !len_insert; reflexivity).
  assert (Hframe : forall k, 0 <= k -> k < i * nc \/ i * nc + 3 <= k ->
                     px' !! Z.to_nat k = px !! Z.to_nat k).
  { intros k Hk Hout. clear Hlen'. subst px'. lookup_after_stores. }
  exists px'. split; [reflexivity|]. clearbody px'. split; [exact Hlen'|].
  split; [exact Hframe|].
  intros j Hj Hne.
  pose proof (pixel_slot_bounds np nc j Hj Hnc) as [Hjlo Hjhi].
  assert (Hdisj : j * nc + nc <= i * nc \/ i * nc + nc <= j * nc) by nia.
  assert (Htot : forall k, 0 <= k -> k < i * nc \/ i * nc + 3 <= k ->
                   px' !!! Z.to_nat k = px !!! Z.to_nat k).
  { intros k Hk Hout. rewrite !list_lookup_total_alt, Hframe by assumption.
    reflexivity. }
  unfold WS281x.RGBAt, bind, get, WS281x.pixels_load; simpl.
  assert (Hin : forall off, 0 <= off <= 2 ->
                  0 <= j * nc + off < len px /\ 0 <= j * nc + off < len px' /\
                  (j * nc + off < i * nc \/ i * nc + 3 <= j * nc + off))
    by (intros off Hoff; lia).
  destruct (Hin or Hr) as (Hr1 & Hr2 & Hr3).
  destruct (Hin og Hg) as (Hg1 & Hg2 & Hg3).
  destruct (Hin ob Hb) as (Hb1 & Hb2 & Hb3).
  rewrite (index_get_total px' _ _ Hr2), (index_get_total px _ _ Hr1).
  cbv beta iota. simpl WS281x.pixels.
  rewrite (index_get_total px' _ _ Hg2), (index_get_total px _ _ Hg1).
  cbv beta iota. simpl WS281x.pixels.
  rewrite (index_get_total px' _ _ Hb2), (index_get_total px _ _ Hb1).
  simpl. rewrite !Htot by lia. reflexivity.
Qed.

Lemma SetRGBAt_frame_witness :
  exists px',
    WS281x.SetRGBAt 1 (mkRGB 9 8 7) (example_ws 3 RGBModel BGROrder []) =
    (WS281x.set_pixels (example_ws 3 RGBModel BGROrder []) px', Returned tt).
Proof.
  destruct (SetRGBAt_frame BGROrder (example_ws 3 RGBModel BGROrder []) 1
              (mkRGB 9 8 7)) as (px' & Hrun & _).
  - apply example_ws_ok. lia.
  - reflexivity.
  - evaluate.
  - evaluate.
  - exists px'. exact Hrun.
Defined.



(** X8. With a colour order that has no white position (offset -1, the
    six RGB orders), the RGBW accessors cannot be used on the first pixel:
    [RGBWAt] reads R, G and B and panics on the index -1 of the white
    byte, and [SetRGBWAt] has stored R, G and B when it panics there. *)
Theorem RGBW_accessors_without_white_offset o ws c :
  WS281x_ok ws -> WS281x_order ws o -> o <> GRBWOrder ->
  3 <= WS281x.numColors ws -> 1 <= WS281x.numPixels ws ->
  WS281x.RGBWAt 0 ws =
    (ws, Panicked (IndexOutOfRange (-1) (len (WS281x.pixels ws)))) /\
  exists px',
    WS281x.SetRGBWAt 0 c ws =
      (WS281x.set_pixels ws px',
       Panicked (IndexOutOfRange (-1) (len (WS281x.pixels ws)))) /\
    WS281x.RGBAt 0 (WS281x.set_pixels ws px') =
      (WS281x.set_pixels ws px',
       Returned (mkRGB (rgbw_R c) (rgbw_G c) (rgbw_B c))).
Proof.
  intros (Hnp & Hnc & Hlen & _) Hord Hnow Hc3 Hp1.
  destruct ws as [words buf rp px np nc og or ob ow]; simpl in *.
  destruct c as [vr vg vb vw].
  assert (Hbig : 3 <= np * nc) by nia.
  unfold WS281x.RGBWAt, WS281x.SetRGBWAt, WS281x.RGBAt, bind, get; simpl.
  destruct o; try congruence; injection Hord as <- <- <- <-;
    (split;
     [ unfold WS281x.pixels_load; simpl;
       repeat (rewrite index_get_total by lia; cbv beta iota; simpl);
       rewrite ?index_get_neg by lia; rewrite ?Z.mul_0_l; reflexivity
     | do 3 ws_store;
       unfold WS281x.pixels_store at 1; simpl;
       rewrite ?index_set_out by lia; rewrite ?Z.mul_0_l;
       eexists; (split; [rewrite ?len_insert; reflexivity|]);
       (do 3 ws_load); reflexivity ]).
Qed.

Lemma RGBW_accessors_without_white_offset_witness :
  WS281x.RGBWAt 0 (example_ws 2 RGBModel RGBOrder []) =
  (example_ws 2 RGBModel RGBOrder [], Panicked (IndexOutOfRange (-1) 6)).
Proof.
  refine (proj1 (RGBW_accessors_without_white_offset RGBOrder
                   (example_ws 2 RGBModel RGBOrder []) (mkRGBW 1 2 3 4)
                   _ _ _ _ _)).
  - apply example_ws_ok. lia.
  - reflexivity.
  - discriminate.
  - evaluate.
  - evaluate.
Defined.

(** ** The bulk RGB setter *)

Lemma count_up_3 n :
  0 <= n -> count_up 0 (3 * n) 3 =
            map (fun k => 0 + Z.of_nat k * 3) (seq 0 (Z.to_nat n)).
Proof.
  intros Hn. unfold count_up. do 2 f_equal.
  replace (3 * n - 0 + 3 - 1) with (2 + n * 3) by lia.
  rewrite Z.div_add by lia. reflexivity.
Qed.

Lemma set_pixels_twice ws px px' :
  WS281x.set_pixels (WS281x.set_pixels ws px) px' = WS281x.set_pixels ws px'.
Proof. reflexivity. Qed.

Lemma set_pixels_same ws : WS281x.set_pixels ws (WS281x.pixels ws) = ws.
Proof. destruct ws. reflexivity. Qed.

(** One iteration of the loop of [SetRGBs]. *)
Lemma SetRGBs_step ws (input : list RGB) (t : nat) (c : RGB) (px : list Z) :
  input !! t = Some c ->
  Z.of_nat t * 3 + 3 <= len px ->
  (0 <= WS281x.r ws <= 2 /\ 0 <= WS281x.g ws <= 2 /\ 0 <= WS281x.b ws <= 2) ->
  (let* p := index_get input (Z.of_nat t) in
   WS281x.pixels_store (0 + Z.of_nat t * 3 + WS281x.r ws) (rgb_R p) >>>
   let* p := index_get input (Z.of_nat t) in
   WS281x.pixels_store (0 + Z.of_nat t * 3 + WS281x.g ws) (rgb_G p) >>>
   let* p := index_get input (Z.of_nat t) in
   WS281x.pixels_store (0 + Z.of_nat t * 3 + WS281x.b ws) (rgb_B p) >>>
   ret (Z.of_nat t + 1)) (WS281x.set_pixels ws px) =
  (WS281x.set_pixels ws
     (store_RGB (WS281x.r ws) (WS281x.g ws) (WS281x.b ws) px
        (Z.of_nat t * 3) c),
   Returned (Z.of_nat (S t))).
Proof.
  intros Hin Hlen (Hr & Hg & Hb). unfold bind.
  rewrite !(index_get_ok input (Z.of_nat t) c)
    by (try lia; rewrite Nat2Z.id; exact Hin).
  rewrite WS281x_pixels_store_ok by (simpl; lia).
  rewrite set_pixels_twice. cbv beta iota.
  rewrite !(index_get_ok input (Z.of_nat t) c)
    by (try lia; rewrite Nat2Z.id; exact Hin).
  rewrite WS281x_pixels_store_ok by (simpl; rewrite len_insert; lia).
  rewrite set_pixels_twice. cbv beta iota.
  rewrite !(index_get_ok input (Z.of_nat t) c)
    by (try lia; rewrite Nat2Z.id; exact Hin).
  rewrite WS281x_pixels_store_ok by (simpl; rewrite !len_insert; lia).
  rewrite set_pixels_twice. cbv beta iota. simpl WS281x.pixels.
  unfold ret, store_RGB. rewrite !Z.add_0_l.
  repeat f_equal. lia.
Qed.

Lemma store_RGB_lookup r g b px base c :
  0 <= base -> base + 3 <= len px ->
  (0 <= r <= 2 /\ 0 <= g <= 2 /\ 0 <= b <= 2) ->
  r <> g /\ r <> b /\ g <> b ->
  len (store_RGB r g b px base c) = len px /\
  store_RGB r g b px base c !! Z.to_nat (base + r) = Some (rgb_R c) /\
  store_RGB r g b px base c !! Z.to_nat (base + g) = Some (rgb_G c) /\
  store_RGB r g b px base c !! Z.to_nat (base + b) = Some (rgb_B c) /\
  (forall k, 0 <= k -> k < base \/ base + 3 <= k ->
     store_RGB r g b px base c !! Z.to_nat k = px !! Z.to_nat k).
Proof.
  intros Hbase Hlen (Hr & Hg & Hb) (Hrg & Hrb & Hgb). unfold store_RGB.
  split; [rewrite !len_insert; reflexivity|].
  repeat split; try (intros k Hk Hout); lookup_after_stores.
Qed.

(** The loop of [SetRGBs] from pixel [t] on, [k] pixels to go. *)
Lemma SetRGBs_loop ws (input : list RGB) (k t : nat) (px : list Z) :
  (t + k = length input)%nat ->
  Z.of_nat (length input) * 3 = len px ->
  (0 <= WS281x.r ws <= 2 /\ 0 <= WS281x.g ws <= 2 /\ 0 <= WS281x.b ws <= 2) ->
  WS281x.r ws <> WS281x.g ws /\ WS281x.r ws <> WS281x.b ws /\
  WS281x.g ws <> WS281x.b ws ->
  exists px',
    foldM (fun a i =>
        let* p := index_get input a in
        WS281x.pixels_store (i + WS281x.r ws) (rgb_R p) >>>
        let* p := index_get input a in
        WS281x.pixels_store (i + WS281x.g ws) (rgb_G p) >>>
        let* p := index_get input a in
        WS281x.pixels_store (i + WS281x.b ws) (rgb_B p) >>>
        ret (a + 1))
      (Z.of_nat t) (map (fun n => 0 + Z.of_nat n * 3) (seq t k))
      (WS281x.set_pixels ws px)
    = (WS281x.set_pixels ws px', Returned (Z.of_nat (t + k))) /\
    len px' = len px /\
    (forall idx, 0 <= idx < Z.of_nat t * 3 ->
       px' !! Z.to_nat idx = px !! Z.to_nat idx) /\
    (forall p c, (t <= p < t + k)%nat -> input !! p = Some c ->
       px' !! Z.to_nat (Z.of_nat p * 3 + WS281x.r ws) = Some (rgb_R c) /\
       px' !! Z.to_nat (Z.of_nat p * 3 + WS281x.g ws) = Some (rgb_G c) /\
       px' !! Z.to_nat (Z.of_nat p * 3 + WS281x.b ws) = Some (rgb_B c)).
Proof.
  intros Htk Hlen Hoff Hdist. revert t px Htk Hlen.
  induction k as [|k IH]; intros t px Htk Hlen.
  - exists px. simpl. rewrite Nat.add_0_r.
    repeat split; try reflexivity; intros; lia.
  - assert (Ht : (t < length input)%nat) by lia.
    destruct (lookup_lt_is_Some_2 input t Ht) as [c Hc].
    simpl seq. simpl map. simpl foldM. unfold bind at 1. cbv beta.
    rewrite (SetRGBs_step ws input t c px Hc ltac:(lia) Hoff).
    destruct (store_RGB_lookup (WS281x.r ws) (WS281x.g ws) (WS281x.b ws) px
                (Z.of_nat t * 3) c ltac:(lia) ltac:(lia) Hoff Hdist)
      as (Hl1 & HR & HG & HB & Hframe1).
    destruct (IH (S t) _ ltac:(lia) ltac:(rewrite Hl1; exact Hlen))
      as (px' & Hrun & Hl' & Hlow & Hhigh).
    exists px'. rewrite Hrun.
    split; [do 2 f_equal; lia|]. split; [congruence|]. split.
    + intros idx Hidx. rewrite Hlow by lia. apply Hframe1; lia.
    + intros p c' Hp Hc'. destruct (Nat.eq_dec p t) as [->|Hne].
      * assert (c' = c) by congruence. subst c'.
        destruct Hoff as (Hr & Hg & Hb).
        rewrite !Hlow by lia. auto.
      * apply Hhigh; [lia|exact Hc'].
Qed.

(** X9. [SetRGBs] on a three-channel driver, given as many pixels as the
    strip has, returns normally, changes only the pixel buffer, and
    afterwards [RGBAt] returns for every pixel the value given for it. *)
Theorem SetRGBs_sets_every_pixel o ws (input : list RGB) :
  WS281x_ok ws -> WS281x_order ws o -> WS281x.numColors ws = 3 ->
  len input = WS281x.numPixels ws ->
  exists px',
    WS281x.SetRGBs input ws = (WS281x.set_pixels ws px', Returned tt) /\
    len px' = len (WS281x.pixels ws) /\
    forall p c, input !! p = Some c ->
      WS281x.RGBAt (Z.of_nat p) (WS281x.set_pixels ws px') =
      (WS281x.set_pixels ws px', Returned c).
Proof.
  intros (Hnp & Hnc & Hlen & _) Hord Hc3 Hin.
  destruct (WS281x_order_rgb ws o Hord) as (Hoff & Hdist).
  unfold WS281x.SetRGBs. unfold bind at 1. unfold get. cbv beta iota.
  rewrite Hc3, Hin, !Z.eqb_refl. simpl negb. cbv iota.
  rewrite Hlen, Hc3, Z.mul_comm, count_up_3 by exact Hnp.
  rewrite <- Hin. unfold len at 1. rewrite Nat2Z.id.
  change (negb true) with false. cbv beta iota.
  unfold bind at 1.
  destruct (SetRGBs_loop ws input (length input) 0 (WS281x.pixels ws))
    as (px' & Hrun & Hl' & _ & Hset);
    [lia|unfold len in Hin; lia|exact Hoff|exact Hdist|].
  rewrite set_pixels_same in Hrun. change (Z.of_nat 0) with 0 in Hrun.
  rewrite Hrun. exists px'. split; [reflexivity|].
  split; [rewrite Hl', Hlen, Hc3; lia|].
  intros p c Hp. destruct c as [vr vg vb].
  destruct (Hset p _ ltac:(apply lookup_lt_Some in Hp; lia) Hp)
    as (HR & HG & HB). simpl in HR, HG, HB.
  unfold WS281x.RGBAt, bind, get. simpl WS281x.numColors. rewrite Hc3.
  simpl WS281x.r. simpl WS281x.g. simpl WS281x.b.
  destruct Hoff as (Hr & Hg & Hb).
  rewrite (WS281x_pixels_load_ok _ _ vr) by (try lia; exact HR).
  rewrite (WS281x_pixels_load_ok _ _ vg) by (try lia; exact HG).
  rewrite (WS281x_pixels_load_ok _ _ vb) by (try lia; exact HB).
  reflexivity.
Qed.

Lemma SetRGBs_sets_every_pixel_witness :
  exists px',
    WS281x.SetRGBs [mkRGB 1 2 3; mkRGB 4 5 6]
      (example_ws 2 RGBModel RBGOrder []) =
    (WS281x.set_pixels (example_ws 2 RGBModel RBGOrder []) px', Returned tt).
Proof.
  destruct (SetRGBs_sets_every_pixel RBGOrder
              (example_ws 2 RGBModel RBGOrder [])
              [mkRGB 1 2 3; mkRGB 4 5 6]) as (px' & Hrun & _).
  - apply example_ws_ok. lia.
  - reflexivity.
  - reflexivity.
  - reflexivity.
  - exists px'. exact Hrun.
Defined.

(** ** Construction and Close *)

Lemma imul_small sz a b :
  0 <= a * b < modulus sz / 2 -> imul sz a b = a * b.
Proof.
  intros H. unfold imul, to_int.
  assert (Hm : modulus sz = 2 * (modulus sz / 2)) by (destruct sz; reflexivity).
  rewrite Z.mod_small by lia. lia.
Qed.

(** The byte count depends on the pixel and colour counts only. *)
Lemma pwmByteCount_fields sz ws ws' freq :
  WS281x.numPixels ws = WS281x.numPixels ws' ->
  WS281x.numColors ws = WS281x.numColors ws' ->
  WS281x.pwmByteCount sz ws freq = WS281x.pwmByteCount sz ws' freq.
Proof. intros Hp Hc. unfold WS281x.pwmByteCount. rewrite Hp, Hc. reflexivity. Qed.

(** The calls of a successful [NewWS281x] and the buffer it keeps. *)
Lemma NewWS281x_success_log env sz config log log' ws :
  WS281x.NewWS281x env sz config log = (log', Returned (inl ws)) ->
  let bytes := WS281x.pwmByteCount sz ws (WS281x.PWMFrequency config) in
  let before := log ++ [ReadModelFile; MboxOpen] in
  log' = before ++ [GetDMABuf bytes; InitDMA (WS281x.DMAChannel config);
                    InitGPIO;
                    InitPWM (WS281x.PWMFrequency config) (WS281x.pixDMA ws)
                      bytes (WS281x.GPIOPins config)] /\
  WS281x.pixDMA ws = dma_handle (hw_dmabuf env before bytes) /\
  WS281x.pixDMAUint ws = dma_words (hw_dmabuf env before bytes).
Proof.
  intros Hrun.
  unfold WS281x.NewWS281x, NewRPi, hwcall, bind, get, ret in Hrun.
  destruct (rpi.detectHardware _) as [hw|derr] in Hrun; [|discriminate].
  case_hw env Hrun; [discriminate|].
  unfold make, panic, ret in Hrun.
  destruct (_ <? 0) in Hrun; [discriminate|].
  cbv beta iota zeta in Hrun.
  rewrite (proj1 (offsets_index _ _)) in Hrun; cbv beta iota in Hrun.
  rewrite (proj1 (proj2 (offsets_index _ _))) in Hrun; cbv beta iota in Hrun.
  rewrite (proj1 (proj2 (proj2 (offsets_index _ _)))) in Hrun;
    cbv beta iota in Hrun.
  rewrite (proj2 (proj2 (proj2 (offsets_index _ _)))) in Hrun;
    cbv beta iota in Hrun.
  match type of Hrun with
  | context [GetDMABuf (WS281x.pwmByteCount sz ?wa ?f)] =>
      set (wa0 := wa) in *;
      set (nbytes := WS281x.pwmByteCount sz wa0 f) in *
  end.
  case_hw env Hrun; cbv beta iota in Hrun; [discriminate|].
  case_hw env Hrun; cbv beta iota in Hrun; [discriminate|].
  case_hw env Hrun; cbv beta iota in Hrun; [discriminate|].
  case_hw env Hrun; cbv beta iota in Hrun; [discriminate|].
  injection Hrun as <- <-. cbv zeta.
  match goal with
  | |- context [WS281x.pwmByteCount sz ?w ?f] =>
      replace (WS281x.pwmByteCount sz w f) with nbytes
        by (subst nbytes; apply pwmByteCount_fields; reflexivity)
  end.
  clearbody nbytes. clear wa0.
  cbn [WS281x.pixDMA WS281x.pixDMAUint].
  norm_logs. repeat split; reflexivity.
Qed.



(** X11. Building a driver and closing it: [Close] stops the PWM, then
    releases the buffer the constructor was given, once; apart from that
    call no [FreeDMABuf] is made from construction to close.  The driver
    is unchanged, and [Close] returns an error exactly when that release
    failed (the result of [StopPWM] is not looked at). *)
Theorem Close_after_NewWS281x env sz config log log1 ws st out :
  WS281x.NewWS281x env sz config log = (log1, Returned (inl ws)) ->
  WS281x.Close env (ws, log1) = (st, out) ->
  exists calls,
    snd st = log ++ calls ++ [StopPWM; FreeDMABuf (WS281x.pixDMA ws)] /\
    log1 = log ++ calls /\
    filter is_FreeDMABuf calls = [] /\
    In (GetDMABuf (WS281x.pwmByteCount sz ws (WS281x.PWMFrequency config)))
       calls /\
    fst st = ws /\
    out = Returned
            (match hw_error env (log1 ++ [StopPWM])
                     (FreeDMABuf (WS281x.pixDMA ws)) with
             | Some e => Some (Errorf_v "couldn't free DMA buffer: " e)
             | None => None
             end).
Proof.
  intros Hnew Hclose.
  destruct (NewWS281x_success_log env sz config log log1 ws Hnew)
    as (Hlog & _ & _).
  unfold WS281x.Close, bind, on_snd, hwcall, get in Hclose.
  cbn [fst snd] in Hclose.
  cbv zeta in Hlog. rewrite <- app_assoc in Hlog.
  match type of Hlog with _ = log ++ ?c => exists c end.
  assert (Hst : st = (ws, (log1 ++ [StopPWM])
                             ++ [FreeDMABuf (WS281x.pixDMA ws)]) /\
                out = Returned
                        (match hw_error env (log1 ++ [StopPWM])
                                 (FreeDMABuf (WS281x.pixDMA ws)) with
                         | Some e =>
                             Some (Errorf_v "couldn't free DMA buffer: " e)
                         | None => None
                         end)).
  { destruct (hw_error env (log1 ++ [StopPWM]) _);
      injection Hclose as <- <-; split; reflexivity. }
  destruct Hst as [-> ->]. cbn [fst snd].
  split; [rewrite Hlog at 1; rewrite <- !app_assoc; reflexivity|].
  split; [exact Hlog|]. split; [reflexivity|].
  split; [simpl; tauto|]. split; reflexivity.
Qed.

Lemma Close_after_NewWS281x_witness :
  exists calls,
    scenario_log ++ [StopPWM; FreeDMABuf 1] =
      [] ++ calls ++ [StopPWM; FreeDMABuf (WS281x.pixDMA scenario_ws)] /\
    scenario_log = [] ++ calls.
Proof.
  destruct (Close_after_NewWS281x (example_env all_succeed) W32 example_config
              [] scenario_log scenario_ws
              (scenario_ws, scenario_log ++ [StopPWM; FreeDMABuf 1])
              (Returned None)) as (calls & H1 & H2 & _).
  - vm_compute. reflexivity.
  - vm_compute. reflexivity.
  - exists calls. split; assumption.
Defined.



(** ** ledctl.go: abs, ToUint32, String, StringToOrder *)

Lemma modulus_half sz : modulus sz = 2 * (modulus sz / 2) /\ 0 < modulus sz / 2.
Proof. destruct sz; vm_compute; split; reflexivity. Qed.

Lemma to_int_id sz x : min_int sz <= x <= max_int sz -> to_int sz x = x.
Proof.
  unfold to_int, min_int, max_int. intros H.
  destruct (modulus_half sz) as [Hm Hpos].
  rewrite Z.mod_small by lia. lia.
Qed.

(** X13. [abs] on a machine [int]: the absolute value, except for the
    least [int], whose negation wraps around: [abs] returns it unchanged,
    a negative number. *)
Theorem abs_machine_int sz i :
  min_int sz <= i <= max_int sz ->
  (i <> min_int sz -> abs sz i = Z.abs i /\ 0 <= abs sz i) /\
  (i = min_int sz -> abs sz i = min_int sz /\ abs sz i < 0).
Proof.
  intros Hi. destruct (modulus_half sz) as [Hm Hpos].
  unfold abs, ineg. split.
  - intros Hne. destruct (Z.ltb_spec i 0).
    + rewrite to_int_id by (unfold min_int, max_int in *; lia). lia.
    + lia.
  - intros ->. unfold min_int in *.
    destruct (Z.ltb_spec (- (modulus sz / 2)) 0); [|lia].
    unfold to_int. rewrite Z.opp_involutive.
    replace (modulus sz / 2 + modulus sz / 2) with (1 * modulus sz) by lia.
    rewrite Z.mod_mul by lia. lia.
Qed.

Lemma abs_machine_int_witness :
  abs W32 (-2147483648) = -2147483648 /\ abs W32 (-5) = 5.
Proof.
  split.
  - refine (proj1 (proj2 (abs_machine_int W32 (-2147483648) _) _));
      vm_compute; [split; discriminate | reflexivity].
  - refine (proj1 (proj1 (abs_machine_int W32 (-5) _) _));
      vm_compute; [split; discriminate | discriminate].
Defined.

Lemma land_shifted_low a b n :
  0 <= n -> 0 <= b < 2 ^ n -> Z.land (a * 2 ^ n) b = 0.
Proof.
  intros Hn Hb. apply Z.bits_inj'. intros i Hi.
  rewrite Z.land_spec, Z.bits_0.
  destruct (Z.lt_ge_cases i n) as [Hlt|Hge].
  - rewrite Z.mul_pow2_bits_low by lia. reflexivity.
  - destruct (Z.eq_dec b 0) as [->|Hb0].
    + rewrite Z.bits_0. apply andb_false_r.
    + rewrite (Z.bits_above_log2 b i); [apply andb_false_r|lia|].
      apply Z.lt_le_trans with n; [|lia].
      apply Z.log2_lt_pow2; lia.
Qed.

Lemma lor_shifted_low a b n :
  0 <= n -> 0 <= b < 2 ^ n -> Z.lor (a * 2 ^ n) b = a * 2 ^ n + b.
Proof.
  intros Hn Hb.
  rewrite <- Z.lxor_lor by (apply land_shifted_low; assumption).
  symmetry. apply Z.add_nocarry_lxor, land_shifted_low; assumption.
Qed.

Lemma u32_shiftl_byte v n :
  is_byte v -> 0 <= n <= 24 -> u32 (Z.shiftl v n) = v * 2 ^ n.
Proof.
  unfold is_byte, u32. intros Hv Hn. rewrite Z.shiftl_mul_pow2 by lia.
  apply Z.mod_small.
  assert (0 < 2 ^ n) by (apply Z.pow_pos_nonneg; lia).
  assert (2 ^ n <= 2 ^ 24) by (apply Z.pow_le_mono_r; lia).
  change (2 ^ 32) with (256 * 2 ^ 24). nia.
Qed.

Lemma RGBW_ToUint32_sum p :
  RGBW_ok p ->
  RGBW_ToUint32 p =
    rgbw_R p * 2 ^ 24 + rgbw_G p * 2 ^ 16 + rgbw_B p * 2 ^ 8 + rgbw_W p.
Proof.
  intros (HR & HG & HB & HW). unfold RGBW_ToUint32.
  rewrite !u32_shiftl_byte by (assumption || lia).
  unfold is_byte in *.
  rewrite <- !Z.lor_assoc.
  rewrite (lor_shifted_low (rgbw_B p) (rgbw_W p) 8)
    by (change (2 ^ 8) with 256; lia).
  rewrite (lor_shifted_low (rgbw_G p) _ 16)
    by (change (2 ^ 8) with 256; change (2 ^ 16) with 65536; lia).
  rewrite (lor_shifted_low (rgbw_R p) _ 24)
    by (change (2 ^ 8) with 256; change (2 ^ 16) with 65536;
        change (2 ^ 24) with 16777216; lia).
  lia.
Qed.

Lemma RGB_ToUint32_sum p :
  RGB_ok p ->
  RGB_ToUint32 p = rgb_R p * 2 ^ 16 + rgb_G p * 2 ^ 8 + rgb_B p.
Proof.
  intros (HR & HG & HB). unfold RGB_ToUint32.
  rewrite !u32_shiftl_byte by (assumption || lia).
  unfold is_byte in *.
  rewrite <- Z.lor_assoc.
  rewrite (lor_shifted_low (rgb_G p) (rgb_B p) 8)
    by (change (2 ^ 8) with 256; lia).
  rewrite lor_shifted_low by (change (2 ^ 8) with 256;
                              change (2 ^ 16) with 65536; lia).
  lia.
Qed.

(** X14. [RGBW.ToUint32] packs the four components as 0xrrggbbww: the
    result is a [uint32] from which each component is read back, so two
    pixels with the same word are equal. *)
Theorem RGBW_ToUint32_unpack p :
  RGBW_ok p ->
  0 <= RGBW_ToUint32 p < 2 ^ 32 /\
  Z.shiftr (RGBW_ToUint32 p) 24 = rgbw_R p /\
  Z.land (Z.shiftr (RGBW_ToUint32 p) 16) 0xFF = rgbw_G p /\
  Z.land (Z.shiftr (RGBW_ToUint32 p) 8) 0xFF = rgbw_B p /\
  Z.land (RGBW_ToUint32 p) 0xFF = rgbw_W p /\
  (forall q, RGBW_ok q -> RGBW_ToUint32 q = RGBW_ToUint32 p -> q = p).
Proof.
  intros Hp.
  assert (Hun : forall q, RGBW_ok q ->
            0 <= RGBW_ToUint32 q < 2 ^ 32 /\
            RGBW_ToUint32 q / 2 ^ 24 = rgbw_R q /\
            (RGBW_ToUint32 q / 2 ^ 16) mod 256 = rgbw_G q /\
            (RGBW_ToUint32 q / 2 ^ 8) mod 256 = rgbw_B q /\
            RGBW_ToUint32 q mod 256 = rgbw_W q).
  { intros q Hq. rewrite (RGBW_ToUint32_sum q Hq).
    destruct Hq as (HR & HG & HB & HW). unfold is_byte in *.
    change (2 ^ 32) with 4294967296. change (2 ^ 24) with 16777216.
    change (2 ^ 16) with 65536. change (2 ^ 8) with 256.
    repeat split; try lia.
    - symmetry. apply (Z.div_unique _ _ _
        (rgbw_G q * 65536 + rgbw_B q * 256 + rgbw_W q)); lia.
    - rewrite <- (Z.div_unique
        (rgbw_R q * 16777216 + rgbw_G q * 65536 + rgbw_B q * 256 + rgbw_W q)
        65536 (rgbw_R q * 256 + rgbw_G q)
        (rgbw_B q * 256 + rgbw_W q)) by lia.
      symmetry. apply (Z.mod_unique _ _ (rgbw_R q)); lia.
    - rewrite <- (Z.div_unique
        (rgbw_R q * 16777216 + rgbw_G q * 65536 + rgbw_B q * 256 + rgbw_W q)
        256 (rgbw_R q * 65536 + rgbw_G q * 256 + rgbw_B q)
        (rgbw_W q)) by lia.
      symmetry. apply (Z.mod_unique _ _ (rgbw_R q * 256 + rgbw_G q)); lia.
    - symmetry. apply (Z.mod_unique _ _
        (rgbw_R q * 65536 + rgbw_G q * 256 + rgbw_B q)); lia. }
  change 0xFF with (Z.ones 8). rewrite !Z.land_ones, !Z.shiftr_div_pow2 by lia.
  destruct (Hun p Hp) as (Hr & HR & HG & HB & HW).
  assert (Hinj : forall q, RGBW_ok q ->
            RGBW_ToUint32 q = RGBW_ToUint32 p -> q = p); [|clear Hun].
  2:{ change (2 ^ 8) with 256 in *.
      repeat split; try assumption; try lia. }
  intros q Hq Heq.
  destruct (Hun q Hq) as (_ & HR' & HG' & HB' & HW').
  rewrite Heq in *. destruct p, q; simpl in *. congruence.
Qed.

Lemma RGBW_ToUint32_unpack_witness :
  Z.shiftr (RGBW_ToUint32 (mkRGBW 0x12 0x34 0x56 0x78)) 24 = 0x12.
Proof.
  refine (proj1 (proj2 (RGBW_ToUint32_unpack (mkRGBW 0x12 0x34 0x56 0x78) _))).
  vm_compute. intuition discriminate.
Defined.

(** X15. [RGB.ToUint32] packs the three components as 0xrrggbb: the
    result is below 2^24, each component is read back from it, and two
    pixels with the same word are equal. *)
Theorem RGB_ToUint32_unpack p :
  RGB_ok p ->
  0 <= RGB_ToUint32 p < 2 ^ 24 /\
  Z.shiftr (RGB_ToUint32 p) 16 = rgb_R p /\
  Z.land (Z.shiftr (RGB_ToUint32 p) 8) 0xFF = rgb_G p /\
  Z.land (RGB_ToUint32 p) 0xFF = rgb_B p /\
  (forall q, RGB_ok q -> RGB_ToUint32 q = RGB_ToUint32 p -> q = p).
Proof.
  intros Hp.
  assert (Hun : forall q, RGB_ok q ->
            0 <= RGB_ToUint32 q < 2 ^ 24 /\
            RGB_ToUint32 q / 2 ^ 16 = rgb_R q /\
            (RGB_ToUint32 q / 2 ^ 8) mod 256 = rgb_G q /\
            RGB_ToUint32 q mod 256 = rgb_B q).
  { intros q Hq. rewrite (RGB_ToUint32_sum q Hq).
    destruct Hq as (HR & HG & HB). unfold is_byte in *.
    change (2 ^ 24) with 16777216.
    change (2 ^ 16) with 65536. change (2 ^ 8) with 256.
    repeat split; try lia.
    - symmetry. apply (Z.div_unique _ _ _ (rgb_G q * 256 + rgb_B q)); lia.
    - rewrite <- (Z.div_unique
        (rgb_R q * 65536 + rgb_G q * 256 + rgb_B q)
        256 (rgb_R q * 256 + rgb_G q) (rgb_B q)) by lia.
      symmetry. apply (Z.mod_unique _ _ (rgb_R q)); lia.
    - symmetry. apply (Z.mod_unique _ _ (rgb_R q * 256 + rgb_G q)); lia. }
  change 0xFF with (Z.ones 8). rewrite !Z.land_ones, !Z.shiftr_div_pow2 by lia.
  destruct (Hun p Hp) as (Hr & HR & HG & HB).
  assert (Hinj : forall q, RGB_ok q ->
            RGB_ToUint32 q = RGB_ToUint32 p -> q = p); [|clear Hun].
  2:{ change (2 ^ 8) with 256 in *.
      repeat split; try assumption; try lia. }
  intros q Hq Heq.
  destruct (Hun q Hq) as (_ & HR' & HG' & HB').
  rewrite Heq in *. destruct p, q; simpl in *. congruence.
Qed.

Lemma RGB_ToUint32_unpack_witness :
  Z.shiftr (RGB_ToUint32 (mkRGB 0xAB 0xCD 0xEF)) 16 = 0xAB.
Proof.
  refine (proj1 (proj2 (RGB_ToUint32_unpack (mkRGB 0xAB 0xCD 0xEF) _))).
  vm_compute. intuition discriminate.
Defined.

(** A successful lookup returns an entry of the table. *)
Lemma StringToOrder_entries s o :
  map_lookup StringToOrder s = Some o ->
  In (s, o) StringToOrder.
Proof.
  unfold StringToOrder. cbn [map_lookup].
  repeat match goal with
         | |- context [String.eqb ?k s] =>
             destruct (String.eqb_spec k s) as [<-|_]
         end;
    intros [= <-] || discriminate; cbn; tauto.
Qed.

(** X16. The two tables [StringToOrder] and [offsets] agree: the name
    under which an order is registered has 'G', 'R' and 'B' at the byte
    offsets the order gives to green, red and blue, which are three
    different offsets below 3; the white offset is -1 for a name of three
    letters, and 3 with 'W' at position 3 otherwise. *)
Theorem StringToOrder_spells_offsets s o :
  map_lookup StringToOrder s = Some o ->
  exists g r b w,
    offsets o = [g; r; b; w] /\
    String.get (Z.to_nat g) s = Some "G"%char /\
    String.get (Z.to_nat r) s = Some "R"%char /\
    String.get (Z.to_nat b) s = Some "B"%char /\
    0 <= g < 3 /\ 0 <= r < 3 /\ 0 <= b < 3 /\
    g <> r /\ g <> b /\ r <> b /\
    (w = -1 /\ String.length s = 3%nat \/
     w = 3 /\ String.get 3 s = Some "W"%char /\ String.length s = 4%nat).
Proof.
  intros H. apply StringToOrder_entries in H.
  unfold StringToOrder in H. cbn [In] in H.
  repeat (destruct H as [[= <- <-]|H]); [..|destruct H];
    cbn [offsets]; do 4 eexists; (split; [reflexivity|]);
    vm_compute; intuition (reflexivity || discriminate || eauto).
Qed.

Lemma StringToOrder_spells_offsets_witness :
  exists g r b w,
    offsets BRGOrder = [g; r; b; w] /\
    String.get (Z.to_nat g) "BRG" = Some "G"%char.
Proof.
  destruct (StringToOrder_spells_offsets "BRG" BRGOrder)
    as (g & r & b & w & H1 & H2 & _).
  - vm_compute. reflexivity.
  - exists g, r, b, w. split; assumption.
Defined.

Lemma hex_digit_inj a b :
  0 <= a < 16 -> 0 <= b < 16 -> hex_digit a = hex_digit b -> a = b.
Proof.
  intros Ha Hb.
  assert (Hcases : forall x, 0 <= x < 16 ->
            x = 0 \/ x = 1 \/ x = 2 \/ x = 3 \/ x = 4 \/ x = 5 \/ x = 6 \/
            x = 7 \/ x = 8 \/ x = 9 \/ x = 10 \/ x = 11 \/ x = 12 \/
            x = 13 \/ x = 14 \/ x = 15) by (intros; lia).
  destruct (Hcases a Ha) as [->|[->|[->|[->|[->|[->|[->|[->|[->|[->|
                             [->|[->|[->|[->|[->| ->]]]]]]]]]]]]]]];
  destruct (Hcases b Hb) as [->|[->|[->|[->|[->|[->|[->|[->|[->|[->|
                             [->|[->|[->|[->|[->| ->]]]]]]]]]]]]]]];
  intros Heq; first [reflexivity | discriminate Heq].
Qed.

Lemma hex2_inj a b : is_byte a -> is_byte b -> hex2 a = hex2 b -> a = b.
Proof.
  unfold is_byte, hex2. intros Ha Hb [= Hhi Hlo].
  apply hex_digit_inj in Hhi;
    [|split; [apply Z.div_pos|apply Z.div_lt_upper_bound]; lia ..].
  apply hex_digit_inj in Hlo; [|apply Z.mod_pos_bound; lia ..].
  rewrite (Z.div_mod a 16), (Z.div_mod b 16) by lia. congruence.
Qed.

Lemma hex2_app (v : Z) (rest : string) :
  (hex2 v ++ rest)%string =
  String (hex_digit (v / 16)) (String (hex_digit (v mod 16)) rest).
Proof. reflexivity. Qed.

(** X17. [RGB.String] and [RGBW.String] print '#' and two hexadecimal
    digits per component: 7 and 9 characters, whatever the pixel; and the
    text determines the pixel. *)
Theorem pixel_String_injective :
  (forall p, String.length (RGB_String p) = 7%nat) /\
  (forall p, String.length (RGBW_String p) = 9%nat) /\
  (forall p q, RGB_ok p -> RGB_ok q -> RGB_String p = RGB_String q -> p = q) /\
  (forall p q, RGBW_ok p -> RGBW_ok q ->
     RGBW_String p = RGBW_String q -> p = q).
Proof.
  split; [reflexivity|]. split; [reflexivity|]. split.
  - intros [r g b] [r' g' b'] (HR & HG & HB) (HR' & HG' & HB').
    unfold RGB_String; cbn [rgb_R rgb_G rgb_B] in *.
    rewrite !hex2_app.
    change ("#" ++ ?x)%string with (String "#" x).
    intros [= H1 H2 H3 H4 H5 H6].
    f_equal; apply hex2_inj; try assumption; unfold hex2; congruence.
  - intros [r g b w] [r' g' b' w'] (HR & HG & HB & HW) (HR' & HG' & HB' & HW').
    unfold RGBW_String; cbn [rgbw_R rgbw_G rgbw_B rgbw_W] in *.
    rewrite !hex2_app.
    change ("#" ++ ?x)%string with (String "#" x).
    intros [= H1 H2 H3 H4 H5 H6 H7 H8].
    f_equal; apply hex2_inj; try assumption; unfold hex2; congruence.
Qed.

Lemma pixel_String_injective_witness :
  String.length (RGB_String (mkRGB 255 0 16)) = 7%nat /\
  mkRGBW 255 0 16 1 = mkRGBW 255 0 16 1.
Proof.
  split.
  - exact (proj1 pixel_String_injective (mkRGB 255 0 16)).
  - refine (proj2 (proj2 (proj2 pixel_String_injective))
              (mkRGBW 255 0 16 1) (mkRGBW 255 0 16 1) _ _ _);
      vm_compute; intuition discriminate.
Defined.

(** ** rpi.go: the sort and the constructor *)

Lemma less_asym x y : rpi.less x y = true -> rpi.less y x = false.
Proof.
  unfold rpi.less. rewrite !Z.gtb_ltb.
  repeat match goal with
         | |- context [?a =? ?b] => destruct (Z.eqb_spec a b)
         | |- context [?a <? ?b] => destruct (Z.ltb_spec a b)
         end; try reflexivity; try discriminate; lia.
Qed.

Lemma not_less_trans x y z :
  rpi.less x y = false -> rpi.less y z = false -> rpi.less x z = false.
Proof.
  unfold rpi.less. rewrite !Z.gtb_ltb.
  repeat match goal with
         | |- context [?a =? ?b] => destruct (Z.eqb_spec a b)
         | |- context [?a <? ?b] => destruct (Z.ltb_spec a b)
         end; try reflexivity; try discriminate; lia.
Qed.

Lemma insert_back_In x l y :
  In y (rpi.insert_back x l) <-> y = x \/ In y l.
Proof.
  induction l as [|a l IH]; simpl.
  - intuition.
  - destruct (rpi.less x a); simpl; rewrite ?IH; intuition.
Qed.

Lemma insert_back_Permutation x l : Permutation (rpi.insert_back x l) (x :: l).
Proof.
  induction l as [|a l IH]; simpl; [reflexivity|].
  destruct (rpi.less x a); [|reflexivity].
  rewrite IH. apply perm_swap.
Qed.

Lemma insert_back_sorted x l :
  StronglySorted (fun a b => rpi.less a b = false) l ->
  StronglySorted (fun a b => rpi.less a b = false) (rpi.insert_back x l).
Proof.
  induction 1 as [|a l Hs IH Ha]; simpl.
  - repeat constructor.
  - destruct (rpi.less x a) eqn:Hxa.
    + constructor; [exact IH|].
      rewrite List.Forall_forall in *. intros y Hy.
      apply insert_back_In in Hy. destruct Hy as [->|Hy].
      * apply less_asym, Hxa.
      * apply Ha, Hy.
    + constructor; [constructor; assumption|].
      constructor; [exact Hxa|].
      rewrite List.Forall_forall in *. intros y Hy.
      apply not_less_trans with a; [exact Hxa|apply Ha, Hy].
Qed.

Lemma insertion_loop l acc :
  StronglySorted (fun a b => rpi.less a b = false) acc ->
  StronglySorted (fun a b => rpi.less a b = false)
    (fold_left (fun sorted_rev x => rpi.insert_back x sorted_rev) l acc) /\
  Permutation
    (fold_left (fun sorted_rev x => rpi.insert_back x sorted_rev) l acc)
    (l ++ acc).
Proof.
  revert acc. induction l as [|x l IH]; intros acc Hacc; simpl.
  - split; [exact Hacc|reflexivity].
  - destruct (IH _ (insert_back_sorted x acc Hacc)) as [Hs Hp].
    split; [exact Hs|].
    rewrite Hp, insert_back_Permutation.
    symmetry. apply Permutation_middle.
Qed.

Lemma StronglySorted_snoc {A} (R : A -> A -> Prop) l x :
  StronglySorted R l -> List.Forall (fun y => R y x) l ->
  StronglySorted R (l ++ [x]).
Proof.
  induction 1 as [|a l Hs IH Ha]; intros Hx; simpl.
  - repeat constructor.
  - inversion Hx as [|? ? Hax Hlx]; subst.
    constructor; [apply IH, Hlx|].
    rewrite List.Forall_forall in *. intros y Hy.
    apply in_app_or in Hy. destruct Hy as [Hy|[<-|[]]]; [apply Ha, Hy|exact Hax].
Qed.

Lemma StronglySorted_drop_prefix {A} (R : A -> A -> Prop) l1 l2 :
  StronglySorted R (l1 ++ l2) -> StronglySorted R l2.
Proof.
  induction l1 as [|a l1 IH]; simpl; [tauto|].
  intros H. apply StronglySorted_inv in H. apply IH, H.
Qed.

Lemma StronglySorted_rev {A} (R : A -> A -> Prop) l :
  StronglySorted R l -> StronglySorted (fun x y => R y x) (rev l).
Proof.
  induction 1 as [|a l Hs IH Ha]; simpl; [constructor|].
  apply StronglySorted_snoc; [exact IH|].
  rewrite List.Forall_forall in *. intros y Hy.
  apply Ha. apply in_rev. exact Hy.
Qed.

(** X18. The sort of [detectHardware] (the insertion sort that
    [sort.Slice] runs on a slice of at most 12 elements), on any catalog:
    the sorted slice holds the same records, and none of them is [less]
    than one before it, so names come longest first and, among names of
    one length, videocore bases do not decrease. *)
Theorem sortSlice_sorts (l : list rpi.hw) :
  Permutation (rpi.sortSlice l) l /\
  StronglySorted (fun x y => rpi.less y x = false) (rpi.sortSlice l) /\
  (forall x y, In x l -> In y l ->
     rpi.strlen (rpi.name x) < rpi.strlen (rpi.name y) ->
     exists pre mid post, rpi.sortSlice l = pre ++ y :: mid ++ x :: post).
Proof.
  unfold rpi.sortSlice.
  destruct (insertion_loop l [] (SSorted_nil _)) as [Hs Hp].
  rewrite app_nil_r in Hp.
  assert (Hperm : Permutation
            (rev (fold_left (fun sorted_rev x => rpi.insert_back x sorted_rev)
                    l [])) l).
  { rewrite <- Hp at 2. symmetry. apply Permutation_rev. }
  assert (Hsorted : StronglySorted (fun x y => rpi.less y x = false)
            (rev (fold_left (fun sorted_rev x => rpi.insert_back x sorted_rev)
                    l []))).
  { apply (StronglySorted_rev _ _ Hs). }
  split; [exact Hperm|]. split; [exact Hsorted|].
  intros x y Hx Hy Hlen.
  set (s := rev _) in *. clearbody s.
  assert (Hys : In y s) by (eapply Permutation_in; [symmetry; exact Hperm|exact Hy]).
  apply in_split in Hys. destruct Hys as (pre & rest & ->).
  assert (Hxs : In x (pre ++ y :: rest))
    by (eapply Permutation_in; [symmetry; exact Hperm|exact Hx]).
  assert (Hless : rpi.less y x = true).
  { unfold rpi.less. rewrite Z.gtb_ltb.
    destruct (Z.eqb_spec (rpi.strlen (rpi.name y)) (rpi.strlen (rpi.name x)));
      [lia|]. apply Z.ltb_lt. exact Hlen. }
  assert (Hne : x <> y) by (intros ->; lia).
  assert (Hrest : In x rest).
  { apply in_app_or in Hxs. destruct Hxs as [Hpre|[Heq|Hr]];
      [|congruence|exact Hr].
    exfalso. apply in_split in Hpre. destruct Hpre as (p1 & p2 & ->).
    rewrite <- app_assoc in Hsorted. simpl in Hsorted.
    apply StronglySorted_drop_prefix in Hsorted.
    apply StronglySorted_inv in Hsorted. destruct Hsorted as [_ Hall].
    rewrite List.Forall_forall in Hall.
    specialize (Hall y). rewrite Hall in Hless; [discriminate|].
    apply in_or_app. right. left. reflexivity. }
  apply in_split in Hrest. destruct Hrest as (mid & post & ->).
  exists pre, mid, post. reflexivity.
Qed.

Lemma sortSlice_sorts_witness :
  exists pre mid post,
    rpi.sortSlice rpi.rasPiVariants =
      pre ++ (rpi.mkHw rpi.RPI_HWVER_TYPE_PI2 rpi.PERIPH_BASE_RPI2 rpi.VIDEOCORE_BASE_RPI2 "Raspberry Pi Compute Module 3") :: mid ++ (rpi.mkHw rpi.RPI_HWVER_TYPE_PI1 rpi.PERIPH_BASE_RPI rpi.VIDEOCORE_BASE_RPI "Raspberry Pi Compute Module") :: post.
Proof.
  refine (proj2 (proj2 (sortSlice_sorts rpi.rasPiVariants))
            (rpi.mkHw rpi.RPI_HWVER_TYPE_PI1 rpi.PERIPH_BASE_RPI rpi.VIDEOCORE_BASE_RPI "Raspberry Pi Compute Module") (rpi.mkHw rpi.RPI_HWVER_TYPE_PI2 rpi.PERIPH_BASE_RPI2 rpi.VIDEOCORE_BASE_RPI2 "Raspberry Pi Compute Module 3") _ _ _).
  - vm_compute. tauto.
  - vm_compute. tauto.
  - vm_compute. reflexivity.
Defined.

(** The loop of [detectHardware] returns the first matching record. *)
Lemma firstMatch_first model l rp :
  rpi.firstMatch model l = Some rp ->
  exists pre post,
    l = pre ++ rp :: post /\
    List.Forall (fun x => rpi.HasPrefix model (rpi.name x) = false) pre.
Proof.
  induction l as [|x l IH]; simpl; [discriminate|].
  destruct (rpi.HasPrefix model (rpi.name x)) eqn:Hx.
  - intros [= <-]. exists [], l. split; [reflexivity|constructor].
  - intros H. destruct (IH H) as (pre & post & -> & Hpre).
    exists (x :: pre), post. split; [reflexivity|].
    constructor; assumption.
Qed.

(** In a sorted catalog the first match has a longest matching name. *)
Lemma firstMatch_longest model l rp rp' :
  StronglySorted (fun x y => rpi.less y x = false) l ->
  rpi.firstMatch model l = Some rp ->
  In rp' l -> rpi.HasPrefix model (rpi.name rp') = true ->
  rpi.strlen (rpi.name rp') <= rpi.strlen (rpi.name rp).
Proof.
  intros Hs Hm Hin Hp.
  destruct (firstMatch_first _ _ _ Hm) as (pre & post & -> & Hpre).
  apply StronglySorted_drop_prefix in Hs.
  apply StronglySorted_inv in Hs. destruct Hs as [_ Hall].
  rewrite List.Forall_forall in Hall, Hpre.
  apply in_app_or in Hin. destruct Hin as [Hin|[<-|Hin]].
  - rewrite (Hpre _ Hin) in Hp. discriminate.
  - lia.
  - specialize (Hall _ Hin). unfold rpi.less in Hall.
    rewrite Z.gtb_ltb in Hall.
    destruct (Z.eqb_spec (rpi.strlen (rpi.name rp'))
                (rpi.strlen (rpi.name rp))); [lia|].
    apply Z.ltb_ge in Hall. exact Hall.
Qed.

(** X19. [NewRPi] never panics and has three outcomes.  It returns a
    device after exactly two calls, the read of the model file and the
    opening of the mailbox, both successful; its record is then a catalog
    record whose name is a prefix of the model string, and no catalog
    record with a longer name is one.  When the model file cannot be read
    or names no catalog record, the mailbox is not opened and the error
    is "couldn't detect RPi hardware" around the cause.  When the mailbox
    cannot be opened, the error is "couldn't open mailbox" around the
    cause. *)
Theorem NewRPi_outcomes env log log' res :
  NewRPi env log = (log', res) ->
  match res with
  | Returned (inl rp) =>
      log' = log ++ [ReadModelFile; MboxOpen] /\
      hw_error env log ReadModelFile = None /\
      hw_error env (log ++ [ReadModelFile]) MboxOpen = None /\
      In (rpi_hw rp) rpi.rasPiVariants /\
      rpi.HasPrefix (hw_model env log) (rpi.name (rpi_hw rp)) = true /\
      (forall rp', In rp' rpi.rasPiVariants ->
         rpi.HasPrefix (hw_model env log) (rpi.name rp') = true ->
         rpi.strlen (rpi.name rp') <= rpi.strlen (rpi.name (rpi_hw rp)))
  | Returned (inr e) =>
      (log' = log ++ [ReadModelFile] /\
       ((exists cause,
           hw_error env log ReadModelFile = Some cause /\
           e = Errorf_v "couldn't detect RPi hardware: "
                 (Errorf_v "couldn't open model file: " cause)) \/
        (hw_error env log ReadModelFile = None /\
         (forall rp', In rp' rpi.rasPiVariants ->
            rpi.HasPrefix (hw_model env log) (rpi.name rp') = false) /\
         e = Errorf_v "couldn't detect RPi hardware: "
               (Errorf_q "couldn't identify Pi model " (hw_model env log)))))
      \/
      (log' = log ++ [ReadModelFile; MboxOpen] /\
       hw_error env log ReadModelFile = None /\
       exists cause,
         hw_error env (log ++ [ReadModelFile]) MboxOpen = Some cause /\
         e = Errorf_v "couldn't open mailbox: " cause)
  | Panicked _ => False
  end.
Proof.
  unfold NewRPi, hwcall, bind, get, ret, rpi.detectHardware.
  destruct (hw_error env log ReadModelFile) as [cause|] eqn:Hread.
  { intros [= <- <-]. left. split; [reflexivity|]. left. eauto. }
  destruct (rpi.firstMatch (hw_model env log)
              (rpi.sortSlice rpi.rasPiVariants)) as [rp|] eqn:Hm.
  2:{ intros [= <- <-]. left. split; [reflexivity|]. right.
      split; [reflexivity|]. split; [|reflexivity].
      intros rp' Hin.
      apply (proj2 (sortSlice_rasPiVariants_In rp')) in Hin.
      destruct (rpi.HasPrefix (hw_model env log) (rpi.name rp')) eqn:Hp;
        [|reflexivity].
      exfalso. clear - Hm Hin Hp.
      induction (rpi.sortSlice rpi.rasPiVariants) as [|x l IH];
        [destruct Hin|].
      simpl in Hm. destruct Hin as [->|Hin].
      - rewrite Hp in Hm. discriminate.
      - destruct (rpi.HasPrefix (hw_model env log) (rpi.name x));
          [discriminate|]. exact (IH Hm Hin). }
  destruct (hw_error env (log ++ [ReadModelFile]) MboxOpen) as [cause|] eqn:Hopen.
  { intros [= <- <-]. right. rewrite <- app_assoc.
    split; [reflexivity|]. split; [reflexivity|]. eauto. }
  intros [= <- <-]. rewrite <- app_assoc. cbn [rpi_hw].
  split; [reflexivity|]. split; [reflexivity|]. split; [reflexivity|].
  destruct (firstMatch_Some _ _ _ Hm) as [Hin Hp].
  split; [exact (proj1 (sortSlice_rasPiVariants_In rp) Hin)|].
  split; [exact Hp|].
  intros rp' Hin' Hp'.
  apply (firstMatch_longest _ _ _ _ sortSlice_rasPiVariants_sorted Hm);
    [|exact Hp'].
  exact (proj2 (sortSlice_rasPiVariants_In rp') Hin').
Qed.

Lemma NewRPi_outcomes_witness :
  [ReadModelFile; MboxOpen] = [] ++ [ReadModelFile; MboxOpen].
Proof.
  refine (proj1 (NewRPi_outcomes (example_env all_succeed) []
                   [ReadModelFile; MboxOpen]
                   (Returned (inl (mkRPi
                      (rpi.mkHw rpi.RPI_HWVER_TYPE_PI2 rpi.PERIPH_BASE_RPI2
                         rpi.VIDEOCORE_BASE_RPI2 "Raspberry Pi 3 Model B"))))
                   _)).
  vm_compute. reflexivity.
Defined.

(** ** led_lpd8806.go: what the setters keep *)

Lemma kept_refl la : LPD8806_kept la la.
Proof.
  unfold LPD8806_kept. destruct la; simpl. repeat split; auto.
Qed.

Lemma kept_pixelsLen a b :
  LPD8806_kept a b -> LPD8806.pixelsLen b = LPD8806.pixelsLen a.
Proof.
  intros (Hf & _). apply (f_equal LPD8806.pixelsLen) in Hf. exact Hf.
Qed.

Lemma kept_trans a b c :
  LPD8806_kept a b -> LPD8806_kept b c -> LPD8806_kept a c.
Proof.
  intros Hab Hbc. pose proof (kept_pixelsLen _ _ Hab) as Hlen.
  destruct Hab as (Hf & Hl & Hd & Hb), Hbc as (Hf' & Hl' & Hd' & Hb').
  repeat split.
  - rewrite <- Hf, <- Hf'. destruct c; reflexivity.
  - congruence.
  - rewrite <- Hd, <- Hlen. exact Hd'.
  - intros j v Hv. destruct (Hb' j v Hv) as [Hv'|Hbit]; [|right; exact Hbit].
    apply Hb, Hv'.
Qed.

Lemma kept_store la i v :
  Z.testbit v 7 = true ->
  LPD8806_kept la (fst (LPD8806.pixels_store i v la)).
Proof.
  intros Hbit. unfold LPD8806.pixels_store, index_set.
  destruct ((0 <=? i) && (i <? len (LPD8806.pixels la))) eqn:Hi;
    [|apply kept_refl].
  apply andb_true_iff in Hi. destruct Hi as [H0 Hlt].
  apply Z.leb_le in H0. apply Z.ltb_lt in Hlt.
  unfold len, LPD8806.pixels in Hlt. rewrite length_take in Hlt.
  destruct la as [rp plen buf nc np g r b w].
  unfold LPD8806_kept, LPD8806.set_buffer.
  cbn [fst LPD8806.buffer LPD8806.pixelsLen LPD8806.rp LPD8806.numColors
       LPD8806.numPixels LPD8806.g LPD8806.r LPD8806.b LPD8806.w] in *.
  repeat split.
  - apply length_insert.
  - apply drop_insert_lt. lia.
  - intros j x Hx.
    destruct (decide (j = Z.to_nat i)) as [->|Hne].
    + rewrite list_lookup_insert_eq in Hx by lia.
      injection Hx as <-. right. exact Hbit.
    + rewrite list_lookup_insert_ne in Hx by congruence. left. exact Hx.
Qed.

Lemma testbit_7_stored v : Z.testbit (Z.lor 0x80 v) 7 = true.
Proof. rewrite Z.lor_spec. reflexivity. Qed.

Lemma kept_bind {A B} (m : Go LPD8806.t A) (k : A -> Go LPD8806.t B) la :
  (forall s, LPD8806_kept s (fst (m s))) ->
  (forall a s, LPD8806_kept s (fst (k a s))) ->
  LPD8806_kept la (fst (bind m k la)).
Proof.
  intros Hm Hk. unfold bind. specialize (Hm la).
  destruct (m la) as [s' [a|p]]; cbn [fst] in *; [|exact Hm].
  apply kept_trans with s'; [exact Hm|apply Hk].
Qed.

Lemma kept_index_get {A} (l : list A) i la :
  LPD8806_kept la (fst (index_get l i la)).
Proof.
  unfold index_get, ret, panic.
  destruct ((0 <=? i) && (i <? len l)); [destruct (l !! Z.to_nat i)|];
    apply kept_refl.
Qed.

Lemma kept_foldM {A B} (body : B -> A -> Go LPD8806.t B) l :
  (forall acc x s, LPD8806_kept s (fst (body acc x s))) ->
  forall acc la, LPD8806_kept la (fst (foldM body acc l la)).
Proof.
  intros Hbody. induction l as [|x l IH]; intros acc la; cbn [foldM].
  - apply kept_refl.
  - apply kept_bind; [intros s; apply Hbody|intros a s; apply IH].
Qed.

Ltac kept :=
  repeat first
    [ apply kept_refl
    | apply kept_index_get
    | apply kept_store; apply testbit_7_stored
    | apply kept_bind; intros
    | apply kept_foldM; intros ].

Lemma LPD8806_write_kept (op : PixelWrite) (la : LPD8806.t) :
  LPD8806_kept la (fst (LPD8806_write op la)).
Proof.
  destruct op as [i c|i c|l|l]; cbn [LPD8806_write].
  - unfold LPD8806.SetRGBAt. kept.
  - unfold LPD8806.SetRGBWAt. kept.
  - unfold LPD8806.SetRGBs. apply kept_bind; [intros; apply kept_refl|].
    intros a s.
    destruct (negb (LPD8806.numColors a =? 3)); [apply kept_refl|].
    destruct (negb (len l =? LPD8806.numPixels a)); [apply kept_refl|].
    kept.
  - unfold LPD8806.SetRGBWs. apply kept_bind; [intros; apply kept_refl|].
    intros a s.
    destruct (negb (LPD8806.numColors a =? 4)); [apply kept_refl|].
    destruct (negb (len l =? LPD8806.numPixels a)); [apply kept_refl|].
    kept.
Qed.

(** X20. No setter of the LPD8806 driver writes outside the [pixels]
    view or changes anything but bytes of the buffer, whether it returns
    or panics half-way: the reset bytes behind the view stay as they
    were, the buffer keeps its length, and every byte stored has bit 7
    set. *)
Theorem LPD8806_setters_keep_reset_bytes (op : PixelWrite) (la : LPD8806.t) :
  LPD8806_kept la (fst (LPD8806_write op la)).
Proof. apply LPD8806_write_kept. Qed.

Lemma LPD8806_writes_kept ops la : LPD8806_kept la (LPD8806_writes ops la).
Proof.
  unfold LPD8806_writes. revert la.
  induction ops as [|op ops IH]; intros la; cbn [fold_left].
  - apply kept_refl.
  - apply kept_trans with (fst (LPD8806_write op la)); [|apply IH].
    apply LPD8806_write_kept.
Qed.

(** ** led_lpd8806.go: construction and output *)

Lemma max_int_ge sz : 2147483647 <= max_int sz.
Proof. destruct sz; vm_compute; discriminate. Qed.

Lemma NumColors_range m : 3 <= NumColors m <= 4.
Proof. destruct m; simpl; lia. Qed.

(** The sizes [NewLPD8806] computes, when nothing overflows. *)
Lemma LPD8806_sizes sz config :
  LPD8806_no_overflow sz config ->
  let np := lpd_NumPixels config in
  let nc := NumColors (lpd_ColorModel config) in
  imul sz np nc = np * nc /\
  Z.quot (iadd sz np 31) 32 = (np + 31) / 32 /\
  iadd sz (np * nc) ((np + 31) / 32) = np * nc + (np + 31) / 32 /\
  0 <= np * nc /\ 0 <= (np + 31) / 32.
Proof.
  intros [Hnp Hsum] np nc. fold np nc in Hsum, Hnp.
  pose proof (max_int_ge sz) as Hmax.
  pose proof (NumColors_range (lpd_ColorModel config)) as Hnc. fold nc in Hnc.
  assert (Hq : 0 <= (np + 31) / 32) by (apply Z.div_pos; lia).
  assert (Hq' : (np + 31) / 32 <= np + 31)
    by (apply Z.div_le_upper_bound; lia).
  assert (Hmul : 0 <= np * nc) by nia.
  assert (Hmin : min_int sz <= 0)
    by (unfold min_int; destruct (modulus_half sz); lia).
  assert (Hnp31 : np + 31 <= max_int sz) by nia.
  repeat split; try assumption.
  - apply imul_small. unfold max_int in *. lia.
  - unfold iadd. rewrite to_int_id by lia. apply Z.quot_div_nonneg; lia.
  - unfold iadd. apply to_int_id. lia.
Qed.

Lemma make_ok {S A} (zero : A) (n : Z) (s : S) :
  0 <= n -> make zero n s = (s, Returned (replicate (Z.to_nat n) zero)).
Proof.
  intros Hn. unfold make. destruct (Z.ltb_spec n 0); [lia|reflexivity].
Qed.

Lemma slice_to_ok {S A} (l : list A) (n : Z) (s : S) :
  0 <= n <= len l -> slice_to l n s = (s, Returned n).
Proof.
  intros Hn. unfold slice_to.
  replace ((0 <=? n) && (n <=? len l)) with true; [reflexivity|].
  symmetry. apply andb_true_iff. split; lia.
Qed.

Lemma len_replicate {A} (n : Z) (x : A) :
  0 <= n -> len (replicate (Z.to_nat n) x) = n.
Proof. intros Hn. unfold len. rewrite length_replicate. lia. Qed.

(** A successful [NewRPi] has made its two calls. *)
Lemma NewRPi_calls env log log' rp :
  NewRPi env log = (log', Returned (inl rp)) ->
  log' = log ++ [ReadModelFile; MboxOpen].
Proof.
  unfold NewRPi, hwcall, bind, get, ret.
  destruct (rpi.detectHardware _); [|discriminate].
  destruct (hw_error env (log ++ [ReadModelFile]) MboxOpen); [discriminate|].
  intros [= <- _]. rewrite <- app_assoc. reflexivity.
Qed.


(** [NewLPD8806] on a configuration without overflow, step by step. *)
Lemma NewLPD8806_run env sz config log :
  LPD8806_no_overflow sz config ->
  let np := lpd_NumPixels config in
  let nc := NumColors (lpd_ColorModel config) in
  let o := offsets (lpd_ColorOrder config) in
  let zeros := replicate (Z.to_nat ((np + 31) / 32)) 0 in
  NewLPD8806 env sz config log =
  match NewRPi (rpi_view env log) [] with
  | (l, Panicked p) => (log ++ map RPiCall l, Panicked p)
  | (l, Returned (inr err)) =>
      (log ++ map RPiCall l,
       Returned (inr (Errorf_v "couldn't make RPi: " err)))
  | (l, Returned (inl rp)) =>
      let log1 := log ++ map RPiCall l in
      let la := LPD8806.mk rp (np * nc)
                  (replicate (Z.to_nat (np * nc + (np + 31) / 32)) 0) nc np
                  (nth 0 o 0) (nth 1 o 0) (nth 2 o 0) (nth 3 o 0) in
      let speed := SetSPISpeed (spi_fd env) (lpd_SPISpeed config) in
      if lpd_SPISpeed config =? 0
      then (log1 ++ [DeviceWrite zeros],
            Returned match spi_error env log1 (DeviceWrite zeros) with
                     | Some err => inr (Errorf_v "couldn't reset: " err)
                     | None => inl la
                     end)
      else match spi_error env log1 speed with
           | Some err =>
               (log1 ++ [speed],
                Returned (inr (Errorf_v "couldn't set SPI speed: " err)))
           | None =>
               ((log1 ++ [speed]) ++ [DeviceWrite zeros],
                Returned
                  match spi_error env (log1 ++ [speed]) (DeviceWrite zeros)
                  with
                  | Some err => inr (Errorf_v "couldn't reset: " err)
                  | None => inl la
                  end)
           end
  end.
Proof.
  intros Hno np nc o zeros.
  destruct (LPD8806_sizes sz config Hno) as (Hmul & Hq & Hsum & Hmul0 & Hq0).
  fold np nc in Hmul, Hq, Hsum, Hmul0, Hq0.
  unfold NewLPD8806. cbv zeta. fold np nc.
  rewrite Hmul, Hq, Hsum.
  unfold bind at 1. rewrite make_ok by lia.
  unfold bind at 1. unfold on_rpi.
  destruct (NewRPi (rpi_view env log) []) as [l [[rp|e]|p]] eqn:Hrpi;
    [|reflexivity..].
  unfold bind at 1.
  rewrite slice_to_ok by (rewrite len_replicate; lia).
  unfold bind at 1. rewrite (proj1 (offsets_index _ _)).
  unfold bind at 1. rewrite (proj1 (proj2 (offsets_index _ _))).
  unfold bind at 1. rewrite (proj1 (proj2 (proj2 (offsets_index _ _)))).
  unfold bind at 1. rewrite (proj2 (proj2 (proj2 (offsets_index _ _)))).
  unfold bind at 1.
  destruct (Z.eqb_spec (lpd_SPISpeed config) 0) as [Hz|Hnz];
    cbn [negb]; unfold spicall, ret.
  - unfold bind at 1. rewrite make_ok by lia.
    unfold bind. fold zeros.
    destruct (spi_error env _ (DeviceWrite _)); reflexivity.
  - destruct (spi_error env _ (SetSPISpeed _ _)); [reflexivity|].
    unfold bind at 1. rewrite make_ok by lia.
    unfold bind. fold zeros.
    destruct (spi_error env _ (DeviceWrite _)); reflexivity.
Qed.

(** The successful run of [NewLPD8806]. *)
Lemma NewLPD8806_success env sz config log log' la :
  LPD8806_no_overflow sz config ->
  NewLPD8806 env sz config log = (log', Returned (inl la)) ->
  let np := lpd_NumPixels config in
  let nc := NumColors (lpd_ColorModel config) in
  let o := offsets (lpd_ColorOrder config) in
  la = LPD8806.mk (LPD8806.rp la) (np * nc)
         (replicate (Z.to_nat (np * nc + (np + 31) / 32)) 0) nc np
         (nth 0 o 0) (nth 1 o 0) (nth 2 o 0) (nth 3 o 0) /\
  log' = log ++ [RPiCall ReadModelFile; RPiCall MboxOpen]
             ++ (if lpd_SPISpeed config =? 0 then []
                 else [SetSPISpeed (spi_fd env) (lpd_SPISpeed config)])
             ++ [DeviceWrite (replicate (Z.to_nat ((np + 31) / 32)) 0)].
Proof.
  intros Hno Hrun np nc o.
  rewrite (NewLPD8806_run env sz config log Hno) in Hrun. cbv zeta in Hrun.
  destruct (NewRPi (rpi_view env log) []) as [l [[rp|e]|p]] eqn:Hrpi;
    [|discriminate Hrun..].
  pose proof (NewRPi_calls _ _ _ _ Hrpi) as Hl. cbn in Hl. subst l.
  destruct (lpd_SPISpeed config =? 0).
  - destruct (spi_error env _ (DeviceWrite _)); [discriminate Hrun|].
    injection Hrun as <- <-. cbn [LPD8806.rp map].
    split; [reflexivity|]. rewrite <- !app_assoc. reflexivity.
  - destruct (spi_error env _ (SetSPISpeed _ _)); [discriminate Hrun|].
    destruct (spi_error env _ (DeviceWrite _)); [discriminate Hrun|].
    injection Hrun as <- <-. cbn [LPD8806.rp map].
    split; [reflexivity|]. rewrite <- !app_assoc. reflexivity.
Qed.

(** X21. A configuration with a pixel count that is not negative and a
    buffer size within the [int] range: when [NewLPD8806] returns a
    driver, its buffer is all zero, [numPixels * numColors] pixel bytes
    followed by one reset byte per 32 pixels (rounded up); the offsets are
    those of the configured colour order; and the calls made are the two
    of [NewRPi], [SetSPISpeed] exactly when the configured speed is not
    0, and one write of the reset bytes. *)
Theorem NewLPD8806_success_state env sz config log log' la :
  LPD8806_no_overflow sz config ->
  NewLPD8806 env sz config log = (log', Returned (inl la)) ->
  let np := lpd_NumPixels config in
  let nc := NumColors (lpd_ColorModel config) in
  LPD8806_ok la /\
  LPD8806_order la (lpd_ColorOrder config) /\
  LPD8806.numPixels la = np /\ LPD8806.numColors la = nc /\
  LPD8806.buffer la = replicate (Z.to_nat (np * nc + (np + 31) / 32)) 0 /\
  LPD8806.pixels la = replicate (Z.to_nat (np * nc)) 0 /\
  log' = log ++ [RPiCall ReadModelFile; RPiCall MboxOpen]
             ++ (if lpd_SPISpeed config =? 0 then []
                 else [SetSPISpeed (spi_fd env) (lpd_SPISpeed config)])
             ++ [DeviceWrite (replicate (Z.to_nat ((np + 31) / 32)) 0)].
Proof.
  intros Hno Hrun np nc.
  destruct (NewLPD8806_success _ _ _ _ _ _ Hno Hrun) as [Hla Hlog].
  fold np nc in Hla, Hlog.
  destruct (LPD8806_sizes sz config Hno) as (_ & _ & _ & Hmul0 & Hq0).
  fold np nc in Hmul0, Hq0. destruct Hno as [Hnp _]. fold np in Hnp.
  pose proof (NumColors_range (lpd_ColorModel config)) as Hnc. fold nc in Hnc.
  rewrite Hla. unfold LPD8806_ok, LPD8806_order, LPD8806.pixels.
  cbn [LPD8806.numPixels LPD8806.numColors LPD8806.pixelsLen LPD8806.buffer
       LPD8806.g LPD8806.r LPD8806.b LPD8806.w].
  rewrite len_replicate by lia.
  repeat split; try lia; try exact Hlog.
  - destruct (lpd_ColorOrder config); reflexivity.
  - rewrite take_replicate. f_equal. lia.
Qed.

Lemma NewLPD8806_success_state_witness :
  LPD8806_ok example_lpd /\ LPD8806_order example_lpd GRBOrder.
Proof.
  refine (let H := NewLPD8806_success_state example_spi_env W32
                     example_lpd_config [] example_lpd_log example_lpd _ _ in
          conj (proj1 H) (proj1 (proj2 H))).
  - vm_compute. split; discriminate.
  - vm_compute. reflexivity.
Defined.





(** X24. [Flush] after [NewLPD8806] and any sequence of setter calls,
    those that panicked included: one write to the device, of the whole
    buffer; it ends with the reset bytes, all zero, one per 32 pixels
    (rounded up), and each of the [numPixels * numColors] bytes before
    them is 0 or has bit 7 set.  The driver is unchanged and the
    device's error is returned as it is. *)
Theorem LPD8806_Flush_latch env sz config log log1 la ops st out :
  LPD8806_no_overflow sz config ->
  NewLPD8806 env sz config log = (log1, Returned (inl la)) ->
  LPD8806_Flush env (LPD8806_writes ops la, log1) = (st, out) ->
  let np := lpd_NumPixels config in
  let nc := NumColors (lpd_ColorModel config) in
  exists data,
    st = (LPD8806_writes ops la, log1 ++ [DeviceWrite data]) /\
    out = Returned (spi_error env log1 (DeviceWrite data)) /\
    len data = np * nc + (np + 31) / 32 /\
    drop (Z.to_nat (np * nc)) data =
      replicate (Z.to_nat ((np + 31) / 32)) 0 /\
    Forall (fun v => v = 0 \/ Z.testbit v 7 = true) data.
Proof.
  intros Hno Hnew Hflush np nc.
  destruct (NewLPD8806_success _ _ _ _ _ _ Hno Hnew) as [Hla _].
  fold np nc in Hla.
  destruct (LPD8806_sizes sz config Hno) as (_ & _ & _ & Hmul0 & Hq0).
  fold np nc in Hmul0, Hq0.
  destruct (LPD8806_writes_kept ops la) as (_ & Hlen & Hdrop & Hbytes).
  set (la' := LPD8806_writes ops la) in *. clearbody la'.
  unfold LPD8806_Flush, bind, get, on_snd, spicall in Hflush.
  cbn [fst snd] in Hflush. injection Hflush as <- <-.
  exists (LPD8806.buffer la'). split; [reflexivity|]. split; [reflexivity|].
  assert (Hbuf : LPD8806.buffer la =
                 replicate (Z.to_nat (np * nc + (np + 31) / 32)) 0)
    by (rewrite Hla; reflexivity).
  assert (Hplen : LPD8806.pixelsLen la = np * nc)
    by (rewrite Hla; reflexivity).
  rewrite Hplen in Hdrop. rewrite Hbuf in Hlen, Hdrop, Hbytes.
  split; [|split].
  - unfold len. rewrite Hlen, length_replicate. lia.
  - rewrite Hdrop, drop_replicate. f_equal. lia.
  - apply Forall_lookup. intros j v Hv.
    destruct (Hbytes j v Hv) as [H0|Hbit]; [left|right; exact Hbit].
    apply lookup_replicate in H0. apply H0.
Qed.

Lemma LPD8806_Flush_latch_witness :
  exists data,
    len data = 40 * 3 + (40 + 31) / 32 /\
    drop (Z.to_nat (40 * 3)) data = replicate (Z.to_nat ((40 + 31) / 32)) 0.
Proof.
  destruct (LPD8806_Flush_latch example_spi_env W32 example_lpd_config []
              example_lpd_log example_lpd
              [WriteRGBAt 39 (mkRGB 1 2 3); WriteRGBAt 40 (mkRGB 1 2 3)]
              (LPD8806_writes
                 [WriteRGBAt 39 (mkRGB 1 2 3); WriteRGBAt 40 (mkRGB 1 2 3)]
                 example_lpd,
               example_lpd_log ++
                 [DeviceWrite
                    (LPD8806.buffer
                       (LPD8806_writes
                          [WriteRGBAt 39 (mkRGB 1 2 3);
                           WriteRGBAt 40 (mkRGB 1 2 3)] example_lpd))])
              (Returned None))
    as (data & _ & _ & Hlen & Hdrop & _).
  - vm_compute. split; discriminate.
  - vm_compute. reflexivity.
  - vm_compute. reflexivity.
  - exists data. split; assumption.
Defined.

(** ** Flush: the reset gap *)







(** ** led_lpd8806.go: the bulk setter *)

Lemma LPD8806_order_rgb la o :
  LPD8806_order la o ->
  (0 <= LPD8806.r la <= 2 /\ 0 <= LPD8806.g la <= 2 /\
   0 <= LPD8806.b la <= 2) /\
  LPD8806.r la <> LPD8806.g la /\ LPD8806.r la <> LPD8806.b la /\
  LPD8806.g la <> LPD8806.b la.
Proof.
  unfold LPD8806_order. destruct o; intros [= Hg Hr Hb Hw]; lia.
Qed.

Lemma LPD8806_store_buffer la buf i v :
  0 <= i < LPD8806.pixelsLen la -> LPD8806.pixelsLen la <= len buf ->
  LPD8806.pixels_store i v (LPD8806.set_buffer la buf) =
  (LPD8806.set_buffer la (<[Z.to_nat i := v]> buf), Returned tt).
Proof.
  intros Hi Hlen.
  destruct (LPD8806_pixels_store_ok (LPD8806.set_buffer la buf) i v) as [-> _].
  - rewrite LPD8806_len_pixels; cbn [LPD8806.set_buffer LPD8806.pixelsLen
                                       LPD8806.buffer]; lia.
  - reflexivity.
Qed.

Lemma LPD8806_load_buffer la buf i v :
  0 <= i < LPD8806.pixelsLen la -> buf !! Z.to_nat i = Some v ->
  LPD8806.pixels_load i (LPD8806.set_buffer la buf) =
  (LPD8806.set_buffer la buf, Returned v).
Proof.
  intros Hi Hv. apply LPD8806_pixels_load_ok; [lia|].
  unfold LPD8806.pixels.
  cbn [LPD8806.set_buffer LPD8806.pixelsLen LPD8806.buffer].
  rewrite lookup_take_lt by lia. exact Hv.
Qed.

(** One iteration of the loop of [SetRGBs]. *)
Lemma LPD8806_SetRGBs_step la (input : list RGB) (t : nat) (c : RGB) buf :
  input !! t = Some c ->
  Z.of_nat t * 3 + 3 <= LPD8806.pixelsLen la ->
  LPD8806.pixelsLen la <= len buf ->
  (0 <= LPD8806.r la <= 2 /\ 0 <= LPD8806.g la <= 2 /\
   0 <= LPD8806.b la <= 2) ->
  (let* p := index_get input (Z.of_nat t) in
   LPD8806.pixels_store (0 + Z.of_nat t * 3 + LPD8806.r la)
     (Z.lor 0x80 (rgb_R p)) >>>
   let* p := index_get input (Z.of_nat t) in
   LPD8806.pixels_store (0 + Z.of_nat t * 3 + LPD8806.g la)
     (Z.lor 0x80 (rgb_G p)) >>>
   let* p := index_get input (Z.of_nat t) in
   LPD8806.pixels_store (0 + Z.of_nat t * 3 + LPD8806.b la)
     (Z.lor 0x80 (rgb_B p)) >>>
   ret (Z.of_nat t + 1)) (LPD8806.set_buffer la buf) =
  (LPD8806.set_buffer la
     (store_RGB (LPD8806.r la) (LPD8806.g la) (LPD8806.b la) buf
        (Z.of_nat t * 3) (RGB_stored c)),
   Returned (Z.of_nat (S t))).
Proof.
  intros Hin Hlen Hbuf (Hr & Hg & Hb). unfold bind.
  rewrite !(index_get_ok input (Z.of_nat t) c)
    by (try lia; rewrite Nat2Z.id; exact Hin).
  rewrite LPD8806_store_buffer by lia. cbv beta iota.
  rewrite !(index_get_ok input (Z.of_nat t) c)
    by (try lia; rewrite Nat2Z.id; exact Hin).
  rewrite LPD8806_store_buffer by (rewrite ?len_insert; lia). cbv beta iota.
  rewrite !(index_get_ok input (Z.of_nat t) c)
    by (try lia; rewrite Nat2Z.id; exact Hin).
  rewrite LPD8806_store_buffer by (rewrite ?len_insert; lia). cbv beta iota.
  unfold ret, store_RGB, RGB_stored. cbn [rgb_R rgb_G rgb_B].
  rewrite !Z.add_0_l.
  repeat f_equal. lia.
Qed.

(** The loop of [SetRGBs] from pixel [t] on, [k] pixels to go. *)
Lemma LPD8806_SetRGBs_loop la (input : list RGB) (k t : nat) buf :
  (t + k = length input)%nat ->
  Z.of_nat (length input) * 3 = LPD8806.pixelsLen la ->
  LPD8806.pixelsLen la <= len buf ->
  (0 <= LPD8806.r la <= 2 /\ 0 <= LPD8806.g la <= 2 /\
   0 <= LPD8806.b la <= 2) ->
  LPD8806.r la <> LPD8806.g la /\ LPD8806.r la <> LPD8806.b la /\
  LPD8806.g la <> LPD8806.b la ->
  exists buf',
    foldM (fun a i =>
        let* p := index_get input a in
        LPD8806.pixels_store (i + LPD8806.r la) (Z.lor 0x80 (rgb_R p)) >>>
        let* p := index_get input a in
        LPD8806.pixels_store (i + LPD8806.g la) (Z.lor 0x80 (rgb_G p)) >>>
        let* p := index_get input a in
        LPD8806.pixels_store (i + LPD8806.b la) (Z.lor 0x80 (rgb_B p)) >>>
        ret (a + 1))
      (Z.of_nat t) (map (fun n => 0 + Z.of_nat n * 3) (seq t k))
      (LPD8806.set_buffer la buf)
    = (LPD8806.set_buffer la buf', Returned (Z.of_nat (t + k))) /\
    len buf' = len buf /\
    (forall idx, 0 <= idx < Z.of_nat t * 3 ->
       buf' !! Z.to_nat idx = buf !! Z.to_nat idx) /\
    (forall idx, LPD8806.pixelsLen la <= idx ->
       buf' !! Z.to_nat idx = buf !! Z.to_nat idx) /\
    (forall p c, (t <= p < t + k)%nat -> input !! p = Some c ->
       buf' !! Z.to_nat (Z.of_nat p * 3 + LPD8806.r la)
         = Some (Z.lor 0x80 (rgb_R c)) /\
       buf' !! Z.to_nat (Z.of_nat p * 3 + LPD8806.g la)
         = Some (Z.lor 0x80 (rgb_G c)) /\
       buf' !! Z.to_nat (Z.of_nat p * 3 + LPD8806.b la)
         = Some (Z.lor 0x80 (rgb_B c))).
Proof.
  intros Htk Hlen Hbuf Hoff Hdist. revert t buf Htk Hbuf.
  induction k as [|k IH]; intros t buf Htk Hbuf.
  - exists buf. simpl. rewrite Nat.add_0_r.
    repeat split; try reflexivity; intros; lia.
  - assert (Ht : (t < length input)%nat) by lia.
    destruct (lookup_lt_is_Some_2 input t Ht) as [c Hc].
    simpl seq. simpl map. simpl foldM. unfold bind at 1. cbv beta.
    rewrite (LPD8806_SetRGBs_step la input t c buf Hc ltac:(lia) Hbuf Hoff).
    destruct (store_RGB_lookup (LPD8806.r la) (LPD8806.g la) (LPD8806.b la)
                buf (Z.of_nat t * 3) (RGB_stored c) ltac:(lia) ltac:(lia)
                Hoff Hdist)
      as (Hl1 & HR & HG & HB & Hframe1).
    destruct (IH (S t) _ ltac:(lia) ltac:(rewrite Hl1; exact Hbuf))
      as (buf' & Hrun & Hl' & Hlow & Hrest & Hhigh).
    exists buf'. rewrite Hrun.
    split; [do 2 f_equal; lia|]. split; [congruence|]. split; [|split].
    + intros idx Hidx. rewrite Hlow by lia. apply Hframe1; lia.
    + intros idx Hidx. rewrite Hrest by lia. apply Hframe1; lia.
    + intros p c' Hp Hc'. destruct (Nat.eq_dec p t) as [->|Hne].
      * assert (c' = c) by congruence. subst c'.
        destruct Hoff as (Hr & Hg & Hb).
        rewrite !Hlow by lia. auto.
      * apply Hhigh; [lia|exact Hc'].
Qed.

Lemma LPD8806_set_buffer_same la :
  LPD8806.set_buffer la (LPD8806.buffer la) = la.
Proof. destruct la. reflexivity. Qed.

(** X26. [SetRGBs] of the LPD8806 driver on a three-channel strip, given
    as many pixels as the strip has, returns normally and changes the
    buffer only, and of it nothing behind the pixel bytes; afterwards the
    three bytes of every pixel are those given for it with bit 7 set, and
    [RGBAt] returns the low seven bits of each component. *)
Theorem LPD8806_SetRGBs_sets_every_pixel o la (input : list RGB) :
  LPD8806_ok la -> LPD8806_order la o -> LPD8806.numColors la = 3 ->
  len input = LPD8806.numPixels la ->
  exists buf',
    LPD8806.SetRGBs input la = (LPD8806.set_buffer la buf', Returned tt) /\
    len buf' = len (LPD8806.buffer la) /\
    (forall idx, LPD8806.pixelsLen la <= idx ->
       buf' !! Z.to_nat idx = LPD8806.buffer la !! Z.to_nat idx) /\
    forall p c, input !! p = Some c ->
      buf' !! Z.to_nat (Z.of_nat p * 3 + LPD8806.r la)
        = Some (Z.lor 0x80 (rgb_R c)) /\
      buf' !! Z.to_nat (Z.of_nat p * 3 + LPD8806.g la)
        = Some (Z.lor 0x80 (rgb_G c)) /\
      buf' !! Z.to_nat (Z.of_nat p * 3 + LPD8806.b la)
        = Some (Z.lor 0x80 (rgb_B c)) /\
      LPD8806.RGBAt (Z.of_nat p) (LPD8806.set_buffer la buf') =
      (LPD8806.set_buffer la buf', Returned (RGB_low7 c)).
Proof.
  intros (Hnp & Hnc & Hlen & Hbuf) Hord Hc3 Hin.
  destruct (LPD8806_order_rgb la o Hord) as (Hoff & Hdist).
  assert (Hpl : LPD8806.pixelsLen la = 3 * len input)
    by (rewrite Hlen, Hc3, Hin; lia).
  unfold LPD8806.SetRGBs. unfold bind at 1. unfold get. cbv beta iota.
  rewrite Hc3, Hin, !Z.eqb_refl. change (negb true) with false. cbv iota.
  rewrite LPD8806_len_pixels by lia.
  rewrite Hlen, Hc3, Z.mul_comm, count_up_3 by exact Hnp.
  rewrite <- Hin. unfold len at 1. rewrite Nat2Z.id.
  unfold bind at 1.
  destruct (LPD8806_SetRGBs_loop la input (length input) 0 (LPD8806.buffer la))
    as (buf' & Hrun & Hl' & _ & Hrest & Hset);
    [lia|unfold len in Hin; lia|exact Hbuf|exact Hoff|exact Hdist|].
  rewrite LPD8806_set_buffer_same in Hrun. change (Z.of_nat 0) with 0 in Hrun.
  rewrite Hrun. exists buf'. split; [reflexivity|].
  split; [exact Hl'|].
  split; [intros idx Hidx; apply Hrest; unfold len in *; lia|].
  intros p c Hp.
  assert (Hplt : (p < length input)%nat) by (apply lookup_lt_Some in Hp; lia).
  destruct (Hset p _ ltac:(lia) Hp) as (HR & HG & HB).
  split; [exact HR|]. split; [exact HG|]. split; [exact HB|].
  unfold LPD8806.RGBAt, bind, get.
  cbn [LPD8806.set_buffer LPD8806.numColors LPD8806.r LPD8806.g LPD8806.b].
  rewrite Hc3.
  destruct Hoff as (Hr & Hg & Hb). unfold len in Hin, Hpl.
  change (LPD8806.mk (LPD8806.rp la) (LPD8806.pixelsLen la) buf'
            (LPD8806.numColors la) (LPD8806.numPixels la) (LPD8806.g la)
            (LPD8806.r la) (LPD8806.b la) (LPD8806.w la))
    with (LPD8806.set_buffer la buf').
  rewrite (LPD8806_load_buffer la buf' (Z.of_nat p * 3 + LPD8806.r la) _
             ltac:(lia) HR).
  rewrite (LPD8806_load_buffer la buf' (Z.of_nat p * 3 + LPD8806.g la) _
             ltac:(lia) HG).
  rewrite (LPD8806_load_buffer la buf' (Z.of_nat p * 3 + LPD8806.b la) _
             ltac:(lia) HB).
  unfold ret, RGB_low7. rewrite !low7_stored. reflexivity.
Qed.

Lemma LPD8806_SetRGBs_sets_every_pixel_witness :
  exists buf',
    LPD8806.SetRGBs [mkRGB 255 0 1; mkRGB 2 3 4]
      (example_la 2 RGBModel BRGOrder) =
    (LPD8806.set_buffer (example_la 2 RGBModel BRGOrder) buf', Returned tt).
Proof.
  destruct (LPD8806_SetRGBs_sets_every_pixel BRGOrder
              (example_la 2 RGBModel BRGOrder) [mkRGB 255 0 1; mkRGB 2 3 4])
    as (buf' & H & _).
  - apply example_la_ok. lia.
  - reflexivity.
  - reflexivity.
  - reflexivity.
  - exists buf'. exact H.
Defined.

(** ** SetRGBWs: the swapped indices, on every strip *)

Lemma count_up_4 n :
  0 <= n -> count_up 0 (4 * n) 4 =
            map (fun k => 0 + Z.of_nat k * 4) (seq 0 (Z.to_nat n)).
Proof.
  intros Hn. unfold count_up. do 2 f_equal.
  replace (4 * n - 0 + 4 - 1) with (3 + n * 4) by lia.
  rewrite Z.div_add by lia. reflexivity.
Qed.

(** The loop of [SetRGBWs] from iteration [t] on, [k] iterations to go:
    it stops in the iteration whose [i] is the first multiple of 4 that
    is not an index of the input. *)
Lemma SetRGBWs_loop ws (input : list RGBW) (k t : nat) (px : list Z) :
  (t + k = length input)%nat ->
  Z.of_nat (length input) * 4 = len px ->
  (0 <= WS281x.r ws <= 3 /\ 0 <= WS281x.g ws <= 3 /\
   0 <= WS281x.b ws <= 3 /\ 0 <= WS281x.w ws <= 3) ->
  (Z.of_nat t <= (Z.of_nat (length input) + 3) / 4 < Z.of_nat (t + k)) ->
  exists px',
    foldM (fun a i =>
        let* p := index_get input i in
        WS281x.pixels_store (a + WS281x.r ws) (rgbw_R p) >>>
        let* p := index_get input i in
        WS281x.pixels_store (a + WS281x.g ws) (rgbw_G p) >>>
        let* p := index_get input i in
        WS281x.pixels_store (a + WS281x.b ws) (rgbw_B p) >>>
        let* p := index_get input i in
        WS281x.pixels_store (a + WS281x.w ws) (rgbw_W p) >>>
        ret (a + 1))
      (Z.of_nat t) (map (fun n => 0 + Z.of_nat n * 4) (seq t k))
      (WS281x.set_pixels ws px)
    = (WS281x.set_pixels ws px',
       Panicked (IndexOutOfRange
                   (4 * ((Z.of_nat (length input) + 3) / 4))
                   (Z.of_nat (length input)))) /\
    len px' = len px.
Proof.
  intros Htk Hlen Hoff. revert t px Htk Hlen.
  set (n := Z.of_nat (length input)).
  assert (Hceil : n <= 4 * ((n + 3) / 4) < n + 4).
  { pose proof (Z.div_mod (n + 3) 4 ltac:(lia)).
    pose proof (Z.mod_pos_bound (n + 3) 4 ltac:(lia)). lia. }
  induction k as [|k IH]; intros t px Htk Hlen Ht0; [lia|].
  simpl seq. simpl map. simpl foldM. unfold bind at 1.
  destruct (Z_lt_ge_dec (Z.of_nat t * 4) n) as [Hin|Hout].
  - (* the input has an element at [i]: the four stores go through *)
    destruct (lookup_lt_is_Some_2 input (t * 4)) as [c Hc];
      [unfold n in Hin; lia|].
    destruct Hoff as (Hr & Hg & Hb & Hw).
    set (px1 := <[Z.to_nat (Z.of_nat t + WS281x.w ws) := rgbw_W c]>
            (<[Z.to_nat (Z.of_nat t + WS281x.b ws) := rgbw_B c]>
               (<[Z.to_nat (Z.of_nat t + WS281x.g ws) := rgbw_G c]>
                  (<[Z.to_nat (Z.of_nat t + WS281x.r ws) := rgbw_R c]> px)))).
    assert (Hl1 : len px1 = len px)
      by (unfold px1; rewrite !len_insert; reflexivity).
    assert (Hbody :
      (let* p := index_get input (0 + Z.of_nat t * 4) in
       WS281x.pixels_store (Z.of_nat t + WS281x.r ws) (rgbw_R p) >>>
       let* p := index_get input (0 + Z.of_nat t * 4) in
       WS281x.pixels_store (Z.of_nat t + WS281x.g ws) (rgbw_G p) >>>
       let* p := index_get input (0 + Z.of_nat t * 4) in
       WS281x.pixels_store (Z.of_nat t + WS281x.b ws) (rgbw_B p) >>>
       let* p := index_get input (0 + Z.of_nat t * 4) in
       WS281x.pixels_store (Z.of_nat t + WS281x.w ws) (rgbw_W p) >>>
       ret (Z.of_nat t + 1)) (WS281x.set_pixels ws px) =
      (WS281x.set_pixels ws px1, Returned (Z.of_nat (S t)))).
    { unfold px1, bind.
      rewrite !(index_get_ok input (0 + Z.of_nat t * 4) c)
        by (try lia; replace (Z.to_nat (0 + Z.of_nat t * 4)) with (t * 4)%nat
              by lia; exact Hc).
      rewrite WS281x_pixels_store_ok by (simpl; unfold n in *; lia).
      rewrite set_pixels_twice. cbv beta iota.
      rewrite !(index_get_ok input (0 + Z.of_nat t * 4) c)
        by (try lia; replace (Z.to_nat (0 + Z.of_nat t * 4)) with (t * 4)%nat
              by lia; exact Hc).
      rewrite WS281x_pixels_store_ok
        by (simpl; rewrite !len_insert; unfold n in *; lia).
      rewrite set_pixels_twice. cbv beta iota.
      rewrite !(index_get_ok input (0 + Z.of_nat t * 4) c)
        by (try lia; replace (Z.to_nat (0 + Z.of_nat t * 4)) with (t * 4)%nat
              by lia; exact Hc).
      rewrite WS281x_pixels_store_ok
        by (simpl; rewrite !len_insert; unfold n in *; lia).
      rewrite set_pixels_twice. cbv beta iota.
      rewrite !(index_get_ok input (0 + Z.of_nat t * 4) c)
        by (try lia; replace (Z.to_nat (0 + Z.of_nat t * 4)) with (t * 4)%nat
              by lia; exact Hc).
      rewrite WS281x_pixels_store_ok
        by (simpl; rewrite !len_insert; unfold n in *; lia).
      rewrite set_pixels_twice. cbv beta iota. simpl WS281x.pixels.
      unfold ret. repeat f_equal. lia. }
    rewrite Hbody. clearbody px1.
    destruct (IH (S t) px1 ltac:(lia) ltac:(rewrite Hl1; exact Hlen)
                ltac:(lia))
      as (px' & Hrun & Hl').
    exists px'. split; [exact Hrun|].
    rewrite Hl', Hl1. reflexivity.
  - (* [i] is past the input: the first index expression panics *)
    exists px. split; [|reflexivity].
    unfold bind at 1.
    rewrite index_get_out by (fold n; unfold len; lia).
    unfold len. fold n. do 3 f_equal. lia.
Qed.

(** X27. On a four-channel strip of two or more pixels, in colour order
    GRBW, [SetRGBWs] given as many pixels as the strip has never returns:
    it panics in the index expression [pixels[i]] on the input, with [i]
    the first multiple of 4 that is not below the pixel count.  The pixel
    buffer keeps its length. *)
Theorem SetRGBWs_panics_from_two_pixels ws (input : list RGBW) :
  WS281x_ok ws -> WS281x_order ws GRBWOrder -> WS281x.numColors ws = 4 ->
  len input = WS281x.numPixels ws -> 2 <= WS281x.numPixels ws ->
  exists px',
    WS281x.SetRGBWs input ws =
    (WS281x.set_pixels ws px',
     Panicked (IndexOutOfRange (4 * ((WS281x.numPixels ws + 3) / 4))
                 (WS281x.numPixels ws))) /\
    len px' = len (WS281x.pixels ws).
Proof.
  intros (Hnp & Hnc & Hlen & _) Hord Hc4 Hin Htwo.
  assert (Hoff : 0 <= WS281x.r ws <= 3 /\ 0 <= WS281x.g ws <= 3 /\
                 0 <= WS281x.b ws <= 3 /\ 0 <= WS281x.w ws <= 3)
    by (unfold WS281x_order in Hord; injection Hord as <- <- <- <-; lia).
  unfold WS281x.SetRGBWs. unfold bind at 1. unfold get. cbv beta iota.
  rewrite Hc4, Hin, !Z.eqb_refl. change (negb true) with false. cbv iota.
  rewrite Hlen, Hc4, Z.mul_comm, count_up_4 by exact Hnp.
  rewrite <- Hin. unfold len at 1 2 3. rewrite Nat2Z.id.
  unfold bind at 1.
  destruct (SetRGBWs_loop ws input (length input) 0 (WS281x.pixels ws))
    as (px' & Hrun & Hl'); [lia|unfold len in *; lia|exact Hoff| |].
  { unfold len in Hin. split; [apply Z.div_pos; lia|].
    apply Z.div_lt_upper_bound; lia. }
  rewrite set_pixels_same in Hrun. change (Z.of_nat 0) with 0 in Hrun.
  rewrite Hrun. exists px'. split; [reflexivity|].
  rewrite Hl', Hlen, Hc4, <- Hin. unfold len. lia.
Qed.

Lemma SetRGBWs_panics_from_two_pixels_witness :
  exists px',
    WS281x.SetRGBWs
      [mkRGBW 1 2 3 4; mkRGBW 5 6 7 8; mkRGBW 9 10 11 12;
       mkRGBW 13 14 15 16; mkRGBW 17 18 19 20]
      (example_ws 5 RGBWModel GRBWOrder []) =
    (WS281x.set_pixels (example_ws 5 RGBWModel GRBWOrder []) px',
     Panicked (IndexOutOfRange
                 (4 * ((WS281x.numPixels (example_ws 5 RGBWModel GRBWOrder [])
                        + 3) / 4))
                 (WS281x.numPixels (example_ws 5 RGBWModel GRBWOrder [])))) /\
    len px' = len (WS281x.pixels (example_ws 5 RGBWModel GRBWOrder [])).
Proof.
  apply (SetRGBWs_panics_from_two_pixels (example_ws 5 RGBWModel GRBWOrder [])).
  - apply example_ws_ok. lia.
  - reflexivity.
  - reflexivity.
  - reflexivity.
  - vm_compute. discriminate.
Defined.

(** ** led_ws281x.go: what the setters keep *)

Lemma WS281x_kept_refl ws : WS281x_kept ws ws.
Proof.
  unfold WS281x_kept. destruct ws; simpl. repeat split; auto.
Qed.

Lemma WS281x_kept_trans a b c :
  WS281x_kept a b -> WS281x_kept b c -> WS281x_kept a c.
Proof.
  intros (Hf & Hl & Hb) (Hf' & Hl' & Hb'). repeat split.
  - rewrite Hf', Hf at 1. reflexivity.
  - congruence.
  - auto.
Qed.

Lemma WS281x_keeps_ret {A} (a : A) (Q : A -> Prop) :
  Q a -> WS281x_keeps (ret a) Q.
Proof.
  intros Ha s. split; [apply WS281x_kept_refl|].
  intros a' [= <-]. exact Ha.
Qed.

Lemma WS281x_keeps_panic {A} p (Q : A -> Prop) : WS281x_keeps (panic p) Q.
Proof. intros s. split; [apply WS281x_kept_refl|]. intros a' [=]. Qed.

Lemma WS281x_keeps_get : WS281x_keeps get (fun _ => True).
Proof. intros s. split; [apply WS281x_kept_refl|]. auto. Qed.

Lemma WS281x_keeps_bind {A B} (m : Go WS281x.t A) (k : A -> Go WS281x.t B)
    (Q : A -> Prop) (R : B -> Prop) :
  WS281x_keeps m Q -> (forall a, Q a -> WS281x_keeps (k a) R) ->
  WS281x_keeps (bind m k) R.
Proof.
  intros Hm Hk s. unfold bind. destruct (Hm s) as [Hkept Hq].
  destruct (m s) as [s' [a|p]]; cbn [fst snd] in *.
  - destruct (Hk a (Hq a eq_refl) s') as [Hkept' Hr].
    split; [eapply WS281x_kept_trans; eassumption|exact Hr].
  - split; [exact Hkept|]. intros a [=].
Qed.

Lemma WS281x_keeps_weaken {A} (m : Go WS281x.t A) (Q R : A -> Prop) :
  WS281x_keeps m Q -> (forall a, Q a -> R a) -> WS281x_keeps m R.
Proof.
  intros Hm HQR s. destruct (Hm s) as [Hkept Hq]. split; [exact Hkept|].
  intros a Ha. apply HQR, Hq, Ha.
Qed.

Lemma WS281x_keeps_index_get {A} (l : list A) (i : Z) (P : A -> Prop) :
  Forall P l -> WS281x_keeps (index_get l i) P.
Proof.
  intros Hl s. unfold index_get, ret, panic.
  destruct ((0 <=? i) && (i <? len l)); [|split; [apply WS281x_kept_refl|]].
  - destruct (l !! Z.to_nat i) as [v|] eqn:Hv;
      (split; [apply WS281x_kept_refl|]).
    + intros a [= <-]. rewrite Forall_lookup in Hl. exact (Hl _ _ Hv).
    + intros a [=].
  - intros a [=].
Qed.

Lemma WS281x_keeps_store i v :
  is_byte v -> WS281x_keeps (WS281x.pixels_store i v) (fun _ => True).
Proof.
  intros Hv s. split; [|auto].
  unfold WS281x.pixels_store, index_set.
  destruct ((0 <=? i) && (i <? len (WS281x.pixels s))) eqn:Hi;
    [|apply WS281x_kept_refl].
  cbn [fst]. unfold WS281x_kept. destruct s; cbn.
  split; [reflexivity|]. split; [apply len_insert|].
  intros Hb. apply Forall_insert; assumption.
Qed.

Lemma WS281x_keeps_foldM {A B} (body : B -> A -> Go WS281x.t B) l :
  (forall acc x, WS281x_keeps (body acc x) (fun _ => True)) ->
  forall acc, WS281x_keeps (foldM body acc l) (fun _ => True).
Proof.
  intros Hbody. induction l as [|x l IH]; intros acc; cbn [foldM].
  - apply WS281x_keeps_ret. exact I.
  - eapply WS281x_keeps_bind; [apply Hbody|]. intros a _. apply IH.
Qed.

Ltac ws_keeps :=
  repeat first
    [ apply WS281x_keeps_ret; exact I
    | apply WS281x_keeps_panic
    | apply WS281x_keeps_foldM; intros
    | apply WS281x_keeps_store;
        match goal with
        | H : RGB_ok _ |- _ => apply H
        | H : RGBW_ok _ |- _ => apply H
        end
    | eapply WS281x_keeps_bind;
        [ first [ apply WS281x_keeps_get
                | apply WS281x_keeps_index_get; eassumption
                | apply WS281x_keeps_store;
                    match goal with
                    | H : RGB_ok _ |- _ => apply H
                    | H : RGBW_ok _ |- _ => apply H
                    end
                | apply WS281x_keeps_foldM; intros ]
        | intros ] ].

Lemma WS281x_write_keeps op :
  PixelWrite_ok op -> WS281x_keeps (WS281x_write op) (fun _ => True).
Proof.
  destruct op as [i c|i c|l|l]; cbn [WS281x_write PixelWrite_ok]; intros Hop.
  - unfold WS281x.SetRGBAt. ws_keeps.
  - unfold WS281x.SetRGBWAt. ws_keeps.
  - unfold WS281x.SetRGBs.
    eapply WS281x_keeps_bind; [apply WS281x_keeps_get|]. intros ws _.
    destruct (negb (WS281x.numColors ws =? 3)); [apply WS281x_keeps_panic|].
    destruct (negb (len l =? WS281x.numPixels ws));
      [apply WS281x_keeps_panic|].
    ws_keeps.
  - unfold WS281x.SetRGBWs.
    eapply WS281x_keeps_bind; [apply WS281x_keeps_get|]. intros ws _.
    destruct (negb (WS281x.numColors ws =? 4)); [apply WS281x_keeps_panic|].
    destruct (negb (len l =? WS281x.numPixels ws));
      [apply WS281x_keeps_panic|].
    ws_keeps.
Qed.

Lemma WS281x_kept_ok ws ws' :
  WS281x_kept ws ws' -> WS281x_ok ws -> WS281x_ok ws'.
Proof.
  intros (Hf & Hl & Hb) (Hnp & Hnc & Hlen & Hbytes).
  unfold WS281x_ok. rewrite Hl. rewrite Hf at 1 2 3 4.
  cbn [WS281x.set_pixels WS281x.numPixels WS281x.numColors].
  repeat split; auto.
Qed.

(** X28. No setter of the WS281x driver, given [uint8] colours, changes
    anything but the pixel buffer, whether it returns or panics half-way:
    the symbol buffer, the counts and the offsets stay, the pixel buffer
    keeps its length and holds bytes, so a driver that satisfies the
    invariant of the constructor still does. *)
Theorem WS281x_setters_keep_invariant (op : PixelWrite) (ws : WS281x.t) :
  PixelWrite_ok op -> WS281x_ok ws ->
  let ws' := fst (WS281x_write op ws) in
  ws' = WS281x.set_pixels ws (WS281x.pixels ws') /\
  len (WS281x.pixels ws') = len (WS281x.pixels ws) /\
  WS281x_ok ws'.
Proof.
  intros Hop Hok ws'.
  destruct (WS281x_write_keeps op Hop ws) as [Hkept _]. fold ws' in Hkept.
  split; [apply Hkept|]. split; [apply Hkept|].
  exact (WS281x_kept_ok _ _ Hkept Hok).
Qed.

Lemma WS281x_setters_keep_invariant_witness :
  WS281x_ok (fst (WS281x_write (WriteRGBs [mkRGB 1 2 3]) scenario_ws)).
Proof.
  refine (proj2 (proj2 (WS281x_setters_keep_invariant
                          (WriteRGBs [mkRGB 1 2 3]) scenario_ws _ _))).
  - repeat constructor; unfold is_byte; cbn; lia.
  - apply example_ws_ok. lia.
Defined.




(** ** led_lpd8806.go: SetRGBWs has the same loop *)

Lemma LPD8806_SetRGBWs_loop la (input : list RGBW) (k t : nat) buf :
  (t + k = length input)%nat ->
  Z.of_nat (length input) * 4 = LPD8806.pixelsLen la ->
  LPD8806.pixelsLen la <= len buf ->
  (0 <= LPD8806.r la <= 3 /\ 0 <= LPD8806.g la <= 3 /\
   0 <= LPD8806.b la <= 3 /\ 0 <= LPD8806.w la <= 3) ->
  (Z.of_nat t <= (Z.of_nat (length input) + 3) / 4 < Z.of_nat (t + k)) ->
  exists buf',
    foldM (fun a i =>
        let* p := index_get input i in
        LPD8806.pixels_store (a + LPD8806.r la) (Z.lor 0x80 (rgbw_R p)) >>>
        let* p := index_get input i in
        LPD8806.pixels_store (a + LPD8806.g la) (Z.lor 0x80 (rgbw_G p)) >>>
        let* p := index_get input i in
        LPD8806.pixels_store (a + LPD8806.b la) (Z.lor 0x80 (rgbw_B p)) >>>
        let* p := index_get input i in
        LPD8806.pixels_store (a + LPD8806.w la) (Z.lor 0x80 (rgbw_W p)) >>>
        ret (a + 1))
      (Z.of_nat t) (map (fun n => 0 + Z.of_nat n * 4) (seq t k))
      (LPD8806.set_buffer la buf)
    = (LPD8806.set_buffer la buf',
       Panicked (IndexOutOfRange
                   (4 * ((Z.of_nat (length input) + 3) / 4))
                   (Z.of_nat (length input)))) /\
    len buf' = len buf.
Proof.
  intros Htk Hlen Hbuf Hoff. revert t buf Htk Hbuf.
  set (n := Z.of_nat (length input)) in *.
  assert (Hceil : n <= 4 * ((n + 3) / 4) < n + 4).
  { pose proof (Z.div_mod (n + 3) 4 ltac:(lia)).
    pose proof (Z.mod_pos_bound (n + 3) 4 ltac:(lia)). lia. }
  induction k as [|k IH]; intros t buf Htk Hbuf Ht0; [lia|].
  simpl seq. simpl map. simpl foldM. unfold bind at 1.
  destruct (Z_lt_ge_dec (Z.of_nat t * 4) n) as [Hin|Hout].
  - destruct (lookup_lt_is_Some_2 input (t * 4)) as [c Hc];
      [unfold n in Hin; lia|].
    destruct Hoff as (Hr & Hg & Hb & Hw).
    set (buf1 :=
           <[Z.to_nat (Z.of_nat t + LPD8806.w la) := Z.lor 0x80 (rgbw_W c)]>
          (<[Z.to_nat (Z.of_nat t + LPD8806.b la) := Z.lor 0x80 (rgbw_B c)]>
          (<[Z.to_nat (Z.of_nat t + LPD8806.g la) := Z.lor 0x80 (rgbw_G c)]>
          (<[Z.to_nat (Z.of_nat t + LPD8806.r la) := Z.lor 0x80 (rgbw_R c)]>
             buf)))).
    assert (Hl1 : len buf1 = len buf)
      by (unfold buf1; rewrite !len_insert; reflexivity).
    assert (Hbody :
      (let* p := index_get input (0 + Z.of_nat t * 4) in
       LPD8806.pixels_store (Z.of_nat t + LPD8806.r la)
         (Z.lor 0x80 (rgbw_R p)) >>>
       let* p := index_get input (0 + Z.of_nat t * 4) in
       LPD8806.pixels_store (Z.of_nat t + LPD8806.g la)
         (Z.lor 0x80 (rgbw_G p)) >>>
       let* p := index_get input (0 + Z.of_nat t * 4) in
       LPD8806.pixels_store (Z.of_nat t + LPD8806.b la)
         (Z.lor 0x80 (rgbw_B p)) >>>
       let* p := index_get input (0 + Z.of_nat t * 4) in
       LPD8806.pixels_store (Z.of_nat t + LPD8806.w la)
         (Z.lor 0x80 (rgbw_W p)) >>>
       ret (Z.of_nat t + 1)) (LPD8806.set_buffer la buf) =
      (LPD8806.set_buffer la buf1, Returned (Z.of_nat (S t)))).
    { unfold buf1, bind.
      rewrite !(index_get_ok input (0 + Z.of_nat t * 4) c)
        by (try lia; replace (Z.to_nat (0 + Z.of_nat t * 4)) with (t * 4)%nat
              by lia; exact Hc).
      rewrite LPD8806_store_buffer by (unfold n in *; lia). cbv beta iota.
      rewrite !(index_get_ok input (0 + Z.of_nat t * 4) c)
        by (try lia; replace (Z.to_nat (0 + Z.of_nat t * 4)) with (t * 4)%nat
              by lia; exact Hc).
      rewrite LPD8806_store_buffer
        by (rewrite ?len_insert; unfold n in *; lia). cbv beta iota.
      rewrite !(index_get_ok input (0 + Z.of_nat t * 4) c)
        by (try lia; replace (Z.to_nat (0 + Z.of_nat t * 4)) with (t * 4)%nat
              by lia; exact Hc).
      rewrite LPD8806_store_buffer
        by (rewrite ?len_insert; unfold n in *; lia). cbv beta iota.
      rewrite !(index_get_ok input (0 + Z.of_nat t * 4) c)
        by (try lia; replace (Z.to_nat (0 + Z.of_nat t * 4)) with (t * 4)%nat
              by lia; exact Hc).
      rewrite LPD8806_store_buffer
        by (rewrite ?len_insert; unfold n in *; lia). cbv beta iota.
      unfold ret. repeat f_equal. lia. }
    rewrite Hbody. clearbody buf1.
    destruct (IH (S t) buf1 ltac:(lia) ltac:(rewrite Hl1; exact Hbuf)
                ltac:(lia))
      as (buf' & Hrun & Hl').
    exists buf'. split; [exact Hrun|].
    rewrite Hl', Hl1. reflexivity.
  - exists buf. split; [|reflexivity].
    unfold bind at 1.
    rewrite index_get_out by (fold n; unfold len; lia).
    unfold len. fold n. do 3 f_equal. lia.
Qed.

(** X30. The LPD8806 driver's [SetRGBWs] has the loop of the WS281x
    one: on a four-channel strip of two or more pixels in colour order
    GRBW, given as many pixels as the strip has, it never returns but
    panics in the index expression [pixels[i]] on the input, with [i] the
    first multiple of 4 that is not below the pixel count.  The buffer
    keeps its length. *)
Theorem LPD8806_SetRGBWs_panics_from_two_pixels la (input : list RGBW) :
  LPD8806_ok la -> LPD8806_order la GRBWOrder -> LPD8806.numColors la = 4 ->
  len input = LPD8806.numPixels la -> 2 <= LPD8806.numPixels la ->
  exists buf',
    LPD8806.SetRGBWs input la =
    (LPD8806.set_buffer la buf',
     Panicked (IndexOutOfRange (4 * ((LPD8806.numPixels la + 3) / 4))
                 (LPD8806.numPixels la))) /\
    len buf' = len (LPD8806.buffer la).
Proof.
  intros (Hnp & Hnc & Hlen & Hbuf) Hord Hc4 Hin Htwo.
  assert (Hoff : 0 <= LPD8806.r la <= 3 /\ 0 <= LPD8806.g la <= 3 /\
                 0 <= LPD8806.b la <= 3 /\ 0 <= LPD8806.w la <= 3)
    by (unfold LPD8806_order in Hord; injection Hord as <- <- <- <-; lia).
  assert (Hpl : LPD8806.pixelsLen la = 4 * len input)
    by (rewrite Hlen, Hc4, Hin; lia).
  unfold LPD8806.SetRGBWs. unfold bind at 1. unfold get. cbv beta iota.
  rewrite Hc4, Hin, !Z.eqb_refl. change (negb true) with false. cbv iota.
  rewrite LPD8806_len_pixels by lia.
  rewrite Hpl, count_up_4 by (unfold len; lia).
  unfold len at 1. rewrite Nat2Z.id.
  unfold bind at 1.
  destruct (LPD8806_SetRGBWs_loop la input (length input) 0
              (LPD8806.buffer la))
    as (buf' & Hrun & Hl');
    [lia|unfold len in *; lia|exact Hbuf|exact Hoff| |].
  { unfold len in Hin. split; [apply Z.div_pos; lia|].
    apply Z.div_lt_upper_bound; lia. }
  rewrite LPD8806_set_buffer_same in Hrun. change (Z.of_nat 0) with 0 in Hrun.
  rewrite Hrun. exists buf'. split; [|exact Hl'].
  unfold len in Hin. rewrite Hin. reflexivity.
Qed.

Lemma LPD8806_SetRGBWs_panics_from_two_pixels_witness :
  exists buf',
    LPD8806.SetRGBWs [mkRGBW 1 2 3 4; mkRGBW 5 6 7 8]
      (example_la 2 RGBWModel GRBWOrder) =
    (LPD8806.set_buffer (example_la 2 RGBWModel GRBWOrder) buf',
     Panicked (IndexOutOfRange
                 (4 * ((LPD8806.numPixels (example_la 2 RGBWModel GRBWOrder)
                        + 3) / 4))
                 (LPD8806.numPixels (example_la 2 RGBWModel GRBWOrder)))) /\
    len buf' = len (LPD8806.buffer (example_la 2 RGBWModel GRBWOrder)).
Proof.
  apply (LPD8806_SetRGBWs_panics_from_two_pixels
           (example_la 2 RGBWModel GRBWOrder)).
  - apply example_la_ok. lia.
  - reflexivity.
  - reflexivity.
  - reflexivity.
  - vm_compute. discriminate.
Defined.
